(** * Dawn alarm: the alarm state machine of [src/App.tsx]

    A shallow embedding of the React component [App] of [src/App.tsx]:
    the persisted settings (the [useState] initialiser and the save
    effect), the alarm-check effect, the snooze, dismiss, toggle and
    time-edit handlers, the alert sound controller and the
    time-remaining query.

    Conventions of the embedding.
    - JavaScript numbers that the component manipulates are time values and
      small counters: they are integers, modelled in [Z]. A number that can
      be [NaN] is an [option Z] with [None] for [NaN]. A quotient is always
      passed at once to [Math.floor] or [Math.ceil]; the pair is the floor
      or the ceiling of the integer division.
    - JavaScript strings are [string]s whose characters are the code units
      0..255.
    - The local time zone is the host's: its offset from UTC is the
      function [LocalTZA] of ECMA-262, which may change from one instant
      to the next (daylight-saving transitions). A property that needs the
      offset to stay put says so, with [steady_zone].
    - A computation that can raise is a [Completion]; the constructor
      [Unmodelled] marks inputs of a built-in ([JSON.parse], [Number]) that
      lie outside the fragment embedded here, and nothing is asserted about
      them. *)

From Stdlib Require Import ZArith String Ascii List Bool Lia DecimalString.
From ExtLib Require Import Structures.Monad.
Import ListNotations.
Import MonadNotation.

Local Open Scope string_scope.
Local Open Scope Z_scope.
Local Open Scope monad_scope.

Set Warnings "-register-all".

(** ** JavaScript values *)

Inductive JSValue : Type :=
| JUndefined
| JNull
| JBool (b : bool)
| JNum (n : Z)
| JStr (s : string)
| JArr (elems : list JSValue)
| JObj (props : list (string * JSValue)).

Inductive Exn : Type :=
| SyntaxError
| TypeError
| AudioUnavailable.

Inductive Completion (A : Type) : Type :=
| Normal (a : A)
| Throw (e : Exn)
| Unmodelled.

Arguments Normal {A} a.
Arguments Throw {A} e.
Arguments Unmodelled {A}.

#[export] Instance Monad_Completion : Monad Completion :=
  {| ret := fun _ a => Normal a;
     bind := fun _ _ c k =>
       match c with
       | Normal a => k a
       | Throw e => Throw e
       | Unmodelled => Unmodelled
       end |}.

(** [ToBoolean]. *)
Definition truthy (v : JSValue) : bool :=
  match v with
  | JUndefined | JNull => false
  | JBool b => b
  | JNum n => negb (n =? 0)
  | JStr s => negb (String.eqb s "")
  | JArr _ | JObj _ => true
  end.

(** Truthiness of a [number | null]: [null], [0] and [NaN] are falsy. *)
Definition truthy_num (n : option Z) : bool :=
  match n with
  | Some z => negb (z =? 0)
  | None => false
  end.

(** ** Strings *)

Definition dquote : ascii := "034"%char.
Definition backslash : ascii := "\"%char.

(** [String(n)] for an integer [n]. *)
Definition String_of_Z (n : Z) : string :=
  NilZero.string_of_int (Z.to_int n).

(** [String(x)] for a number that may be [NaN]. *)
Definition String_of_num (x : option Z) : string :=
  match x with
  | Some n => String_of_Z n
  | None => "NaN"
  end.

Fixpoint repeat_char (c : ascii) (n : nat) : string :=
  match n with
  | O => ""
  | S n' => String c (repeat_char c n')
  end.

(** [s.padStart(n, c)] with a one-character filler. *)
Definition padStart (s : string) (n : nat) (c : ascii) : string :=
  repeat_char c (n - String.length s) ++ s.

(** [s.split(sep)] with a one-character separator: the pieces between the
    occurrences of [sep]; never empty. *)
Fixpoint split (sep : ascii) (s : string) : list string :=
  match s with
  | "" => [""]
  | String c r =>
      if Ascii.eqb c sep then "" :: split sep r
      else match split sep r with
           | p :: ps => String c p :: ps
           | [] => [String c ""]
           end
  end.

Definition is_digit (c : ascii) : bool :=
  let n := N_of_ascii c in ((48 <=? n) && (n <=? 57))%N.

Definition digit_val (c : ascii) : Z := Z.of_N (N_of_ascii c) - 48.

Fixpoint all_digits (s : string) : bool :=
  match s with
  | "" => true
  | String c r => is_digit c && all_digits r
  end.

Fixpoint digits_val (acc : Z) (s : string) : Z :=
  match s with
  | "" => acc
  | String c r => digits_val (10 * acc + digit_val c) r
  end.

(** Integers that a double represents exactly. *)
Definition MAX_SAFE : Z := 2 ^ 53.

(** [Number(s)] on the fragment: the empty string is [0]; a string of
    decimal digits with an exactly representable value is that value.
    Signs, fractions, exponents, radix prefixes, surrounding white space,
    [Infinity] and everything that is [NaN] are outside the fragment. *)
Definition Number (s : string) : Completion (option Z) :=
  if String.eqb s "" then Normal (Some 0)
  else if all_digits s && (digits_val 0 s <=? MAX_SAFE)
       then Normal (Some (digits_val 0 s))
       else Unmodelled.

(** ** Objects

    An object is its list of own properties in enumeration order: array
    indices in ascending order first, then the other keys in insertion
    order. *)

(** A canonical array index: [0] or digits without a leading zero, at most
    [2^32 - 2]. *)
Definition array_index (k : string) : option Z :=
  match k with
  | "" => None
  | String c r =>
      if all_digits k && (negb (Ascii.eqb c "0") || String.eqb r "")
         && (String.length k <=? 10)%nat && (digits_val 0 k <=? 2 ^ 32 - 2)
      then Some (digits_val 0 k) else None
  end.

Fixpoint obj_get (k : string) (props : list (string * JSValue)) : JSValue :=
  match props with
  | [] => JUndefined
  | (k', v) :: ps => if String.eqb k k' then v else obj_get k ps
  end.

Fixpoint obj_has (k : string) (props : list (string * JSValue)) : bool :=
  match props with
  | [] => false
  | (k', _) :: ps => String.eqb k k' || obj_has k ps
  end.

Fixpoint obj_replace (k : string) (v : JSValue) (props : list (string * JSValue))
  : list (string * JSValue) :=
  match props with
  | [] => []
  | (k', v') :: ps =>
      if String.eqb k k' then (k', v) :: ps else (k', v') :: obj_replace k v ps
  end.

(** Insert a new index key [k = i] before the first key that is not an
    index or is a larger index. *)
Fixpoint obj_insert_index (i : Z) (k : string) (v : JSValue)
  (props : list (string * JSValue)) : list (string * JSValue) :=
  match props with
  | [] => [(k, v)]
  | (k', v') :: ps =>
      match array_index k' with
      | Some j => if j <? i then (k', v') :: obj_insert_index i k v ps
                  else (k, v) :: props
      | None => (k, v) :: props
      end
  end.

(** [CreateDataProperty(obj, k, v)]. *)
Definition obj_set (k : string) (v : JSValue) (props : list (string * JSValue))
  : list (string * JSValue) :=
  if obj_has k props then obj_replace k v props
  else match array_index k with
       | Some i => obj_insert_index i k v props
       | None => props ++ [(k, v)]
       end.

Definition obj_keys (props : list (string * JSValue)) : list string :=
  map fst props.

Fixpoint obj_remove (k : string) (props : list (string * JSValue))
  : list (string * JSValue) :=
  match props with
  | [] => []
  | (k', v) :: ps =>
      if String.eqb k k' then obj_remove k ps else (k', v) :: obj_remove k ps
  end.

Fixpoint enum_from {A : Type} (i : Z) (l : list A) : list (string * A) :=
  match l with
  | [] => []
  | x :: xs => (String_of_Z i, x) :: enum_from (i + 1) xs
  end.

Fixpoint chars (s : string) : list JSValue :=
  match s with
  | "" => []
  | String c r => JStr (String c "") :: chars r
  end.

(** The own enumerable properties that [{...v}] copies. *)
Definition spread (v : JSValue) : list (string * JSValue) :=
  match v with
  | JObj props => props
  | JArr elems => enum_from 0 elems
  | JStr s => enum_from 0 (chars s)
  | JUndefined | JNull | JBool _ | JNum _ => []
  end.

(** ** [JSON.parse]

    The JSON grammar, on the fragment where a number is an integer literal
    of exactly representable value and a [\u] escape denotes a code unit
    below 256. *)

Definition is_ws (c : ascii) : bool :=
  let n := N_of_ascii c in
  ((n =? 32) || (n =? 9) || (n =? 10) || (n =? 13))%N.

Fixpoint skip_ws (s : string) : string :=
  match s with
  | "" => ""
  | String c r => if is_ws c then skip_ws r else s
  end.

Definition hex_val (c : ascii) : option N :=
  let n := N_of_ascii c in
  if ((48 <=? n) && (n <=? 57))%N then Some (n - 48)%N
  else if ((97 <=? n) && (n <=? 102))%N then Some (n - 87)%N
  else if ((65 <=? n) && (n <=? 70))%N then Some (n - 55)%N
  else None.

Definition hex4 (a b c d : ascii) : option N :=
  match hex_val a, hex_val b, hex_val c, hex_val d with
  | Some x, Some y, Some z, Some w => Some (((x * 16 + y) * 16 + z) * 16 + w)%N
  | _, _, _, _ => None
  end.

(** The character denoted by the one-letter escape [\e]. *)
Definition unescape (e : ascii) : option ascii :=
  if Ascii.eqb e dquote then Some dquote
  else if Ascii.eqb e backslash then Some backslash
  else if Ascii.eqb e "/" then Some "/"%char
  else if Ascii.eqb e "b" then Some "008"%char
  else if Ascii.eqb e "f" then Some "012"%char
  else if Ascii.eqb e "n" then Some "010"%char
  else if Ascii.eqb e "r" then Some "013"%char
  else if Ascii.eqb e "t" then Some "009"%char
  else None.

(** A string literal, after its opening quote: the denoted string and the
    rest of the input. *)
Fixpoint parse_string_body (s : string) : Completion (string * string) :=
  match s with
  | "" => Throw SyntaxError
  | String c r =>
      if Ascii.eqb c dquote then Normal ("", r)
      else if Ascii.eqb c backslash then
        match r with
        | "" => Throw SyntaxError
        | String e r' =>
            match unescape e with
            | Some c' =>
                '(str, rest) <- parse_string_body r' ;;
                ret (String c' str, rest)
            | None =>
                if Ascii.eqb e "u" then
                  match r' with
                  | String h1 (String h2 (String h3 (String h4 r''))) =>
                      match hex4 h1 h2 h3 h4 with
                      | Some n =>
                          if (n <? 256)%N then
                            '(str, rest) <- parse_string_body r'' ;;
                            ret (String (ascii_of_N n) str, rest)
                          else Unmodelled
                      | None => Throw SyntaxError
                      end
                  | _ => Throw SyntaxError
                  end
                else Throw SyntaxError
            end
        end
      else if (N_of_ascii c <? 32)%N then Throw SyntaxError
      else '(str, rest) <- parse_string_body r ;;
           ret (String c str, rest)
  end.

Fixpoint take_digits (s : string) : string * string :=
  match s with
  | "" => ("", "")
  | String c r =>
      if is_digit c
      then let '(ds, rest) := take_digits r in (String c ds, rest)
      else ("", s)
  end.

Definition starts_fraction_or_exponent (s : string) : bool :=
  match s with
  | String c _ => Ascii.eqb c "." || Ascii.eqb c "e" || Ascii.eqb c "E"
  | "" => false
  end.

(** A number literal: an optional minus sign, then [0] or digits without a
    leading zero. *)
Definition parse_number (s : string) : Completion (JSValue * string) :=
  let '(neg, s1) :=
    match s with
    | String c r => if Ascii.eqb c "-" then (true, r) else (false, s)
    | "" => (false, s)
    end in
  match s1 with
  | "" => Throw SyntaxError
  | String c r =>
      if is_digit c then
        let '(ds, rest) :=
          if Ascii.eqb c "0" then (String c "", r) else take_digits s1 in
        if starts_fraction_or_exponent rest then Unmodelled
        else if digits_val 0 ds <=? MAX_SAFE
             then Normal (JNum (if neg then - digits_val 0 ds else digits_val 0 ds),
                          rest)
             else Unmodelled
      else Throw SyntaxError
  end.

Fixpoint strip_prefix (p s : string) : option string :=
  match p, s with
  | "", _ => Some s
  | String a p', String b s' => if Ascii.eqb a b then strip_prefix p' s' else None
  | String _ _, "" => None
  end.

Definition parse_literal (s : string) : Completion (JSValue * string) :=
  match strip_prefix "true" s, strip_prefix "false" s, strip_prefix "null" s with
  | Some r, _, _ => Normal (JBool true, r)
  | _, Some r, _ => Normal (JBool false, r)
  | _, _, Some r => Normal (JNull, r)
  | None, None, None => Throw SyntaxError
  end.

(** A value, the elements of an array after its first bracket, and the
    members of an object after its first brace. Every call consumes input,
    so [fuel] above twice the length of the text is never exhausted. *)
Fixpoint parse_value (fuel : nat) (s : string) : Completion (JSValue * string) :=
  match fuel with
  | O => Unmodelled
  | S f =>
      match skip_ws s with
      | "" => Throw SyntaxError
      | String c r =>
          if Ascii.eqb c "{" then
            match skip_ws r with
            | String c' r' =>
                if Ascii.eqb c' "}" then Normal (JObj [], r')
                else parse_members f r []
            | "" => Throw SyntaxError
            end
          else if Ascii.eqb c "[" then
            match skip_ws r with
            | String c' r' =>
                if Ascii.eqb c' "]" then Normal (JArr [], r')
                else parse_elements f r []
            | "" => Throw SyntaxError
            end
          else if Ascii.eqb c dquote then
            '(str, rest) <- parse_string_body r ;;
            ret (JStr str, rest)
          else if is_digit c || Ascii.eqb c "-" then parse_number (String c r)
          else parse_literal (String c r)
      end
  end

with parse_elements (fuel : nat) (s : string) (acc : list JSValue)
  : Completion (JSValue * string) :=
  match fuel with
  | O => Unmodelled
  | S f =>
      '(v, r) <- parse_value f s ;;
      match skip_ws r with
      | String c r' =>
          if Ascii.eqb c "," then parse_elements f r' (acc ++ [v])
          else if Ascii.eqb c "]" then Normal (JArr (acc ++ [v]), r')
          else Throw SyntaxError
      | "" => Throw SyntaxError
      end
  end

with parse_members (fuel : nat) (s : string) (obj : list (string * JSValue))
  : Completion (JSValue * string) :=
  match fuel with
  | O => Unmodelled
  | S f =>
      match skip_ws s with
      | "" => Throw SyntaxError
      | String q r =>
          if Ascii.eqb q dquote then
            '(k, r1) <- parse_string_body r ;;
            match skip_ws r1 with
            | String c r2 =>
                if Ascii.eqb c ":" then
                  '(v, r3) <- parse_value f r2 ;;
                  match skip_ws r3 with
                  | String c' r4 =>
                      if Ascii.eqb c' "," then parse_members f r4 (obj_set k v obj)
                      else if Ascii.eqb c' "}" then Normal (JObj (obj_set k v obj), r4)
                      else Throw SyntaxError
                  | "" => Throw SyntaxError
                  end
                else Throw SyntaxError
            | "" => Throw SyntaxError
            end
          else Throw SyntaxError
      end
  end.

Definition JSON_parse (text : string) : Completion JSValue :=
  '(v, rest) <- parse_value (2 * String.length text + 2) text ;;
  match skip_ws rest with
  | "" => Normal v
  | String _ _ => Throw SyntaxError
  end.

(** ** [JSON.stringify] *)

Definition hex_digit (n : N) : ascii :=
  if (n <? 10)%N then ascii_of_N (48 + n) else ascii_of_N (87 + n).

(** The escape of one character inside a quoted JSON string. *)
Definition escape_char (c : ascii) : string :=
  let n := N_of_ascii c in
  if Ascii.eqb c dquote then String backslash (String dquote "")
  else if Ascii.eqb c backslash then String backslash (String backslash "")
  else if (n =? 8)%N then String backslash "b"
  else if (n =? 12)%N then String backslash "f"
  else if (n =? 10)%N then String backslash "n"
  else if (n =? 13)%N then String backslash "r"
  else if (n =? 9)%N then String backslash "t"
  else if (n <? 32)%N
       then String backslash
              (String "u" (String "0" (String "0"
                 (String (hex_digit (n / 16)) (String (hex_digit (n mod 16)) "")))))
       else String c "".

Fixpoint quote_body (s : string) : string :=
  match s with
  | "" => ""
  | String c r => (escape_char c ++ quote_body r)%string
  end.

(** [QuoteJSONString]. *)
Definition quote (s : string) : string :=
  String dquote (quote_body s ++ String dquote "")%string.

(** [JSON.stringify(v)]; [None] is [undefined]. A property whose value
    serialises to [undefined] is left out; such an array element is
    written [null]. *)
Fixpoint JSON_stringify (v : JSValue) : option string :=
  match v with
  | JUndefined => None
  | JNull => Some "null"
  | JBool true => Some "true"
  | JBool false => Some "false"
  | JNum n => Some (String_of_Z n)
  | JStr s => Some (quote s)
  | JArr elems =>
      Some ("[" ++ String.concat ","
                     (map (fun e => match JSON_stringify e with
                                    | Some s => s
                                    | None => "null"
                                    end) elems)
                ++ "]")%string
  | JObj props =>
      Some ("{" ++ String.concat ","
                     (flat_map (fun kv => match JSON_stringify (snd kv) with
                                          | Some s =>
                                              [(quote (fst kv) ++ ":" ++ s)%string]
                                          | None => []
                                          end) props)
                ++ "}")%string
  end.

(** JSON texts are written below with [']  for the double quote. *)
Fixpoint js (s : string) : string :=
  match s with
  | "" => ""
  | String c r => String (if Ascii.eqb c "'" then dquote else c) (js r)
  end.

(** ** The host: local time zone and Web Audio

    The component runs against a browser. [LocalTZA t isUTC] is the offset
    of its time zone from UTC, in milliseconds: the offset in effect at the
    instant [t] when [isUTC], and the offset with which the local time [t]
    is read otherwise (a local time that a transition skips or repeats is
    read with the offset before the transition). The audio nodes are opaque
    objects made by the browser. *)

Class Host : Type := {
  LocalTZA : Z -> bool -> Z;
  AudioContext : Type;
  OscillatorNode : Type;
  GainNode : Type;
  createOscillator : AudioContext -> OscillatorNode;
  createGain : AudioContext -> GainNode
}.

(** ** Dates

    A valid [Date] is its time value, the milliseconds since the epoch; a
    date that may be invalid is an [option Z]. *)

Definition msPerSecond : Z := 1000.
Definition msPerMinute : Z := 60000.
Definition msPerHour : Z := 3600000.
Definition msPerDay : Z := 86400000.

Definition Day (t : Z) : Z := t / msPerDay.
Definition TimeWithinDay (t : Z) : Z := t mod msPerDay.
Definition HourFromTime (t : Z) : Z := (t / msPerHour) mod 24.
Definition MinFromTime (t : Z) : Z := (t / msPerMinute) mod 60.
Definition SecFromTime (t : Z) : Z := (t / msPerSecond) mod 60.

Definition MakeTime (h m s ms : Z) : Z :=
  h * msPerHour + m * msPerMinute + s * msPerSecond + ms.
Definition MakeDate (day time : Z) : Z := day * msPerDay + time.

Definition TimeClip (t : Z) : option Z :=
  if Z.abs t <=? 8640000000000000 then Some t else None.

Section Dates.
Context `{Host}.

Definition LocalTime (t : Z) : Z := t + LocalTZA t true.
Definition UTC (t : Z) : Z := t - LocalTZA t false.

Definition getHours (d : Z) : Z := HourFromTime (LocalTime d).
Definition getMinutes (d : Z) : Z := MinFromTime (LocalTime d).
Definition getSeconds (d : Z) : Z := SecFromTime (LocalTime d).

(** [d.setHours(h, m, s, ms)]: the new time value, the instant that the
    zone gives to that time of day on the local day of [d]. *)
Definition setHours (d : Z) (h m s ms : option Z) : option Z :=
  match h, m, s, ms with
  | Some h, Some m, Some s, Some ms =>
      TimeClip (UTC (MakeDate (Day (LocalTime d)) (MakeTime h m s ms)))
  | _, _, _, _ => None
  end.

(** [d.setDate(d.getDate() + 1)], local calendar arithmetic: [MakeDay] of
    the local year, month and day of the month plus one is the day after
    the local [Day]; the local time within the day is kept, and the zone
    resolves the new local time. Across a change of offset the result is
    not 24 hours after [d]. *)
Definition setDate_getDate_plus_1 (d : Z) : option Z :=
  TimeClip (UTC (MakeDate (Day (LocalTime d) + 1) (TimeWithinDay (LocalTime d)))).
End Dates.

(** ** The component state *)

(** [interface AlarmState]. After the initialiser, [snoozed] and
    [snoozeUntil] only ever receive a boolean and a number or [null];
    [time] and [enabled] are whatever the stored payload held, and
    [others] are the further properties that the spreads carry along. *)
Record AlarmState : Type := mkAlarm {
  time : JSValue;
  enabled : JSValue;
  snoozed : bool;
  snoozeUntil : option Z;
  others : list (string * JSValue)
}.

Definition STORAGE_KEY : string := "dawn-alarm-settings".
Definition SNOOZE_DURATION : Z := 5 * 60 * 1000.

Definition set_time (v : JSValue) (a : AlarmState) : AlarmState :=
  mkAlarm v (enabled a) (snoozed a) (snoozeUntil a) (others a).
Definition set_enabled (v : JSValue) (a : AlarmState) : AlarmState :=
  mkAlarm (time a) v (snoozed a) (snoozeUntil a) (others a).
Definition set_snoozed (b : bool) (a : AlarmState) : AlarmState :=
  mkAlarm (time a) (enabled a) b (snoozeUntil a) (others a).
Definition set_snoozeUntil (u : option Z) (a : AlarmState) : AlarmState :=
  mkAlarm (time a) (enabled a) (snoozed a) u (others a).

(** The initialiser of [useState<AlarmState>] (the spec's [load]), given
    [localStorage.getItem(STORAGE_KEY)]. *)
Definition initialAlarm (saved : option string) : Completion AlarmState :=
  match saved with
  | Some s =>
      if truthy (JStr s) then
        parsed <- JSON_parse s ;;
        let props := spread parsed in
        ret (mkAlarm (obj_get "time" props) (obj_get "enabled" props) false None
               (obj_remove "snoozeUntil"
                  (obj_remove "snoozed"
                     (obj_remove "enabled" (obj_remove "time" props)))))
      else ret (mkAlarm (JStr "07:00") (JBool false) false None [])
  | None => ret (mkAlarm (JStr "07:00") (JBool false) false None [])
  end.

(** The default configuration: 07:00, disabled. *)
Definition defaultAlarm : AlarmState :=
  mkAlarm (JStr "07:00") (JBool false) false None [].

(** A configuration of the declared types: a string and a boolean. *)
Definition config (t : string) (e : bool) : AlarmState :=
  mkAlarm (JStr t) (JBool e) false None [].

(** The text [{"time":<quoted t>,"enabled":<e>}]. *)
Definition saved_text (t : string) (e : bool) : string :=
  js "{'time':'"
  ++ quote_body t
  ++ js "','enabled':" ++ (if e then "true" else "false") ++ "}".

(** The item that the save effect writes (the spec's [save]). *)
Definition savedItem (a : AlarmState) : option string :=
  JSON_stringify (JObj [("time", time a); ("enabled", enabled a)]).

Section Component.
Context `{Host}.

(** The state of a mounted [App]: its three [useState] cells, its three
    refs, and the item of [localStorage] under [STORAGE_KEY]. *)
Record World : Type := mkWorld {
  currentTime : Z;
  alarm : AlarmState;
  isRinging : bool;
  audioContextRef : option AudioContext;
  oscillatorRef : option OscillatorNode;
  gainRef : option GainNode;
  storage : option string
}.

(** Handlers and effects run in a state monad over [World] in which a
    raised exception keeps the updates made before it. *)
Definition M (A : Type) : Type := World -> Completion A * World.

#[export] Instance Monad_M : Monad M :=
  {| ret := fun _ a w => (Normal a, w);
     bind := fun _ _ m k w =>
       match m w with
       | (Normal a, w') => k a w'
       | (Throw e, w') => (Throw e, w')
       | (Unmodelled, w') => (Unmodelled, w')
       end |}.

Definition read {A : Type} (f : World -> A) : M A := fun w => (Normal (f w), w).
Definition throw {A : Type} (e : Exn) : M A := fun w => (Throw e, w).
Definition lift {A : Type} (c : Completion A) : M A := fun w => (c, w).

Definition setCurrentTime (d : Z) : M unit := fun w =>
  (Normal tt, mkWorld d (alarm w) (isRinging w) (audioContextRef w)
                (oscillatorRef w) (gainRef w) (storage w)).
Definition setAlarm (f : AlarmState -> AlarmState) : M unit := fun w =>
  (Normal tt, mkWorld (currentTime w) (f (alarm w)) (isRinging w)
                (audioContextRef w) (oscillatorRef w) (gainRef w) (storage w)).
Definition setIsRinging (b : bool) : M unit := fun w =>
  (Normal tt, mkWorld (currentTime w) (alarm w) b (audioContextRef w)
                (oscillatorRef w) (gainRef w) (storage w)).
Definition setAudioContextRef (r : option AudioContext) : M unit := fun w =>
  (Normal tt, mkWorld (currentTime w) (alarm w) (isRinging w) r
                (oscillatorRef w) (gainRef w) (storage w)).
Definition setOscillatorRef (r : option OscillatorNode) : M unit := fun w =>
  (Normal tt, mkWorld (currentTime w) (alarm w) (isRinging w)
                (audioContextRef w) r (gainRef w) (storage w)).
Definition setGainRef (r : option GainNode) : M unit := fun w =>
  (Normal tt, mkWorld (currentTime w) (alarm w) (isRinging w)
                (audioContextRef w) (oscillatorRef w) r (storage w)).
Definition setItem (v : option string) : M unit := fun w =>
  (Normal tt, mkWorld (currentTime w) (alarm w) (isRinging w)
                (audioContextRef w) (oscillatorRef w) (gainRef w) v).

(** The save effect:
    [localStorage.setItem(STORAGE_KEY, JSON.stringify({time, enabled}))]. *)
Definition saveEffect : M unit :=
  a <- read alarm ;;
  setItem (savedItem a).

(** [startAlarmSound]; [newAudioContext] is what the constructor
    [new AudioContext()] yields if it is called: a context, or [None]
    when it raises because the audio subsystem is unavailable. The
    connections, the oscillator settings, [oscillator.start()] and the
    pulse schedule act on the audio graph only. *)
Definition startAlarmSound (newAudioContext : option AudioContext) : M unit :=
  ctx <- read audioContextRef ;;
  match ctx with
  | Some _ => ret tt
  | None =>
      match newAudioContext with
      | None => throw AudioUnavailable
      | Some audioContext =>
          setAudioContextRef (Some audioContext) ;;
          let oscillator := createOscillator audioContext in
          let gain := createGain audioContext in
          setOscillatorRef (Some oscillator) ;;
          setGainRef (Some gain)
      end
  end.

(** [stopAlarmSound]: [oscillator.stop()] and [audioContext.close()] act
    on the audio graph; the refs are cleared. *)
Definition stopAlarmSound : M unit :=
  osc <- read oscillatorRef ;;
  match osc with
  | Some _ => setOscillatorRef None
  | None => ret tt
  end ;;
  ctx <- read audioContextRef ;;
  match ctx with
  | Some _ => setAudioContextRef None
  | None => ret tt
  end ;;
  setGainRef None.

Definition currentTimeStr (now : Z) : string :=
  (padStart (String_of_Z (getHours now)) 2 "0" ++ ":"
   ++ padStart (String_of_Z (getMinutes now)) 2 "0")%string.

(** [s === v] for a string [s]. *)
Definition strict_eq_string (s : string) (v : JSValue) : bool :=
  match v with
  | JStr s' => String.eqb s s'
  | _ => false
  end.

(** The alarm-check effect; [dateNow] is the reading of [Date.now()]. *)
Definition checkAlarm (newAudioContext : option AudioContext) (dateNow : Z)
  : M unit :=
  a <- read alarm ;;
  ringing <- read isRinging ;;
  if negb (truthy (enabled a)) || ringing then ret tt
  else
    now <- read currentTime ;;
    if snoozed a && truthy_num (snoozeUntil a) then
      match snoozeUntil a with
      | Some u =>
          if dateNow >=? u then
            setAlarm (fun prev => set_snoozeUntil None (set_snoozed false prev)) ;;
            setIsRinging true ;;
            startAlarmSound newAudioContext
          else ret tt
      | None => ret tt
      end
    else if strict_eq_string (currentTimeStr now) (time a)
            && (getSeconds now =? 0) && negb (snoozed a)
    then setIsRinging true ;; startAlarmSound newAudioContext
    else ret tt.

Definition handleDismiss : M unit :=
  setIsRinging false ;;
  stopAlarmSound ;;
  setAlarm (fun prev =>
    set_snoozeUntil None (set_snoozed false (set_enabled (JBool false) prev))).

Definition handleSnooze (dateNow : Z) : M unit :=
  setIsRinging false ;;
  stopAlarmSound ;;
  setAlarm (fun prev =>
    set_snoozeUntil (Some (dateNow + SNOOZE_DURATION)) (set_snoozed true prev)).

Definition toggleAlarm : M unit :=
  setAlarm (fun prev =>
    set_snoozeUntil None
      (set_snoozed false (set_enabled (JBool (negb (truthy (enabled prev)))) prev))).

(** The [onChange] of the time input and the [onClick] of a quick-set
    button. *)
Definition changeTime (t : string) : M unit :=
  setAlarm (fun prev =>
    set_snoozeUntil None (set_snoozed false (set_time (JStr t) prev))).

(** [strs.map(Number)]. *)
Fixpoint map_Number (strs : list string) : Completion (list (option Z)) :=
  match strs with
  | [] => ret []
  | s :: rest =>
      n <- Number s ;;
      ns <- map_Number rest ;;
      ret (n :: ns)
  end.

(** [Math.ceil(a / b)] and [Math.floor(a / b)] for integers and [b > 0]. *)
Definition ceil_div (a b : Z) : Z := - ((- a) / b).
Definition floor_div (a b : Z) : Z := a / b.

(** [x > 0] for a number that may be [NaN]. *)
Definition gt0 (x : option Z) : bool :=
  match x with
  | Some n => 0 <? n
  | None => false
  end.

(** The time-remaining query; [dateNow] is the reading of [Date.now()].
    A missing array element is [undefined], which [setHours] converts to
    [NaN]. *)
Definition getTimeUntilAlarm (dateNow : Z) : M (option string) :=
  a <- read alarm ;;
  if negb (truthy (enabled a)) then ret None
  else
    now <- read currentTime ;;
    match time a with
    | JStr t =>
        parts <- lift (map_Number (split ":" t)) ;;
        let alarmHours := nth 0 parts None in
        let alarmMinutes := nth 1 parts None in
        let alarmDate := setHours now alarmHours alarmMinutes (Some 0) (Some 0) in
        let alarmDate :=
          match alarmDate with
          | Some d => if d <=? now then setDate_getDate_plus_1 d else Some d
          | None => None
          end in
        let snoozeText :=
          if snoozed a && truthy_num (snoozeUntil a) then
            match snoozeUntil a with
            | Some u =>
                let diff := u - dateNow in
                if 0 <? diff then
                  let mins := ceil_div diff 60000 in
                  Some ("Snooze: " ++ String_of_Z mins ++ "m")%string
                else None
            | None => None
            end
          else None in
        match snoozeText with
        | Some text => ret (Some text)
        | None =>
            let diff := option_map (fun d => d - now) alarmDate in
            let hours := option_map (fun d => floor_div d (1000 * 60 * 60)) diff in
            let minutes :=
              option_map (fun d => floor_div (Z.rem d (1000 * 60 * 60)) (1000 * 60))
                diff in
            if gt0 hours then
              ret (Some ("in " ++ String_of_num hours ++ "h "
                         ++ String_of_num minutes ++ "m")%string)
            else ret (Some ("in " ++ String_of_num minutes ++ "m")%string)
        end
    | _ => throw TypeError
    end.

(** ** Events

    What happens to a mounted component: the interval callback stores a
    new [Date]; the user clicks or edits. The snooze and dismiss buttons
    are rendered only while [isRinging]. After the handler, React runs the
    effects whose dependencies changed: the save effect when [time] or
    [enabled] changed, then the alarm check. *)
Inductive Event : Type :=
| Tick (date : Z)
| ClickSnooze (dateNow : Z)
| ClickDismiss
| ClickToggle
| ChangeTime (t : string).

(** An event with what the following alarm check reads from the host. *)
Record Input : Type := mkInput {
  event : Event;
  effectNow : Z;
  newAudioContext : option AudioContext
}.

(** [Object.is] on the values that [time] and [enabled] take: primitives
    are compared by value; an object there is only ever carried along by
    the spreads, never replaced by another object (the handlers store
    strings and booleans), so its structure decides its identity. *)
Fixpoint same_value (a b : JSValue) : bool :=
  match a, b with
  | JUndefined, JUndefined => true
  | JNull, JNull => true
  | JBool x, JBool y => Bool.eqb x y
  | JNum x, JNum y => x =? y
  | JStr x, JStr y => String.eqb x y
  | JArr x, JArr y =>
      (fix go (l1 l2 : list JSValue) : bool :=
         match l1, l2 with
         | [], [] => true
         | u :: l1', v :: l2' => same_value u v && go l1' l2'
         | _, _ => false
         end) x y
  | JObj x, JObj y =>
      (fix go (l1 l2 : list (string * JSValue)) : bool :=
         match l1, l2 with
         | [], [] => true
         | (j, u) :: l1', (k, v) :: l2' =>
             String.eqb j k && same_value u v && go l1' l2'
         | _, _ => false
         end) x y
  | _, _ => false
  end.

(** The control that raises the event is on screen: the snooze and
    dismiss buttons are inside [{isRinging && (...)}]. *)
Definition rendered (ev : Event) (w : World) : bool :=
  match ev with
  | ClickSnooze _ | ClickDismiss => isRinging w
  | Tick _ | ClickToggle | ChangeTime _ => true
  end.

Definition handler (ev : Event) : M unit :=
  match ev with
  | Tick date => setCurrentTime date
  | ClickSnooze dateNow => handleSnooze dateNow
  | ClickDismiss => handleDismiss
  | ClickToggle => toggleAlarm
  | ChangeTime t => changeTime t
  end.

(** The handler of an event, if its control is on screen. *)
Definition handle (ev : Event) : M unit :=
  on_screen <- read (rendered ev) ;;
  if on_screen then handler ev else ret tt.

(** An event: nothing when its control is not on screen; otherwise its
    handler, then the effects. Every handler stores a new [Date] or a new
    alarm object, so the alarm check always runs again. *)
Definition step (i : Input) : M unit :=
  on_screen <- read (rendered (event i)) ;;
  if on_screen then
    before <- read alarm ;;
    handler (event i) ;;
    after <- read alarm ;;
    (if same_value (time before) (time after)
        && same_value (enabled before) (enabled after)
     then ret tt else saveEffect) ;;
    checkAlarm (newAudioContext i) (effectNow i)
  else ret tt.

(** One tick of the clock: the interval callback and the alarm check. *)
Definition tick (newAudioContext : option AudioContext) (date dateNow : Z)
  : M unit :=
  step (mkInput (Tick date) dateNow newAudioContext).

(** Mounting: the initial state from the stored item, then the save
    effect and the alarm check. *)
Definition initialWorld (saved : option string) (date : Z) : Completion World :=
  a <- initialAlarm saved ;;
  ret (mkWorld date a false None None None saved).

Definition mountEffects (newAudioContext : option AudioContext) (dateNow : Z)
  : M unit :=
  saveEffect ;;
  checkAlarm newAudioContext dateNow.

(** The worlds of a browser whose storage starts empty and is written by
    the component only: first run, events, and reloads from the stored
    item. A world in which an effect raised stays in the relation: its
    storage is what the next reload reads. *)
Inductive reachable : World -> Prop :=
| reach_first (date dateNow : Z) (ctx : option AudioContext) (w0 : World) :
    initialWorld None date = Normal w0 ->
    reachable (snd (mountEffects ctx dateNow w0))
| reach_step (i : Input) (w : World) :
    reachable w -> reachable (snd (step i w))
| reach_reload (date dateNow : Z) (ctx : option AudioContext) (w w0 : World) :
    reachable w ->
    initialWorld (storage w) date = Normal w0 ->
    reachable (snd (mountEffects ctx dateNow w0)).

(** The condition of the time-match branch, in the spec's words: enabled,
    not ringing, not snoozed, the local "HH:MM" equal to the configured
    time, and the seconds equal to 0. *)
Definition time_match_condition (w : World) : bool :=
  truthy (enabled (alarm w)) && negb (isRinging w)
  && negb (snoozed (alarm w))
  && strict_eq_string (currentTimeStr (currentTime w)) (time (alarm w))
  && (getSeconds (currentTime w) =? 0).

(** What an observer sees when the check rings by time match: the
    ringing flag goes from false to true while the alarm is not snoozed
    (the snooze branch rings only a snoozed alarm). *)
Definition rang_by_time_match (before after : World) : bool :=
  negb (isRinging before) && negb (snoozed (alarm before)) && isRinging after.

(** What an observer sees when the check takes the time-match branch: the
    ringing flag goes from false to true and [snoozed] is as it was. The
    other ringing branch, the expiry of a snooze, calls [setAlarm] and turns
    [snoozed] from true to false. *)
Definition fired_by_time_match (before after : World) : bool :=
  negb (isRinging before) && isRinging after
  && Bool.eqb (snoozed (alarm after)) (snoozed (alarm before)).

(** Run the inputs in order and collect the dates at which the check rang
    by time match; the run ends when an effect raises. *)
Fixpoint time_match_firings (inputs : list Input) (w : World) : list Z :=
  match inputs with
  | [] => []
  | i :: rest =>
      let before := snd (handle (event i) w) in
      let after := snd (step i w) in
      let fired := if fired_by_time_match before after
                   then [currentTime before] else [] in
      match fst (step i w) with
      | Normal _ => (fired ++ time_match_firings rest after)%list
      | _ => fired
      end
  end.

(** The inputs of a clock sequence: ticks, and the two answers to a
    ringing alarm. *)
Definition clock_or_answer (i : Input) : bool :=
  match event i with
  | Tick _ | ClickSnooze _ | ClickDismiss => true
  | ClickToggle | ChangeTime _ => false
  end.

(** The local calendar day of a date. *)
Definition local_day (d : Z) : Z := Day (LocalTime d).

(** A sequence of ticks, each with what its alarm check reads from the
    host: the audio context on offer, the new date, and [Date.now()]. *)
Fixpoint run_ticks (ticks : list (option AudioContext * Z * Z)) (w : World)
  : World :=
  match ticks with
  | [] => w
  | (ctx, date, dateNow) :: rest => run_ticks rest (snd (tick ctx date dateNow w))
  end.

(** The snooze branch is due: an enabled, silent, snoozed alarm whose
    [snoozeUntil] is a truthy number that [dateNow] has reached. *)
Definition snooze_expired (dateNow : Z) (w : World) : Prop :=
  truthy (enabled (alarm w)) = true /\ isRinging w = false
  /\ snoozed (alarm w) = true
  /\ exists u, snoozeUntil (alarm w) = Some u /\ u <> 0 /\ u <= dateNow.
End Component.

(** ** The answers of the time-remaining query, in the spec's words *)

(** A well-formed configured time "HH:MM". *)
Definition hhmm (h m : Z) : string :=
  (padStart (String_of_Z h) 2 "0" ++ ":" ++ padStart (String_of_Z m) 2 "0")%string.

(** The zero-padded "HH:MM" written out: two decimal digits, a colon, two
    decimal digits. *)
Definition digit (n : Z) : ascii := ascii_of_nat (48 + Z.to_nat n).
Definition two_digits (n : Z) : string :=
  String (digit (n / 10)) (String (digit (n mod 10)) "").
Definition HH_MM (h m : Z) : string :=
  (two_digits h ++ ":" ++ two_digits m)%string.

(** The largest time value of a [Date]. *)
Definition MAX_TIME : Z := 8640000000000000.

Definition snooze_text (mins : Z) : string :=
  ("Snooze: " ++ String_of_Z mins ++ "m")%string.

(** Hours and minutes until the alarm; the hours are left out when zero. *)
Definition remaining_text (hours minutes : Z) : string :=
  if 0 <? hours
  then ("in " ++ String_of_Z hours ++ "h " ++ String_of_Z minutes ++ "m")%string
  else ("in " ++ String_of_Z minutes ++ "m")%string.

Section NextOccurrence.
Context `{Host}.

(** [T] is the next future occurrence of the local time [h]:[m]:00.000
    after [now]: strictly later, at most a day later, at that time of
    day. *)
Definition next_occurrence (now h m T : Z) : Prop :=
  now < T <= now + msPerDay
  /\ TimeWithinDay (LocalTime T) = MakeTime h m 0 0.

(** The alarm is snoozed and [snoozeUntil] lies strictly after [dateNow]. *)
Definition actively_snoozed (dateNow : Z) (a : AlarmState) : Prop :=
  snoozed a = true /\ exists u, snoozeUntil a = Some u /\ dateNow < u.

(** The zone keeps one offset from the instant [a] to the instant [b]: the
    offset at each of these instants, and the offset with which the local
    time that each of them shows is read back. *)
Definition steady_zone (a b : Z) : Prop :=
  exists z, forall t, a <= t <= b ->
    LocalTZA t true = z /\ LocalTZA (t + z) false = z.

(** The instant that the zone gives to the time of day [h]:[m]:00.000 on
    the local calendar day of [now]. *)
Definition today_at (now h m : Z) : Z :=
  UTC (MakeDate (Day (LocalTime now)) (MakeTime h m 0 0)).

(** The instant that the zone gives to the local time that [t] shows, one
    calendar day later. *)
Definition a_day_later (t : Z) : Z := UTC (LocalTime t + msPerDay).

(** The instant that the time-remaining text counts down to: the
    configured time of day today if that instant is still ahead, and
    otherwise the same local time one calendar day after it. *)
Definition calendar_target (now h m : Z) : Z :=
  if now <? today_at now h m then today_at now h m
  else a_day_later (today_at now h m).
End NextOccurrence.

(** ** Invariants used below *)

Section Invariants.
Context `{Host}.

(** A world in which the time-match branch cannot run: the alarm rings,
    is snoozed, or is disabled. *)
Definition spent (w : World) : Prop :=
  isRinging w = true \/ snoozed (alarm w) = true
  \/ truthy (enabled (alarm w)) = false.

(** The configuration has the declared types and the stored item is its
    serialisation. *)
Definition typed_saved (w : World) : Prop :=
  exists (t : string) (e : bool),
    time (alarm w) = JStr t /\ enabled (alarm w) = JBool e
    /\ storage w = Some (saved_text t e).
End Invariants.

(** ** A concrete host and concrete worlds

    A browser in the UTC zone whose audio nodes carry no data, and a
    component armed for 07:00 on 2024-01-01. *)

Definition utcHost : Host :=
  {| LocalTZA := fun _ _ => 0;
     AudioContext := unit;
     OscillatorNode := unit;
     GainNode := unit;
     createOscillator := fun _ => tt;
     createGain := fun _ => tt |}.

(** What [new AudioContext()] yields on this host: a context, or nothing
    when the audio subsystem is unavailable. *)
Definition audio_ok : option (@AudioContext utcHost) := Some tt.
Definition audio_unavailable : option (@AudioContext utcHost) := None.

Definition date_2024_01_01 (h m s : Z) : Z :=
  1704067200000 + MakeTime h m s 0.

Definition armed_0700 (date : Z) : @World utcHost :=
  @mkWorld utcHost date (mkAlarm (JStr "07:00") (JBool true) false None [])
    false None None None (Some (js "{'time':'07:00','enabled':true}")).

(** A browser in the zone of New York in 2024: five hours behind UTC,
    and four hours behind between 2024-03-10 07:00 UTC, when the local
    clock goes from 02:00 to 03:00, and 2024-11-03 06:00 UTC, when it goes
    from 02:00 back to 01:00. A local time is read with the offset before
    the transition when the transition skips or repeats it. *)
Definition spring_forward_2024 : Z := 1710054000000.
Definition fall_back_2024 : Z := 1730613600000.

Definition easternTZA (t : Z) (isUTC : bool) : Z :=
  if isUTC then
    if t <? spring_forward_2024 then - 5 * msPerHour
    else if t <? fall_back_2024 then - 4 * msPerHour
    else - 5 * msPerHour
  else
    if t <? spring_forward_2024 - 4 * msPerHour then - 5 * msPerHour
    else if t <? fall_back_2024 - 4 * msPerHour then - 4 * msPerHour
    else - 5 * msPerHour.

Definition easternHost : Host :=
  {| LocalTZA := easternTZA;
     AudioContext := unit;
     OscillatorNode := unit;
     GainNode := unit;
     createOscillator := fun _ => tt;
     createGain := fun _ => tt |}.

Definition eastern_audio : option (@AudioContext easternHost) := Some tt.

(** A component on that host, armed for the time [t] and rendered at the
    date [date]. *)
Definition armed_eastern (t : string) (date : Z) : @World easternHost :=
  @mkWorld easternHost date (mkAlarm (JStr t) (JBool true) false None [])
    false None None None None.

(** ** Further parts of the component *)

(** The object that [formatTime] returns. *)
Record TimeDisplay : Type := mkTimeDisplay {
  hours : string;
  minutes : string;
  ampm : string
}.

Section Display.
Context `{Host}.

(** [formatTime]: the 12-hour clock face. [hours % 12 || 12] is 12 when
    the remainder is the falsy 0. *)
Definition formatTime (date : Z) : TimeDisplay :=
  let hours := getHours date in
  let minutes := getMinutes date in
  let ampm := if hours >=? 12 then "PM" else "AM" in
  let displayHours := if Z.rem hours 12 =? 0 then 12 else Z.rem hours 12 in
  mkTimeDisplay (padStart (String_of_Z displayHours) 2 "0")
    (padStart (String_of_Z minutes) 2 "0") ampm.

(** The local time of day of [date] lies in the first second of the
    minute [h]:[m]. *)
Definition in_window (h m date : Z) : bool :=
  (MakeTime h m 0 0 <=? TimeWithinDay (LocalTime date))
  && (TimeWithinDay (LocalTime date) <? MakeTime h m 0 0 + msPerSecond).

(** The worlds of a component none of whose effects has raised: first
    run, events and reloads, each completing normally. *)
Inductive running : World -> Prop :=
| run_first (date dateNow : Z) (ctx : option AudioContext) (w0 : World) :
    initialWorld None date = Normal w0 ->
    fst (mountEffects ctx dateNow w0) = Normal tt ->
    running (snd (mountEffects ctx dateNow w0))
| run_step (i : Input) (w : World) :
    running w -> fst (step i w) = Normal tt -> running (snd (step i w))
| run_reload (date dateNow : Z) (ctx : option AudioContext) (w w0 : World) :
    running w ->
    initialWorld (storage w) date = Normal w0 ->
    fst (mountEffects ctx dateNow w0) = Normal tt ->
    running (snd (mountEffects ctx dateNow w0)).

(** The snooze fields go together, and a ringing alarm is not snoozed. *)
Definition snooze_consistent (w : World) : Prop :=
  (snoozed (alarm w) = true <-> snoozeUntil (alarm w) <> None)
  /\ (isRinging w = true -> snoozed (alarm w) = false).

(** The three audio refs are set together, and only while the alarm
    rings. *)
Definition sound_consistent (w : World) : Prop :=
  (audioContextRef w = None <-> oscillatorRef w = None)
  /\ (audioContextRef w = None <-> gainRef w = None)
  /\ (audioContextRef w <> None -> isRinging w = true).
End Display.

(** A configured time of the form "HH:MM" with an hour below 24 and a
    minute below 60. *)
Definition well_formed_time (v : JSValue) : Prop :=
  exists h m, 0 <= h < 24 /\ 0 <= m < 60 /\ v = JStr (hhmm h m).

(** The values that spread to no property: numbers, booleans and [null]. *)
Definition primitive_payload (v : JSValue) : bool :=
  match v with
  | JNull | JBool _ | JNum _ => true
  | JUndefined | JStr _ | JArr _ | JObj _ => false
  end.

(** * Properties *)

(** ** Evaluations of the built-ins *)
Example String_of_Z_7 : String_of_Z 7 = "7".
Proof. reflexivity. Qed.

Example padStart_7 : padStart (String_of_Z 7) 2 "0" = "07".
Proof. reflexivity. Qed.

Example split_0730 : split ":" "07:30" = ["07"; "30"].
Proof. reflexivity. Qed.

Example Number_07 : Number "07" = Normal (Some 7).
Proof. reflexivity. Qed.

Example parse_saved :
  JSON_parse (js "{'time':'07:00','enabled':false}")
  = Normal (JObj [("time", JStr "07:00"); ("enabled", JBool false)]).
Proof. reflexivity. Qed.

Example parse_bad : JSON_parse "{bad json" = Throw SyntaxError.
Proof. reflexivity. Qed.

Example parse_nested :
  JSON_parse (js " { 'b' : [1, -2, {'x': null}], '1': 'q\n', '0': true, 'b': [] } ")
  = Normal (JObj [("0", JBool true); ("1", JStr (String "q" (String "010" "")));
                  ("b", JArr [])]).
Proof. vm_compute. reflexivity. Qed.

Example parse_trailing_comma : JSON_parse "[1,]" = Throw SyntaxError.
Proof. reflexivity. Qed.

Example parse_leading_zero : JSON_parse "01" = Throw SyntaxError.
Proof. reflexivity. Qed.

Example parse_fraction : JSON_parse "1.5" = Unmodelled.
Proof. reflexivity. Qed.

Example stringify_saved :
  JSON_stringify (JObj [("time", JStr "07:00"); ("enabled", JBool false)])
  = Some (js "{'time':'07:00','enabled':false}").
Proof. reflexivity. Qed.

Example stringify_undefined_dropped :
  JSON_stringify (JObj [("time", JUndefined); ("enabled", JBool true)])
  = Some (js "{'enabled':true}").
Proof. reflexivity. Qed.


(** ** Evaluations of the component *)

(** The 07:00:00 tick rings the armed alarm and starts the sound. *)
Example tick_0700_rings :
  let w := snd (tick audio_ok (date_2024_01_01 7 0 0) (date_2024_01_01 7 0 0)
                  (armed_0700 (date_2024_01_01 6 59 59))) in
  isRinging w = true /\ oscillatorRef w = Some tt.
Proof. split; reflexivity. Qed.

(** A tick at 07:00:01 does not: the seconds are not 0. *)
Example tick_0700_01_silent :
  isRinging (snd (tick audio_ok (date_2024_01_01 7 0 1) (date_2024_01_01 7 0 1)
                    (armed_0700 (date_2024_01_01 6 59 59)))) = false.
Proof. reflexivity. Qed.

(** Re-arming is a new arming: after a dismissal, the toggle within the
    same second lets the check ring again on the stored date. *)
Example toggle_rearms_within_the_second :
  let d := date_2024_01_01 7 0 0 in
  time_match_firings
    [mkInput (Tick d) d audio_ok;
     mkInput ClickDismiss (d + 100) audio_ok;
     mkInput ClickToggle (d + 200) audio_ok]
    (armed_0700 (date_2024_01_01 6 59 59))
  = [d; d].
Proof. reflexivity. Qed.

(** A cleared time input: the minutes are [undefined], the date is invalid
    and the text shows [NaN]. *)
Example time_remaining_empty_time :
  fst (getTimeUntilAlarm (date_2024_01_01 6 0 0)
         (mkWorld (H:=utcHost) (date_2024_01_01 6 0 0)
            (mkAlarm (JStr "") (JBool true) false None [])
            false None None None None))
  = Normal (Some "in NaNm").
Proof. reflexivity. Qed.

(** In New York, from 07:00 on 2024-11-02 to 07:00 on the next day, when
    the clock has gone back an hour, 25 hours pass. *)
Example time_remaining_across_fall_back :
  let now := fall_back_2024 - 19 * msPerHour in
  getHours (H:=easternHost) now = 7
  /\ fst (getTimeUntilAlarm now (armed_eastern "07:00" now))
     = Normal (Some "in 25h 0m").
Proof. cbn zeta. split; vm_compute; reflexivity. Qed.

(** A configured time that the clock skips: in New York 02:30 does not
    exist on 2024-03-10. At 01:00 the query counts down to 03:30, the
    instant that [setHours] gives to 02:30, and the tick at that instant
    does not ring. *)
Example time_remaining_skipped_time :
  let now := spring_forward_2024 - msPerHour in
  let w := armed_eastern "02:30" now in
  getHours (H:=easternHost) now = 1
  /\ fst (getTimeUntilAlarm now w) = Normal (Some "in 1h 30m")
  /\ getHours (H:=easternHost) (now + 90 * msPerMinute) = 3
  /\ isRinging (snd (tick eastern_audio (now + 90 * msPerMinute)
                       (now + 90 * msPerMinute) w)) = false.
Proof. cbn zeta. repeat split; vm_compute; reflexivity. Qed.

(** Exactly at the configured time the next occurrence is a day away. *)
Example time_remaining_at_alarm_time :
  fst (getTimeUntilAlarm (date_2024_01_01 7 0 0)
         (armed_0700 (date_2024_01_01 7 0 0)))
  = Normal (Some "in 24h 0m").
Proof. reflexivity. Qed.

(** ** Handlers and effects as equations on worlds *)

(** Case analysis on the first test in the goal. *)
Ltac case_if :=
  match goal with |- context [if ?b then _ else _] => destruct b end.

Lemma same_value_refl : forall v, same_value v v = true.
Proof.
  fix IH 1. intros [ | | b | n | s | l | l]; cbn; try reflexivity.
  - apply Bool.eqb_reflx.
  - apply Z.eqb_refl.
  - apply String.eqb_refl.
  - induction l as [|x xs IHl]; [reflexivity|]. rewrite IH, IHl. reflexivity.
  - induction l as [|[k x] xs IHl]; [reflexivity|].
    rewrite String.eqb_refl, IH, IHl. reflexivity.
Qed.

Section HandlerFacts.
Context `{Host}.

Lemma stopAlarmSound_eq (w : World) :
  stopAlarmSound w =
  (Normal tt, mkWorld (currentTime w) (alarm w) (isRinging w) None None None
                (storage w)).
Proof.
  unfold stopAlarmSound. destruct w as [ct a r c o g s]; cbn.
  destruct o, c; reflexivity.
Qed.

Lemma handleDismiss_eq (w : World) :
  handleDismiss w =
  (Normal tt, mkWorld (currentTime w)
     (mkAlarm (time (alarm w)) (JBool false) false None (others (alarm w)))
     false None None None (storage w)).
Proof.
  unfold handleDismiss, stopAlarmSound. destruct w as [ct a r c o g s]; cbn.
  destruct o, c; reflexivity.
Qed.

Lemma handleSnooze_eq (dateNow : Z) (w : World) :
  handleSnooze dateNow w =
  (Normal tt, mkWorld (currentTime w)
     (mkAlarm (time (alarm w)) (enabled (alarm w)) true
        (Some (dateNow + SNOOZE_DURATION)) (others (alarm w)))
     false None None None (storage w)).
Proof.
  unfold handleSnooze, stopAlarmSound. destruct w as [ct a r c o g s]; cbn.
  destruct o, c; reflexivity.
Qed.

Lemma startAlarmSound_active ctx (w : World) :
  audioContextRef w <> None -> startAlarmSound ctx w = (Normal tt, w).
Proof.
  intros Hc. unfold startAlarmSound. cbn.
  destruct (audioContextRef w); [reflexivity | contradiction].
Qed.

Lemma startAlarmSound_new (c : AudioContext) (w : World) :
  audioContextRef w = None ->
  startAlarmSound (Some c) w =
  (Normal tt, mkWorld (currentTime w) (alarm w) (isRinging w) (Some c)
                (Some (createOscillator c)) (Some (createGain c)) (storage w)).
Proof.
  intros Hc. unfold startAlarmSound. cbn. rewrite Hc. reflexivity.
Qed.

Lemma startAlarmSound_unavailable (w : World) :
  audioContextRef w = None ->
  startAlarmSound None w = (Throw AudioUnavailable, w).
Proof.
  intros Hc. unfold startAlarmSound. cbn. rewrite Hc. reflexivity.
Qed.

(** Starting the sound touches the refs only. *)
Lemma startAlarmSound_state ctx (w : World) :
  let w' := snd (startAlarmSound ctx w) in
  currentTime w' = currentTime w /\ alarm w' = alarm w
  /\ isRinging w' = isRinging w /\ storage w' = storage w.
Proof.
  unfold startAlarmSound. cbn.
  destruct (audioContextRef w), ctx; cbn; auto.
Qed.

Lemma handler_normal (ev : Event) (w : World) : fst (handler ev w) = Normal tt.
Proof.
  destruct ev; cbn -[handleSnooze handleDismiss]; try reflexivity.
  - rewrite handleSnooze_eq. reflexivity.
  - rewrite handleDismiss_eq. reflexivity.
Qed.

Lemma handle_rendered (ev : Event) (w : World) :
  rendered ev w = true -> handle ev w = handler ev w.
Proof.
  intros Hr. unfold handle, read. cbn [bind ret Monad_M]. rewrite Hr.
  reflexivity.
Qed.

Lemma handle_not_rendered (ev : Event) (w : World) :
  rendered ev w = false -> handle ev w = (Normal tt, w).
Proof.
  intros Hr. unfold handle, read. cbn [bind ret Monad_M]. rewrite Hr.
  reflexivity.
Qed.

Lemma step_not_rendered (i : Input) (w : World) :
  rendered (event i) w = false -> step i w = (Normal tt, w).
Proof. intros Hr. unfold step, read. cbn [bind ret Monad_M]. rewrite Hr. reflexivity. Qed.

(** The alarm check neither reads nor writes the stored item. *)
Lemma checkAlarm_storage ctx n s (w : World) :
  checkAlarm ctx n (snd (setItem s w)) =
  (fst (checkAlarm ctx n w), snd (setItem s (snd (checkAlarm ctx n w)))).
Proof.
  destruct w as [ct a r c o g st]. unfold checkAlarm, startAlarmSound. cbn.
  destruct (negb (truthy (enabled a)) || r); cbn; [reflexivity|].
  destruct (snoozed a && truthy_num (snoozeUntil a)); cbn.
  - destruct (snoozeUntil a); cbn; [|reflexivity].
    destruct (n >=? z); cbn; [|reflexivity].
    destruct c, ctx; reflexivity.
  - case_if;
      cbn; [|reflexivity].
    destruct c, ctx; reflexivity.
Qed.

(** A step on screen is its handler, a write of the stored item when
    [time] or [enabled] changed, and the alarm check. *)
Lemma step_eq_explicit (i : Input) (w : World) :
  rendered (event i) w = true ->
  let w1 := snd (handler (event i) w) in
  step i w =
    checkAlarm (newAudioContext i) (effectNow i)
      (snd (setItem
              (if same_value (time (alarm w)) (time (alarm w1))
                  && same_value (enabled (alarm w)) (enabled (alarm w1))
               then storage w1 else savedItem (alarm w1)) w1)).
Proof.
  intros Hr. cbn zeta. unfold step, read. cbn [bind ret Monad_M]. rewrite Hr.
  pose proof (handler_normal (event i) w) as Hn.
  destruct (handler (event i) w) as [r w1]. cbn [fst] in Hn. subst r.
  cbn [snd].
  case_if.
  - cbn [ret Monad_M]. destruct w1; reflexivity.
  - reflexivity.
Qed.

Lemma step_eq (i : Input) (w : World) :
  rendered (event i) w = true ->
  exists s, step i w =
    checkAlarm (newAudioContext i) (effectNow i)
      (snd (setItem s (snd (handle (event i) w)))).
Proof.
  intros Hr. eexists. rewrite (handle_rendered _ _ Hr).
  apply (step_eq_explicit i w Hr).
Qed.

(** A tick changes neither [time] nor [enabled], so nothing is saved. *)
Lemma tick_eq ctx (date dateNow : Z) (w : World) :
  tick ctx date dateNow w = checkAlarm ctx dateNow (snd (setCurrentTime date w)).
Proof.
  unfold tick. rewrite step_eq_explicit by reflexivity.
  cbn [event handler newAudioContext effectNow].
  cbn [setCurrentTime snd alarm]. rewrite !same_value_refl. reflexivity.
Qed.

Lemma checkAlarm_idle ctx n (w : World) :
  truthy (enabled (alarm w)) = false \/ isRinging w = true ->
  checkAlarm ctx n w = (Normal tt, w).
Proof.
  intros Hi. unfold checkAlarm. cbn.
  destruct Hi as [-> | ->]; cbn; [reflexivity|].
  rewrite orb_true_r. reflexivity.
Qed.

Lemma checkAlarm_time_match ctx n (w : World) :
  time_match_condition w = true ->
  checkAlarm ctx n w = startAlarmSound ctx (snd (setIsRinging true w)).
Proof.
  unfold time_match_condition. intros Hc.
  repeat (apply andb_true_iff in Hc; destruct Hc as [Hc ?]).
  unfold checkAlarm. cbn -[currentTimeStr getSeconds startAlarmSound].
  destruct (isRinging w); [discriminate|].
  destruct (snoozed (alarm w)); [discriminate|].
  rewrite Hc. cbn -[currentTimeStr getSeconds startAlarmSound].
  match goal with Hs : strict_eq_string _ _ = true |- _ => rewrite Hs end.
  match goal with Hs : (_ =? 0) = true |- _ => rewrite Hs end.
  reflexivity.
Qed.

Lemma checkAlarm_no_match ctx n (w : World) :
  snoozed (alarm w) = false ->
  time_match_condition w = false ->
  checkAlarm ctx n w = (Normal tt, w).
Proof.
  unfold time_match_condition. intros Hs Hc. rewrite Hs in Hc.
  unfold checkAlarm. cbn -[currentTimeStr getSeconds]. rewrite Hs.
  cbn -[currentTimeStr getSeconds].
  destruct (truthy (enabled (alarm w)));
    cbn -[currentTimeStr getSeconds] in *; [|reflexivity].
  destruct (isRinging w); cbn -[currentTimeStr getSeconds] in *; [reflexivity|].
  rewrite andb_true_r. rewrite Hc. reflexivity.
Qed.

(** While snoozed, the check waits for [snoozeUntil]. *)
Lemma checkAlarm_snoozed_waits ctx n (w : World) :
  snoozed (alarm w) = true ->
  (forall u, snoozeUntil (alarm w) = Some u -> n < u) ->
  checkAlarm ctx n w = (Normal tt, w).
Proof.
  intros Hs Hu. unfold checkAlarm. cbn -[currentTimeStr getSeconds]. rewrite Hs.
  destruct (negb (truthy (enabled (alarm w))) || isRinging w); [reflexivity|].
  destruct (snoozeUntil (alarm w)) as [u|]; cbn -[currentTimeStr getSeconds];
    [|rewrite andb_false_r; reflexivity].
  specialize (Hu u eq_refl).
  destruct (negb (u =? 0)); cbn -[currentTimeStr getSeconds].
  - destruct (Z.geb_spec n u); [lia | reflexivity].
  - rewrite andb_false_r. reflexivity.
Qed.

Lemma checkAlarm_snooze_expired ctx n u (w : World) :
  truthy (enabled (alarm w)) = true -> isRinging w = false ->
  snoozed (alarm w) = true -> snoozeUntil (alarm w) = Some u ->
  u <> 0 -> u <= n ->
  checkAlarm ctx n w =
  startAlarmSound ctx
    (mkWorld (currentTime w)
       (mkAlarm (time (alarm w)) (enabled (alarm w)) false None (others (alarm w)))
       true (audioContextRef w) (oscillatorRef w) (gainRef w) (storage w)).
Proof.
  intros He Hr Hs Hu Hz Hle. unfold checkAlarm. cbn.
  rewrite He, Hr, Hs, Hu. cbn.
  destruct (Z.eqb_spec u 0); [contradiction|]. cbn.
  destruct (Z.geb_spec n u); [reflexivity | lia].
Qed.
End HandlerFacts.

(** ** Dismiss and snooze *)

(** C5: for every prior state, after [handleDismiss] the alarm is disabled,
    both snooze fields are cleared, the ringing flag is false and the sound
    controller holds no session; a second dismiss changes nothing. *)
Theorem dismiss_always_disables `{Host} (w : World) :
  let w1 := snd (handleDismiss w) in
  fst (handleDismiss w) = Normal tt
  /\ enabled (alarm w1) = JBool false
  /\ snoozed (alarm w1) = false
  /\ snoozeUntil (alarm w1) = None
  /\ isRinging w1 = false
  /\ audioContextRef w1 = None /\ oscillatorRef w1 = None /\ gainRef w1 = None
  /\ snd (handleDismiss w1) = w1.
Proof.
  cbn zeta. rewrite !handleDismiss_eq. cbn. repeat split.
Qed.

Section DismissSnooze.
Context `{Host}.


End DismissSnooze.



(** ** The time-match branch of the alarm check *)

Example HH_MM_0705 : HH_MM 7 5 = "07:05".
Proof. reflexivity. Qed.

Lemma pad2_digits_below :
  forallb (fun n =>
    String.eqb (padStart (String_of_Z (Z.of_nat n)) 2 "0")
      (two_digits (Z.of_nat n))) (seq 0 60) = true.
Proof. vm_compute. reflexivity. Qed.

(** [String(n).padStart(2, '0')] of a number below 60 is its two decimal
    digits. *)
Lemma pad2_digits (z : Z) :
  0 <= z < 60 -> padStart (String_of_Z z) 2 "0" = two_digits z.
Proof.
  intros Hz. pose proof pad2_digits_below as Hall.
  rewrite forallb_forall in Hall.
  specialize (Hall (Z.to_nat z)). rewrite in_seq in Hall.
  specialize (Hall ltac:(lia)). rewrite Z2Nat.id in Hall by lia.
  apply String.eqb_eq. exact Hall.
Qed.

Section TimeMatch.
Context `{Host}.

Lemma getHours_range (d : Z) : 0 <= getHours d < 24.
Proof. unfold getHours, HourFromTime. apply Z.mod_pos_bound. lia. Qed.

Lemma getMinutes_range (d : Z) : 0 <= getMinutes d < 60.
Proof. unfold getMinutes, MinFromTime. apply Z.mod_pos_bound. lia. Qed.

(** The string that the check formats is the zero-padded hour and minute
    of the local time. *)
Lemma currentTimeStr_digits (d : Z) :
  currentTimeStr d = HH_MM (getHours d) (getMinutes d).
Proof.
  unfold currentTimeStr, HH_MM.
  pose proof (getHours_range d). pose proof (getMinutes_range d).
  rewrite !pad2_digits by lia. reflexivity.
Qed.

Lemma rang_by_time_match_same (w : World) : rang_by_time_match w w = false.
Proof.
  unfold rang_by_time_match. destruct (isRinging w); cbn;
    [reflexivity | apply andb_false_r].
Qed.

(** The check rings by time match exactly under the condition. *)
Lemma checkAlarm_rang_iff ctx n (w : World) :
  rang_by_time_match w (snd (checkAlarm ctx n w)) = true
  <-> time_match_condition w = true.
Proof.
  split.
  - intros Hr. destruct (time_match_condition w) eqn:Hc; [reflexivity|].
    unfold rang_by_time_match in Hr.
    apply andb_true_iff in Hr. destruct Hr as [Hr Hafter].
    apply andb_true_iff in Hr. destruct Hr as [Hb Hs].
    apply negb_true_iff in Hs.
    rewrite (checkAlarm_no_match ctx n w Hs Hc) in Hafter.
    cbn [snd] in Hafter. rewrite Hafter in Hb. discriminate Hb.
  - intros Hc. rewrite (checkAlarm_time_match ctx n w Hc).
    destruct (startAlarmSound_state ctx (snd (setIsRinging true w)))
      as (_ & _ & Hr & _).
    unfold time_match_condition in Hc.
    repeat (apply andb_true_iff in Hc; destruct Hc as [Hc ?]).
    unfold rang_by_time_match. rewrite Hr. cbn.
    rewrite andb_true_r. apply andb_true_iff. split; assumption.
Qed.

Lemma spent_checkAlarm ctx n (w : World) :
  spent w ->
  spent (snd (checkAlarm ctx n w))
  /\ rang_by_time_match w (snd (checkAlarm ctx n w)) = false.
Proof.
  intros Hsp. split.
  - destruct (isRinging w) eqn:Hr.
    { rewrite checkAlarm_idle by auto. left. exact Hr. }
    destruct (truthy (enabled (alarm w))) eqn:He.
    2:{ rewrite checkAlarm_idle by auto. right. right. exact He. }
    destruct Hsp as [Hsp | [Hs | Hsp]]; [congruence | | congruence].
    destruct (snoozeUntil (alarm w)) as [u|] eqn:Hu.
    + destruct (Z.eq_dec u 0) as [-> | Hz].
      { unfold checkAlarm. cbn -[currentTimeStr getSeconds].
        rewrite He, Hr, Hs, Hu. cbn -[currentTimeStr getSeconds].
        rewrite andb_false_r. right. left. exact Hs. }
      destruct (Z.le_gt_cases u n) as [Hle | Hgt].
      * rewrite (checkAlarm_snooze_expired ctx n u w He Hr Hs Hu Hz Hle).
        left.
        match goal with |- isRinging (snd (startAlarmSound ctx ?w0)) = true =>
          destruct (startAlarmSound_state ctx w0) as (_ & _ & -> & _)
        end. reflexivity.
      * rewrite checkAlarm_snoozed_waits; [right; left; exact Hs | exact Hs |].
        intros u' Hu'. rewrite Hu in Hu'. injection Hu' as <-. lia.
    + rewrite checkAlarm_snoozed_waits; [right; left; exact Hs | exact Hs |].
      intros u' Hu'. rewrite Hu in Hu'. discriminate.
  - destruct (rang_by_time_match w (snd (checkAlarm ctx n w))) eqn:Hrang;
      [|reflexivity].
    apply checkAlarm_rang_iff in Hrang. unfold time_match_condition in Hrang.
    repeat (apply andb_true_iff in Hrang; destruct Hrang as [Hrang ?]).
    destruct Hsp as [Hsp | [Hsp | Hsp]]; rewrite Hsp in *; discriminate.
Qed.

(** On the alarm check the two observations of a time match agree: the
    check never rings a snoozed alarm and leaves [snoozed] set. *)
Lemma fired_checkAlarm ctx n (w : World) :
  fired_by_time_match w (snd (checkAlarm ctx n w))
  = rang_by_time_match w (snd (checkAlarm ctx n w)).
Proof.
  unfold fired_by_time_match, rang_by_time_match.
  destruct (isRinging w) eqn:Hr; [reflexivity|]. cbn [negb andb].
  destruct (snoozed (alarm w)) eqn:Hs; cbn [negb andb].
  - destruct (spent_checkAlarm ctx n w) as [_ Hno]; [right; left; exact Hs|].
    destruct (isRinging (snd (checkAlarm ctx n w))) eqn:Hafter; [|reflexivity].
    cbn [andb].
    destruct (truthy (enabled (alarm w))) eqn:He.
    2:{ rewrite checkAlarm_idle in Hafter by auto. cbn [snd] in Hafter.
        congruence. }
    destruct (snoozeUntil (alarm w)) as [u|] eqn:Hu.
    + destruct (Z.eq_dec u 0) as [-> | Hz].
      { exfalso. revert Hafter. unfold checkAlarm.
        cbn -[currentTimeStr getSeconds].
        rewrite He, Hr, Hs, Hu. cbn -[currentTimeStr getSeconds].
        rewrite andb_false_r. cbn. rewrite Hr. discriminate. }
      destruct (Z.le_gt_cases u n) as [Hle | Hgt].
      * rewrite (checkAlarm_snooze_expired ctx n u w He Hr Hs Hu Hz Hle).
        match goal with |- context [startAlarmSound ctx ?w0] =>
          destruct (startAlarmSound_state ctx w0) as (_ & -> & _ & _)
        end. reflexivity.
      * rewrite checkAlarm_snoozed_waits in Hafter; [cbn [snd] in Hafter; congruence
                                                    | exact Hs |].
        intros u' Hu'. rewrite Hu in Hu'. injection Hu' as <-. lia.
    + rewrite checkAlarm_snoozed_waits in Hafter; [cbn [snd] in Hafter; congruence
                                                  | exact Hs |].
      intros u' Hu'. rewrite Hu in Hu'. discriminate.
  - destruct (time_match_condition w) eqn:Hc.
    + rewrite (checkAlarm_time_match ctx n w Hc).
      destruct (startAlarmSound_state ctx (snd (setIsRinging true w)))
        as (_ & -> & -> & _).
      cbn. rewrite Hs. reflexivity.
    + rewrite (checkAlarm_no_match ctx n w Hs Hc). cbn [snd].
      rewrite Hr, Hs. reflexivity.
Qed.

Lemma spent_handle (i : Input) (w : World) :
  spent w -> clock_or_answer i = true -> spent (snd (handle (event i) w)).
Proof.
  unfold clock_or_answer. intros Hsp Hc.
  destruct (event i); try discriminate; cbn -[handleSnooze handleDismiss].
  - exact Hsp.
  - destruct (isRinging w); [|exact Hsp].
    rewrite handleSnooze_eq. right. left. reflexivity.
  - destruct (isRinging w); [|exact Hsp].
    rewrite handleDismiss_eq. right. right. reflexivity.
Qed.

(** The stored item plays no part in ringing. *)
Lemma rang_by_time_match_setItem s s' (w w' : World) :
  rang_by_time_match (snd (setItem s w)) (snd (setItem s' w'))
  = rang_by_time_match w w'.
Proof. reflexivity. Qed.

Lemma spent_setItem s (w : World) : spent (snd (setItem s w)) <-> spent w.
Proof. reflexivity. Qed.

Lemma spent_step (i : Input) (w : World) :
  spent w -> clock_or_answer i = true ->
  spent (snd (step i w))
  /\ rang_by_time_match (snd (handle (event i) w)) (snd (step i w)) = false.
Proof.
  intros Hsp Hc. destruct (rendered (event i) w) eqn:Hon.
  2:{ rewrite step_not_rendered, handle_not_rendered by exact Hon.
      split; [exact Hsp | apply rang_by_time_match_same]. }
  destruct (step_eq i w Hon) as [s ->].
  rewrite checkAlarm_storage. cbn [snd].
  pose proof (spent_handle i w Hsp Hc) as H1.
  destruct (spent_checkAlarm (newAudioContext i) (effectNow i) _ H1) as [H2 H3].
  split.
  - apply spent_setItem. exact H2.
  - rewrite <- H3. reflexivity.
Qed.

(** The two observations agree on every step. *)
Lemma fired_step (i : Input) (w : World) :
  fired_by_time_match (snd (handle (event i) w)) (snd (step i w))
  = rang_by_time_match (snd (handle (event i) w)) (snd (step i w)).
Proof.
  destruct (rendered (event i) w) eqn:Hon.
  2:{ rewrite step_not_rendered, handle_not_rendered by exact Hon. cbn [snd].
      unfold fired_by_time_match, rang_by_time_match.
      destruct (isRinging w), (snoozed (alarm w)); reflexivity. }
  destruct (step_eq i w Hon) as [s ->].
  rewrite checkAlarm_storage. cbn [snd].
  exact (fired_checkAlarm (newAudioContext i) (effectNow i)
           (snd (handle (event i) w))).
Qed.

Lemma rang_spent (before after : World) :
  rang_by_time_match before after = true -> spent after.
Proof.
  unfold rang_by_time_match. intros Hr.
  apply andb_true_iff in Hr. destruct Hr as [_ Hr]. left. exact Hr.
Qed.

Lemma firings_spent (inputs : list Input) :
  forall w : World,
    spent w -> forallb clock_or_answer inputs = true ->
    time_match_firings inputs w = [].
Proof.
  induction inputs as [|i rest IH]; intros w Hsp Hall; [reflexivity|].
  cbn [forallb] in Hall. apply andb_true_iff in Hall. destruct Hall as [Hi Hall].
  destruct (spent_step i w Hsp Hi) as [Hsp' Hno].
  cbn [time_match_firings]. rewrite fired_step, Hno.
  destruct (fst (step i w)); [|reflexivity..].
  cbn. apply IH; assumption.
Qed.

Lemma firings_at_most_once (inputs : list Input) :
  forall w : World,
    forallb clock_or_answer inputs = true ->
    (length (time_match_firings inputs w) <= 1)%nat.
Proof.
  induction inputs as [|i rest IH]; intros w Hall; [cbn; lia|].
  cbn [forallb] in Hall. apply andb_true_iff in Hall. destruct Hall as [Hi Hall].
  cbn [time_match_firings]. rewrite fired_step.
  destruct (rang_by_time_match (snd (handle (event i) w)) (snd (step i w)))
    eqn:Hrang.
  - apply rang_spent in Hrang.
    destruct (fst (step i w)); [|cbn; lia..].
    rewrite (firings_spent rest _ Hrang Hall). cbn. lia.
  - destruct (fst (step i w)); [|cbn; lia..].
    cbn. apply IH. exact Hall.
Qed.
End TimeMatch.

(** C1: a tick fires the alarm by time match (the ringing flag goes from
    false to true with [snoozed] as it was) exactly when the alarm is
    enabled, not ringing and not snoozed, the configured time is the
    zero-padded "HH:MM" of the hour and minute of the local time of the new
    date, and its seconds are 0. On that tick the ringing flag is set and
    [startAlarmSound] runs (and leaves a sound session when the host yields
    an audio context); on every other tick of an alarm that is not snoozed
    nothing but the stored date changes. Hence, over any sequence of ticks,
    snoozes and dismissals, the alarm fires by time match at most once, and
    so at most once on any local day. *)
Theorem tick_fires_by_time_match `{Host}
  (ctx : option AudioContext) (date dateNow : Z) (w : World) :
  let before := snd (setCurrentTime date w) in
  let after := snd (tick ctx date dateNow w) in
  (fired_by_time_match before after = true <->
     truthy (enabled (alarm w)) = true /\ isRinging w = false
     /\ snoozed (alarm w) = false
     /\ time (alarm w) = JStr (HH_MM (getHours date) (getMinutes date))
     /\ getSeconds date = 0)
  /\ (fired_by_time_match before after = true ->
        tick ctx date dateNow w = startAlarmSound ctx (snd (setIsRinging true before))
        /\ isRinging after = true
        /\ alarm after = alarm w
        /\ (audioContextRef w <> None -> after = snd (setIsRinging true before))
        /\ (forall c, audioContextRef w = None -> ctx = Some c ->
              fst (tick ctx date dateNow w) = Normal tt
              /\ audioContextRef after = Some c
              /\ oscillatorRef after = Some (createOscillator c)
              /\ gainRef after = Some (createGain c)))
  /\ (snoozed (alarm w) = false ->
      fired_by_time_match before after = false ->
        tick ctx date dateNow w = (Normal tt, before))
  /\ (forall (inputs : list Input) (w0 : World),
        forallb clock_or_answer inputs = true ->
        (length (time_match_firings inputs w0) <= 1)%nat
        /\ forall day : Z,
             (length (filter (fun d => (local_day d =? day)%Z)
                        (time_match_firings inputs w0)) <= 1)%nat).
Proof.
  cbn zeta. rewrite tick_eq.
  set (before := snd (setCurrentTime date w)).
  rewrite fired_checkAlarm.
  assert (Hcond : time_match_condition before = true <->
                  truthy (enabled (alarm w)) = true /\ isRinging w = false
                  /\ snoozed (alarm w) = false
                  /\ time (alarm w) = JStr (HH_MM (getHours date) (getMinutes date))
                  /\ getSeconds date = 0).
  { unfold time_match_condition, before. cbn -[currentTimeStr getSeconds].
    rewrite currentTimeStr_digits.
    rewrite !andb_true_iff, !negb_true_iff, Z.eqb_eq.
    unfold strict_eq_string.
    destruct (time (alarm w)) as [ | | b | n | s | l | l];
      try (split; [intros [[[[_ _] _] E] _] | intros (_ & _ & _ & E & _)];
           discriminate E).
    rewrite String.eqb_eq. split.
    - intros [[[[He Hr] Hs] Ht] Hsec]. subst s. auto.
    - intros (He & Hr & Hs & Ht & Hsec).
      apply (f_equal (fun v => match v with JStr x => x | _ => s end)) in Ht.
      auto. }
  split; [|split; [|split]].
  - rewrite checkAlarm_rang_iff. exact Hcond.
  - intros Hrang. apply checkAlarm_rang_iff in Hrang.
    rewrite (checkAlarm_time_match ctx dateNow before Hrang).
    destruct (startAlarmSound_state ctx (snd (setIsRinging true before)))
      as (_ & Ha & Hr & _).
    split; [reflexivity|]. split; [exact Hr|]. split; [exact Ha|]. split.
    + intros Hc. rewrite startAlarmSound_active; [reflexivity | exact Hc].
    + intros c Hc ->. rewrite startAlarmSound_new by exact Hc.
      cbn. auto.
  - intros Hs Hrang.
    apply checkAlarm_no_match; [exact Hs|].
    destruct (time_match_condition before) eqn:Hc; [|reflexivity].
    apply (checkAlarm_rang_iff ctx dateNow) in Hc. congruence.
  - intros inputs w0 Hall.
    pose proof (firings_at_most_once inputs w0 Hall) as Hlen.
    split; [exact Hlen|]. intros day.
    eapply Nat.le_trans; [apply filter_length_le | exact Hlen].
Qed.

Lemma tick_fires_by_time_match_witness :
  let w := armed_0700 (date_2024_01_01 6 59 58) in
  let d59 := date_2024_01_01 6 59 59 in
  let d00 := date_2024_01_01 7 0 0 in
  let w59 := snd (tick audio_ok d59 d59 w) in
  let w00 := snd (tick audio_ok d00 d00 w59) in
  tick audio_ok d59 d59 w = (Normal tt, snd (setCurrentTime d59 w))
  /\ isRinging w59 = false
  /\ time (alarm w59)
     = JStr (HH_MM (getHours (H:=utcHost) d00) (getMinutes (H:=utcHost) d00))
  /\ getSeconds (H:=utcHost) d00 = 0
  /\ fired_by_time_match (snd (setCurrentTime d00 w59)) w00 = true
  /\ isRinging w00 = true /\ audioContextRef w00 = audio_ok
  /\ (length (time_match_firings
                [mkInput (Tick d59) d59 audio_ok;
                 mkInput (Tick d00) d00 audio_ok;
                 mkInput (ClickSnooze (d00 + 5000)) (d00 + 5000) audio_ok;
                 mkInput (Tick (d00 + 305000)) (d00 + 305000) audio_ok;
                 mkInput ClickDismiss (d00 + 306000) audio_ok] w) <= 1)%nat.
Proof.
  cbn zeta.
  set (w := armed_0700 (date_2024_01_01 6 59 58)).
  set (d59 := date_2024_01_01 6 59 59). set (d00 := date_2024_01_01 7 0 0).
  pose proof (tick_fires_by_time_match audio_ok d59 d59 w) as (_ & _ & Hquiet & _).
  pose proof (tick_fires_by_time_match audio_ok d00 d00
                (snd (tick audio_ok d59 d59 w))) as (Hiff & Hfire & _ & Hrun).
  assert (Hq : tick audio_ok d59 d59 w = (Normal tt, snd (setCurrentTime d59 w)))
    by (apply Hquiet; reflexivity).
  split; [exact Hq|]. split; [rewrite Hq; reflexivity|].
  split; [rewrite Hq; reflexivity|]. split; [reflexivity|].
  assert (Hrang : fired_by_time_match
                    (snd (setCurrentTime d00 (snd (tick audio_ok d59 d59 w))))
                    (snd (tick audio_ok d00 d00 (snd (tick audio_ok d59 d59 w))))
                  = true).
  { apply Hiff. rewrite Hq. repeat split. }
  split; [exact Hrang|].
  destruct (Hfire Hrang) as (_ & Hr & _ & _ & Hnew).
  destruct (Hnew tt) as (_ & Hc & _ & _);
    [rewrite Hq; reflexivity | reflexivity |].
  split; [exact Hr|]. split; [exact Hc|].
  apply Hrun. reflexivity.
Defined.

(** ** Snooze *)

Section Snooze.
Context `{Host}.

Lemma tick_snoozed_waits ctx (date now : Z) (v : World) :
  snoozed (alarm v) = true ->
  (forall u, snoozeUntil (alarm v) = Some u -> now < u) ->
  tick ctx date now v = (Normal tt, snd (setCurrentTime date v)).
Proof.
  intros Hs Hu. rewrite tick_eq.
  apply checkAlarm_snoozed_waits; assumption.
Qed.

(** Ticks before [snoozeUntil] leave a snoozed world as it is, up to the
    stored date. *)
Lemma run_ticks_snoozed_waits (u : Z)
  (waits : list (option AudioContext * Z * Z)) :
  forall v : World,
    snoozed (alarm v) = true -> snoozeUntil (alarm v) = Some u ->
    Forall (fun t => snd t < u) waits ->
    exists d, run_ticks waits v = snd (setCurrentTime d v).
Proof.
  induction waits as [|[[ctx date] now] rest IH]; intros v Hs Hu Hall.
  - exists (currentTime v). destruct v; reflexivity.
  - inversion Hall as [|? ? Hnow Hrest]; subst. cbn [snd] in Hnow.
    cbn [run_ticks]. rewrite tick_snoozed_waits; [|exact Hs|].
    2:{ intros u' Hu'. rewrite Hu in Hu'. injection Hu' as <-. exact Hnow. }
    cbn [snd].
    destruct (IH (snd (setCurrentTime date v)) Hs Hu Hrest) as [d Hd].
    exists d. rewrite Hd. reflexivity.
Qed.

Lemma tick_snooze_expired ctx (date now u : Z) (v : World) :
  truthy (enabled (alarm v)) = true -> isRinging v = false ->
  snoozed (alarm v) = true -> snoozeUntil (alarm v) = Some u ->
  u <> 0 -> u <= now ->
  tick ctx date now v =
  startAlarmSound ctx
    (mkWorld date
       (mkAlarm (time (alarm v)) (enabled (alarm v)) false None (others (alarm v)))
       true (audioContextRef v) (oscillatorRef v) (gainRef v) (storage v)).
Proof.
  intros He Hr Hs Hu Hz Hle. rewrite tick_eq.
  rewrite (checkAlarm_snooze_expired ctx now u); auto.
Qed.
End Snooze.

(** C2: for a clock that is not before the epoch, [handleSnooze] sets
    [snoozed], sets [snoozeUntil] to the time of the snooze plus five
    minutes, clears the ringing flag and leaves no sound session. Every tick
    of a snoozed alarm before [snoozeUntil] changes nothing but the stored
    date, whatever the time of day. After any such ticks, the first tick at
    or after [snoozeUntil] of the enabled alarm clears both snooze fields,
    sets the ringing flag and runs [startAlarmSound], which leaves a new
    session when the host yields an audio context. *)
Theorem snooze_lifecycle `{Host} (w : World) (snoozeTime : Z) :
  0 <= snoozeTime ->
  let w1 := snd (handleSnooze snoozeTime w) in
  let snoozeEnd := snoozeTime + 5 * 60 * 1000 in
  (handleSnooze snoozeTime w = (Normal tt, w1)
   /\ snoozed (alarm w1) = true
   /\ snoozeUntil (alarm w1) = Some snoozeEnd
   /\ isRinging w1 = false
   /\ audioContextRef w1 = None /\ oscillatorRef w1 = None /\ gainRef w1 = None
   /\ time (alarm w1) = time (alarm w) /\ enabled (alarm w1) = enabled (alarm w))
  /\ (forall (v : World) ctx date now,
        snoozed (alarm v) = true ->
        (forall u, snoozeUntil (alarm v) = Some u -> now < u) ->
        tick ctx date now v = (Normal tt, snd (setCurrentTime date v)))
  /\ (forall (waits : list (option AudioContext * Z * Z)) ctx date now,
        Forall (fun t => snd t < snoozeEnd) waits ->
        truthy (enabled (alarm w)) = true ->
        snoozeEnd <= now ->
        let v := run_ticks waits w1 in
        let w2 := snd (tick ctx date now v) in
        (exists d, v = snd (setCurrentTime d w1))
        /\ tick ctx date now v =
           startAlarmSound ctx
             (mkWorld date
                (mkAlarm (time (alarm w)) (enabled (alarm w)) false None
                   (others (alarm w)))
                true None None None (storage w))
        /\ snoozed (alarm w2) = false /\ snoozeUntil (alarm w2) = None
        /\ isRinging w2 = true
        /\ (forall c, ctx = Some c ->
              fst (tick ctx date now v) = Normal tt
              /\ audioContextRef w2 = Some c
              /\ oscillatorRef w2 = Some (createOscillator c)
              /\ gainRef w2 = Some (createGain c))).
Proof.
  intros Hepoch. cbn zeta. rewrite handleSnooze_eq. cbn [snd].
  change (5 * 60 * 1000) with SNOOZE_DURATION.
  assert (Hpos : snoozeTime + SNOOZE_DURATION <> 0)
    by (unfold SNOOZE_DURATION; lia).
  split; [repeat split|]. split; [intros; apply tick_snoozed_waits; assumption|].
  intros waits ctx date now Hall He Hle.
  match goal with |- context [run_ticks waits ?w1] =>
    destruct (run_ticks_snoozed_waits (snoozeTime + SNOOZE_DURATION) waits w1
                eq_refl eq_refl Hall) as [d Hd]
  end.
  rewrite Hd. cbn [snd setCurrentTime].
  split; [exists d; reflexivity|].
  rewrite (tick_snooze_expired ctx date now (snoozeTime + SNOOZE_DURATION))
    by (cbn [alarm enabled isRinging snoozed snoozeUntil]; auto).
  cbn [alarm time enabled others audioContextRef oscillatorRef gainRef storage].
  split; [reflexivity|].
  match goal with |- context [startAlarmSound ctx ?w0] =>
    destruct (startAlarmSound_state ctx w0) as (_ & Ha & Hr & _)
  end.
  rewrite Ha, Hr. cbn [alarm snoozed snoozeUntil isRinging].
  split; [reflexivity|]. split; [reflexivity|]. split; [reflexivity|].
  intros c ->. rewrite startAlarmSound_new by reflexivity. cbn. repeat split.
Qed.

Lemma snooze_lifecycle_witness :
  let ringing :=
    snd (tick audio_ok (date_2024_01_01 7 0 0) (date_2024_01_01 7 0 0)
           (armed_0700 (date_2024_01_01 6 59 59))) in
  let w1 := snd (handleSnooze (date_2024_01_01 7 0 5) ringing) in
  let w2 := snd (tick audio_ok (date_2024_01_01 7 5 5) (date_2024_01_01 7 5 5)
                   (run_ticks [(audio_ok, date_2024_01_01 7 0 6, date_2024_01_01 7 0 6);
                               (audio_ok, date_2024_01_01 7 5 4, date_2024_01_01 7 5 4)]
                      w1)) in
  0 <= date_2024_01_01 7 0 5
  /\ snoozeUntil (alarm w1) = Some (date_2024_01_01 7 5 5)
  /\ tick audio_ok (date_2024_01_01 7 3 0) (date_2024_01_01 7 3 0) w1
     = (Normal tt, snd (setCurrentTime (date_2024_01_01 7 3 0) w1))
  /\ isRinging w2 = true /\ snoozed (alarm w2) = false
  /\ audioContextRef w2 = audio_ok.
Proof.
  cbn zeta.
  assert (Hepoch : 0 <= date_2024_01_01 7 0 5) by (vm_compute; discriminate).
  split; [exact Hepoch|].
  destruct (snooze_lifecycle
              (snd (tick audio_ok (date_2024_01_01 7 0 0)
                      (date_2024_01_01 7 0 0)
                      (armed_0700 (date_2024_01_01 6 59 59))))
              (date_2024_01_01 7 0 5) Hepoch)
    as ((_ & _ & Hu & _) & Hwait & Hring).
  split; [exact Hu|]. split.
  { apply Hwait; [reflexivity|]. intros u Hu'. rewrite Hu in Hu'.
    injection Hu' as <-. vm_compute. reflexivity. }
  destruct (Hring [(audio_ok, date_2024_01_01 7 0 6, date_2024_01_01 7 0 6);
                   (audio_ok, date_2024_01_01 7 5 4, date_2024_01_01 7 5 4)]
              audio_ok (date_2024_01_01 7 5 5) (date_2024_01_01 7 5 5))
    as (_ & _ & Hs & _ & Hr & Hnew).
  - repeat constructor.
  - reflexivity.
  - vm_compute. discriminate.
  - destruct (Hnew tt eq_refl) as (_ & Hc & _).
    split; [exact Hr|]. split; [exact Hs|]. exact Hc.
Defined.

(** ** Failure of the alert sound *)

(** C9, as stated, fails: at 07:00:00, with no audio context on offer, the
    tick that rings the armed alarm does not complete: the exception of
    [startAlarmSound] leaves the alarm check. *)
Lemma sound_failure_escapes_tick :
  let w := armed_0700 (date_2024_01_01 6 59 59) in
  let date := date_2024_01_01 7 0 0 in
  time_match_condition (snd (setCurrentTime date w)) = true
  /\ fst (tick audio_unavailable date date w) = Throw AudioUnavailable
  /\ ~ (exists w', tick audio_unavailable date date w = (Normal tt, w')).
Proof.
  cbn zeta. split; [reflexivity|]. split; [reflexivity|].
  intros [w' E]. discriminate E.
Qed.

(** C9, amended: the alarm check has no handler around [startAlarmSound].
    When no sound session is active and the host yields no audio context,
    the tick that rings the alarm, by time match or by snooze expiry, ends
    with the exception, raised after the ringing flag was set (and, on the
    snooze branch, after the snooze fields were cleared). When a session is
    active or a context is on offer, that tick completes with the ringing
    flag set. *)
Theorem sound_failure_propagates `{Host} (date dateNow : Z) (w : World) :
  let before := snd (setCurrentTime date w) in
  (audioContextRef w = None ->
   time_match_condition before = true ->
     tick None date dateNow w
     = (Throw AudioUnavailable, snd (setIsRinging true before)))
  /\ (audioContextRef w = None ->
      snooze_expired dateNow w ->
        tick None date dateNow w
        = (Throw AudioUnavailable,
           mkWorld date
             (mkAlarm (time (alarm w)) (enabled (alarm w)) false None
                (others (alarm w)))
             true None (oscillatorRef w) (gainRef w) (storage w)))
  /\ (forall ctx,
        audioContextRef w <> None \/ ctx <> None ->
        time_match_condition before = true \/ snooze_expired dateNow w ->
        fst (tick ctx date dateNow w) = Normal tt
        /\ isRinging (snd (tick ctx date dateNow w)) = true).
Proof.
  cbn zeta. split; [|split].
  - intros Hc Hm. rewrite tick_eq, (checkAlarm_time_match _ _ _ Hm).
    apply startAlarmSound_unavailable. exact Hc.
  - intros Hc (He & Hr & Hs & u & Hu & Hz & Hle).
    rewrite (tick_snooze_expired None date dateNow u w He Hr Hs Hu Hz Hle).
    rewrite startAlarmSound_unavailable by exact Hc. rewrite Hc. reflexivity.
  - intros ctx Hav Hfire.
    assert (Hstart : forall w0 : World,
               audioContextRef w0 = audioContextRef w -> isRinging w0 = true ->
               fst (startAlarmSound ctx w0) = Normal tt
               /\ isRinging (snd (startAlarmSound ctx w0)) = true).
    { intros w0 Hc0 Hr0.
      destruct (startAlarmSound_state ctx w0) as (_ & _ & Hr & _).
      split; [|rewrite Hr; exact Hr0].
      destruct (audioContextRef w) as [c|] eqn:Hc.
      - rewrite startAlarmSound_active; [reflexivity | rewrite Hc0; discriminate].
      - destruct Hav as [Hav | Hav]; [contradiction|].
        destruct ctx as [c|]; [|contradiction].
        rewrite startAlarmSound_new by exact Hc0. reflexivity. }
    destruct Hfire as [Hm | (He & Hr & Hs & u & Hu & Hz & Hle)].
    + rewrite tick_eq, (checkAlarm_time_match _ _ _ Hm).
      apply Hstart; reflexivity.
    + rewrite (tick_snooze_expired ctx date dateNow u w He Hr Hs Hu Hz Hle).
      apply Hstart; reflexivity.
Qed.

Lemma sound_failure_propagates_witness :
  let w := armed_0700 (date_2024_01_01 6 59 59) in
  let date := date_2024_01_01 7 0 0 in
  let snoozedWorld :=
    snd (handleSnooze (date_2024_01_01 7 0 5) (snd (tick audio_ok date date w))) in
  let later := date_2024_01_01 7 5 5 in
  audioContextRef w = None
  /\ time_match_condition (snd (setCurrentTime date w)) = true
  /\ tick audio_unavailable date date w
     = (Throw AudioUnavailable, snd (setIsRinging true (snd (setCurrentTime date w))))
  /\ fst (tick audio_ok date date w) = Normal tt
  /\ snooze_expired later snoozedWorld
  /\ fst (tick audio_unavailable later later snoozedWorld) = Throw AudioUnavailable.
Proof.
  cbn zeta.
  destruct (sound_failure_propagates (H:=utcHost) (date_2024_01_01 7 0 0)
              (date_2024_01_01 7 0 0) (armed_0700 (date_2024_01_01 6 59 59)))
    as (Hthrow & _ & Hok).
  split; [reflexivity|]. split; [reflexivity|].
  split; [apply Hthrow; reflexivity|].
  split; [apply (Hok audio_ok); [right; discriminate | left; reflexivity]|].
  match goal with |- snooze_expired ?n ?v /\ _ =>
    assert (Hexp : snooze_expired n v)
  end.
  { repeat split. exists (date_2024_01_01 7 5 5).
    repeat split; [discriminate | discriminate]. }
  split; [exact Hexp|].
  match type of Hexp with snooze_expired ?n ?v =>
    destruct (sound_failure_propagates (H:=utcHost) n n v) as (_ & Hsn & _)
  end.
  unfold audio_unavailable. rewrite Hsn; [reflexivity | reflexivity | exact Hexp].
Defined.

(** ** Serialisation round trip *)

Lemma append_assoc (a b c : string) : ((a ++ b) ++ c = a ++ (b ++ c))%string.
Proof. induction a as [|x a IH]; cbn; [reflexivity | rewrite IH; reflexivity]. Qed.

(** A quoted string is read back as the string. *)
Lemma parse_string_body_quote (t rest : string) :
  parse_string_body (quote_body t ++ String dquote rest) = Normal (t, rest).
Proof.
  induction t as [|c t IH]; [reflexivity|].
  cbn [quote_body]. rewrite append_assoc.
  destruct c as [[] [] [] [] [] [] [] []]; cbn; rewrite IH; reflexivity.
Qed.

Lemma savedItem_typed (t : string) (e sn : bool) (su : option Z)
  (ot : list (string * JSValue)) :
  savedItem (mkAlarm (JStr t) (JBool e) sn su ot) = Some (saved_text t e).
Proof.
  unfold savedItem, saved_text, quote. cbn.
  rewrite !append_assoc. destruct e; cbn; rewrite !append_assoc; reflexivity.
Qed.

Lemma parse_value_object (f : nat) (r : string) :
  parse_value (S f) (String "{" (String dquote r))
  = parse_members f (String dquote r) [].
Proof. reflexivity. Qed.

Lemma parse_members_key (f : nat) (k r2 : string) (obj : list (string * JSValue)) :
  parse_members (S f) (String dquote (quote_body k ++ String dquote (String ":" r2))) obj
  = match parse_value f r2 with
    | Normal (v, r3) =>
        match skip_ws r3 with
        | String c' r4 =>
            if Ascii.eqb c' "," then parse_members f r4 (obj_set k v obj)
            else if Ascii.eqb c' "}" then Normal (JObj (obj_set k v obj), r4)
            else Throw SyntaxError
        | "" => Throw SyntaxError
        end
    | Throw e => Throw e
    | Unmodelled => Unmodelled
    end.
Proof.
  cbn [parse_members skip_ws].
  change (is_ws dquote) with false. cbn iota.
  change (Ascii.eqb dquote dquote) with true. cbn iota.
  cbn [bind Monad_Completion].
  rewrite parse_string_body_quote. cbn [skip_ws]. change (is_ws ":") with false. cbn iota.
  change (Ascii.eqb ":" ":") with true. cbn iota.
  destruct (parse_value f r2) as [[v r3]| |]; reflexivity.
Qed.

Lemma parse_value_string (f : nat) (t rest : string) :
  parse_value (S f) (String dquote (quote_body t ++ String dquote rest))
  = Normal (JStr t, rest).
Proof.
  cbn [parse_value skip_ws]. change (is_ws dquote) with false. cbn iota.
  change (Ascii.eqb dquote "{") with false.
  change (Ascii.eqb dquote "[") with false.
  change (Ascii.eqb dquote dquote) with true. cbn iota.
  cbn [bind Monad_Completion]. rewrite parse_string_body_quote. reflexivity.
Qed.

Lemma parse_value_bool (f : nat) (e : bool) (rest : string) :
  parse_value (S f) ((if e then "true" else "false") ++ rest)
  = Normal (JBool e, rest).
Proof. destruct e; reflexivity. Qed.

Lemma parse_value_saved_text (t : string) (e : bool) (fuel : nat) :
  (4 <= fuel)%nat ->
  parse_value fuel (saved_text t e)
  = Normal (JObj [("time", JStr t); ("enabled", JBool e)], "").
Proof.
  intros Hf.
  destruct fuel as [|[|[|[|f]]]]; try lia.
  change (saved_text t e) with
    (String "{" (String dquote (quote_body "time" ++ String dquote (String ":"
       (String dquote (quote_body t ++ String dquote (String ","
          (String dquote (quote_body "enabled" ++ String dquote (String ":"
             ((if e then "true" else "false") ++ "}")))))))))))%string.
  rewrite parse_value_object, parse_members_key, parse_value_string.
  cbn [skip_ws]. change (is_ws ",") with false. cbn iota.
  change (Ascii.eqb "," ",") with true. cbn iota.
  rewrite parse_members_key, parse_value_bool.
  reflexivity.
Qed.

Lemma JSON_parse_saved_text (t : string) (e : bool) :
  JSON_parse (saved_text t e)
  = Normal (JObj [("time", JStr t); ("enabled", JBool e)]).
Proof.
  assert (Hlen : (1 <= String.length (saved_text t e))%nat)
    by (unfold saved_text; cbn; lia).
  unfold JSON_parse. rewrite parse_value_saved_text by lia. reflexivity.
Qed.

Lemma saved_text_nonempty (t : string) (e : bool) :
  truthy (JStr (saved_text t e)) = true.
Proof. reflexivity. Qed.

(** Loading what was saved from a typed configuration gives it back. *)
Lemma initialAlarm_saved_text (t : string) (e : bool) :
  initialAlarm (Some (saved_text t e)) = Normal (config t e).
Proof.
  unfold initialAlarm. rewrite saved_text_nonempty.
  rewrite JSON_parse_saved_text. reflexivity.
Qed.

(** ** The stored item over the life of the component *)

Section Persistence.
Context `{Host}.

(** The alarm check leaves [time], [enabled] and the stored item alone. *)
Lemma checkAlarm_config ctx n (w : World) :
  let w' := snd (checkAlarm ctx n w) in
  time (alarm w') = time (alarm w) /\ enabled (alarm w') = enabled (alarm w)
  /\ storage w' = storage w.
Proof.
  destruct w as [ct a r c o g st]. unfold checkAlarm, startAlarmSound.
  cbn -[currentTimeStr getSeconds].
  destruct (negb (truthy (enabled a)) || r); cbn -[currentTimeStr getSeconds];
    [auto|].
  destruct (snoozed a && truthy_num (snoozeUntil a));
    cbn -[currentTimeStr getSeconds].
  - destruct (snoozeUntil a); cbn; [|auto].
    destruct (n >=? z); cbn; [|auto].
    destruct c, ctx; cbn; auto.
  - case_if;
      cbn; [|auto].
    destruct c, ctx; cbn; auto.
Qed.

Lemma typed_saved_checkAlarm ctx n (w : World) :
  typed_saved w -> typed_saved (snd (checkAlarm ctx n w)).
Proof.
  intros (t & e & Ht & He & Hst).
  destruct (checkAlarm_config ctx n w) as (Ht' & He' & Hst').
  exists t, e. rewrite Ht', He', Hst'. auto.
Qed.

(** A handler keeps the types of [time] and [enabled] and does not touch
    the stored item. *)
Lemma handler_typed (ev : Event) (w : World) (t : string) (e : bool) :
  time (alarm w) = JStr t -> enabled (alarm w) = JBool e ->
  let w1 := snd (handler ev w) in
  (exists t1 e1, time (alarm w1) = JStr t1 /\ enabled (alarm w1) = JBool e1)
  /\ storage w1 = storage w.
Proof.
  intros Ht He. cbn zeta.
  destruct ev; cbn -[handleSnooze handleDismiss].
  - split; [exists t, e; auto | reflexivity].
  - rewrite handleSnooze_eq; cbn; (split; [exists t, e; auto | reflexivity]).
  - rewrite handleDismiss_eq; cbn; (split; [eexists t, _; eauto | reflexivity]).
  - split; [eexists t, _; eauto | reflexivity].
  - split; [eexists _, e; eauto | reflexivity].
Qed.

Lemma typed_saved_step (i : Input) (w : World) :
  typed_saved w -> typed_saved (snd (step i w)).
Proof.
  intros Hts. destruct (rendered (event i) w) eqn:Hon;
    [|rewrite step_not_rendered by exact Hon; exact Hts].
  destruct Hts as (t & e & Ht & He & Hst).
  rewrite (step_eq_explicit i w Hon). apply typed_saved_checkAlarm.
  destruct (handler_typed (event i) w t e Ht He) as ((t1 & e1 & Ht1 & He1) & Hst1).
  set (w1 := snd (handler (event i) w)) in *.
  rewrite Ht, He, Ht1, He1, Hst1. cbn [same_value].
  exists t1, e1. cbn [snd setItem alarm storage].
  split; [exact Ht1|]. split; [exact He1|].
  assert (Hsaved : savedItem (alarm w1) = Some (saved_text t1 e1)).
  { destruct (alarm w1) as [tm en sn su ot]. cbn [time enabled] in Ht1, He1.
    subst tm en. apply savedItem_typed. }
  destruct (String.eqb_spec t t1) as [<- | Hne]; cbn [andb]; [|exact Hsaved].
  destruct e, e1; cbn [Bool.eqb]; first [exact Hst | exact Hsaved].
Qed.

Lemma typed_saved_mount ctx n (w0 : World) (t : string) (e : bool) :
  time (alarm w0) = JStr t -> enabled (alarm w0) = JBool e ->
  typed_saved (snd (mountEffects ctx n w0)).
Proof.
  intros Ht He.
  change (mountEffects ctx n w0)
    with (checkAlarm ctx n (snd (setItem (savedItem (alarm w0)) w0))).
  apply typed_saved_checkAlarm. exists t, e.
  cbn [snd setItem alarm storage].
  split; [exact Ht|]. split; [exact He|].
  destruct (alarm w0) as [tm en sn su ot]. cbn [time enabled] in Ht, He.
  subst tm en. apply savedItem_typed.
Qed.

(** Every reachable world has a typed configuration whose serialisation
    is the stored item. *)
Lemma reachable_typed_saved (w : World) : reachable w -> typed_saved w.
Proof.
  induction 1 as [date n ctx w0 Hinit | i w Hw IH | date n ctx w w0 Hw IH Hinit].
  - cbn in Hinit. injection Hinit as <-.
    apply (typed_saved_mount ctx n _ "07:00" false); reflexivity.
  - apply typed_saved_step. exact IH.
  - destruct IH as (t & e & _ & _ & Hst).
    unfold initialWorld in Hinit. rewrite Hst, initialAlarm_saved_text in Hinit.
    cbn in Hinit. injection Hinit as <-.
    apply (typed_saved_mount ctx n _ t e); reflexivity.
Qed.
End Persistence.

(** ** Loading the stored item *)

(** C3, as stated, fails: a payload that is not JSON makes the initialiser
    raise the parse error, and a payload of another shape is taken as it
    is, not replaced by the defaults. *)
Lemma load_raises_and_takes_any_shape :
  initialAlarm (Some "{bad json") = Throw SyntaxError
  /\ initialAlarm (Some (js "{'time':'25:99','enabled':'yes'}"))
     = Normal (mkAlarm (JStr "25:99") (JStr "yes") false None [])
  /\ initialAlarm (Some "[1,2]")
     = Normal (mkAlarm JUndefined JUndefined false None
                 [("0", JNum 1); ("1", JNum 2)])
  /\ initialAlarm (Some "{bad json") <> Normal defaultAlarm
  /\ initialAlarm (Some (js "{'time':'25:99','enabled':'yes'}"))
     <> Normal defaultAlarm
  /\ initialAlarm (Some "[1,2]") <> Normal defaultAlarm.
Proof.
  repeat split; try reflexivity; intros E; vm_compute in E; discriminate E.
Qed.

(** C3, amended: the initialiser returns the defaults when the item is
    absent or the empty string. Any other payload is parsed: a parse error
    is raised to the caller, and a parsed value is spread into the state
    without any check of its shape, with [snoozed] and [snoozeUntil] reset.
    For a payload that the save effect wrote from a string [time] and a
    boolean [enabled], the result is that last-saved pair. *)
Theorem load_parses_without_validation (payload t : string) (e : bool) :
  initialAlarm None = Normal defaultAlarm
  /\ initialAlarm (Some "") = Normal defaultAlarm
  /\ (payload <> "" -> forall x, JSON_parse payload = Throw x ->
        initialAlarm (Some payload) = Throw x)
  /\ (payload <> "" -> forall v, JSON_parse payload = Normal v ->
        initialAlarm (Some payload)
        = Normal (mkAlarm (obj_get "time" (spread v)) (obj_get "enabled" (spread v))
                    false None
                    (obj_remove "snoozeUntil"
                       (obj_remove "snoozed"
                          (obj_remove "enabled" (obj_remove "time" (spread v)))))))
  /\ (forall sn su ot,
        savedItem (mkAlarm (JStr t) (JBool e) sn su ot) = Some (saved_text t e))
  /\ initialAlarm (Some (saved_text t e)) = Normal (config t e).
Proof.
  split; [reflexivity|]. split; [reflexivity|].
  assert (Hne : payload <> "" -> truthy (JStr payload) = true).
  { intros Hp. cbn. apply negb_true_iff, String.eqb_neq. exact Hp. }
  split; [|split; [|split]].
  - intros Hp x Hx. unfold initialAlarm. rewrite (Hne Hp), Hx. reflexivity.
  - intros Hp v Hv. unfold initialAlarm. rewrite (Hne Hp), Hv. reflexivity.
  - intros sn su ot. apply savedItem_typed.
  - apply initialAlarm_saved_text.
Qed.

Lemma load_parses_without_validation_witness :
  "{bad json" <> ""
  /\ JSON_parse "{bad json" = Throw SyntaxError
  /\ initialAlarm (Some "{bad json") = Throw SyntaxError
  /\ JSON_parse (js "{'time':'25:99','enabled':'yes'}")
     = Normal (JObj [("time", JStr "25:99"); ("enabled", JStr "yes")])
  /\ initialAlarm (Some (js "{'time':'25:99','enabled':'yes'}"))
     = Normal (mkAlarm (JStr "25:99") (JStr "yes") false None [])
  /\ initialAlarm (Some (js "{'time':'06:30','enabled':true}"))
     = Normal (config "06:30" true).
Proof.
  assert (Hne : "{bad json" <> "") by discriminate.
  assert (Hne' : js "{'time':'25:99','enabled':'yes'}" <> "") by discriminate.
  destruct (load_parses_without_validation "{bad json" "06:30" true)
    as (_ & _ & Hthrow & _ & _ & Hsaved).
  destruct (load_parses_without_validation
              (js "{'time':'25:99','enabled':'yes'}") "06:30" true)
    as (_ & _ & _ & Hany & _ & _).
  split; [exact Hne|]. split; [reflexivity|].
  split; [apply (Hthrow Hne); reflexivity|].
  split; [reflexivity|].
  split;
    [exact (Hany Hne' (JObj [("time", JStr "25:99"); ("enabled", JStr "yes")])
              eq_refl)|].
  exact Hsaved.
Defined.

(** ** Saving after loading *)

(** C7, as stated, fails: the payload with the two fields in the other
    order is accepted by the initialiser, and the save effect then writes
    different bytes. *)
Lemma save_after_load_rewrites_payload :
  let payload := js "{'enabled':true,'time':'07:00'}" in
  initialAlarm (Some payload) = Normal (config "07:00" true)
  /\ savedItem (config "07:00" true) = Some (js "{'time':'07:00','enabled':true}")
  /\ savedItem (config "07:00" true) <> Some payload.
Proof.
  cbn zeta. split; [reflexivity|]. split; [reflexivity|].
  intros E. vm_compute in E. discriminate E.
Qed.

(** C7, amended: for every payload that the save effect itself wrote, from
    a string [time] and a boolean [enabled], loading and saving again writes
    the identical bytes; so in every reachable world a reload followed by
    the save effect on mount leaves the stored item as it was. *)
Theorem save_load_fixed_point `{Host} :
  (forall (t : string) (e : bool),
     exists a, initialAlarm (Some (saved_text t e)) = Normal a
               /\ savedItem a = Some (saved_text t e))
  /\ (forall w : World, reachable w ->
      forall date ctx dateNow,
        exists w0, initialWorld (storage w) date = Normal w0
                   /\ storage (snd (mountEffects ctx dateNow w0)) = storage w).
Proof.
  split.
  - intros t e. exists (config t e).
    split; [apply initialAlarm_saved_text | apply savedItem_typed].
  - intros w Hw date ctx n.
    destruct (reachable_typed_saved w Hw) as (t & e & _ & _ & Hst).
    unfold initialWorld. rewrite Hst, initialAlarm_saved_text.
    cbn [bind ret Monad_Completion].
    eexists. split; [reflexivity|].
    change (mountEffects ctx n ?w0)
      with (checkAlarm ctx n (snd (setItem (savedItem (alarm w0)) w0))).
    match goal with |- storage (snd (checkAlarm ctx n ?w1)) = _ =>
      destruct (checkAlarm_config ctx n w1) as (_ & _ & ->)
    end.
    cbn [snd setItem storage alarm]. apply savedItem_typed.
Qed.

Lemma save_load_fixed_point_witness :
  let w := snd (mountEffects audio_ok (date_2024_01_01 6 0 0)
                  (mkWorld (date_2024_01_01 6 0 0) defaultAlarm false None None None
                     None)) in
  reachable w
  /\ exists w0, initialWorld (storage w) (date_2024_01_01 9 0 0) = Normal w0
                /\ storage (snd (mountEffects audio_ok (date_2024_01_01 9 0 0) w0))
                   = storage w.
Proof.
  cbn zeta.
  assert (Hr : reachable
                 (snd (mountEffects audio_ok (date_2024_01_01 6 0 0)
                         (mkWorld (date_2024_01_01 6 0 0) defaultAlarm false None
                            None None None)))).
  { apply reach_first with (date := date_2024_01_01 6 0 0). reflexivity. }
  split; [exact Hr|].
  destruct (save_load_fixed_point (H:=utcHost)) as [_ Hreload].
  apply (Hreload _ Hr).
Defined.

(** ** Snooze is never persisted *)

(** C6, as stated, fails: for a stored payload that is not JSON the
    initialiser returns no state at all, and after a payload without an
    [enabled] field the saved record has one field only. *)
Lemma load_returns_no_state_for_bad_payload :
  ~ (exists a, initialAlarm (Some "{bad json") = Normal a
               /\ snoozed a = false /\ snoozeUntil a = None)
  /\ (exists a, initialAlarm (Some (js "{'time':'07:00'}")) = Normal a
                /\ savedItem a = Some (js "{'time':'07:00'}")).
Proof.
  split.
  - intros (a & E & _). vm_compute in E. discriminate E.
  - eexists. split; reflexivity.
Qed.

(** C6, amended: in every world that the component reaches from an empty
    store (first run, events, reloads of what it saved) the stored record
    has exactly the two fields [time], a string, and [enabled], a boolean;
    the saved bytes never depend on [snoozed] or [snoozeUntil]. Whenever the
    initialiser returns a state, which it does for an absent or empty item
    and for every payload that parses as JSON, that state has
    [snoozed = false] and [snoozeUntil = null]; so a reload in a reachable
    world, snoozed or not, yields a silent, non-snoozed alarm with the saved
    [time] and [enabled]. *)
Theorem snooze_never_persisted `{Host} :
  (forall w : World, reachable w ->
     exists (t : string) (e : bool),
       time (alarm w) = JStr t /\ enabled (alarm w) = JBool e
       /\ storage w = Some (saved_text t e)
       /\ JSON_parse (saved_text t e)
          = Normal (JObj [("time", JStr t); ("enabled", JBool e)]))
  /\ (forall (a : AlarmState) (b : bool) (u : option Z),
        savedItem (set_snoozeUntil u (set_snoozed b a)) = savedItem a)
  /\ (forall (payload : option string) (a : AlarmState),
        initialAlarm payload = Normal a ->
        snoozed a = false /\ snoozeUntil a = None)
  /\ (forall (s : string) (v : JSValue),
        JSON_parse s = Normal v -> exists a, initialAlarm (Some s) = Normal a)
  /\ (forall w : World, reachable w ->
      forall date,
        exists w0, initialWorld (storage w) date = Normal w0
                   /\ snoozed (alarm w0) = false
                   /\ snoozeUntil (alarm w0) = None
                   /\ isRinging w0 = false
                   /\ time (alarm w0) = time (alarm w)
                   /\ enabled (alarm w0) = enabled (alarm w)).
Proof.
  split; [|split; [|split; [|split]]].
  - intros w Hw. destruct (reachable_typed_saved w Hw) as (t & e & Ht & He & Hst).
    exists t, e. repeat split; try assumption. apply JSON_parse_saved_text.
  - intros a b u. reflexivity.
  - intros payload a. unfold initialAlarm.
    destruct payload as [s|]; [|intros [= <-]; split; reflexivity].
    destruct (truthy (JStr s)); [|intros [= <-]; split; reflexivity].
    destruct (JSON_parse s); cbn; [|discriminate..].
    intros [= <-]. split; reflexivity.
  - intros s v Hv. unfold initialAlarm.
    destruct (truthy (JStr s)); [rewrite Hv|]; eexists; reflexivity.
  - intros w Hw date.
    destruct (reachable_typed_saved w Hw) as (t & e & Ht & He & Hst).
    unfold initialWorld. rewrite Hst, initialAlarm_saved_text.
    eexists. split; [reflexivity|]. cbn. rewrite Ht, He. repeat split.
Qed.

Lemma snooze_never_persisted_witness :
  let ringing :=
    snd (step (mkInput (Tick (date_2024_01_01 7 0 0)) (date_2024_01_01 7 0 0) audio_ok)
           (snd (step (mkInput ClickToggle (date_2024_01_01 6 0 1) audio_ok)
                   (snd (mountEffects audio_ok (date_2024_01_01 6 0 0)
                           (mkWorld (date_2024_01_01 6 0 0) defaultAlarm false
                              None None None None)))))) in
  let w := snd (step (mkInput (ClickSnooze (date_2024_01_01 7 0 5))
                        (date_2024_01_01 7 0 5) audio_ok) ringing) in
  let foreign := js "{'time':'07:00','enabled':true,'snoozed':true,'snoozeUntil':99}" in
  reachable (H:=utcHost) w
  /\ snoozed (alarm w) = true
  /\ storage w = Some (js "{'time':'07:00','enabled':true}")
  /\ (exists t e, storage w = Some (saved_text t e))
  /\ (exists w0 : @World utcHost,
        initialWorld (storage w) (date_2024_01_01 7 1 0) = Normal w0
        /\ snoozed (alarm w0) = false
        /\ enabled (alarm w0) = JBool true)
  /\ (exists a, initialAlarm (Some foreign) = Normal a
                /\ snoozed a = false /\ snoozeUntil a = None).
Proof.
  cbn zeta.
  match goal with |- reachable ?w /\ _ =>
    assert (Hr : reachable w)
  end.
  { do 3 apply reach_step.
    apply reach_first with (date := date_2024_01_01 6 0 0). reflexivity. }
  destruct (snooze_never_persisted (H:=utcHost))
    as (Hstored & _ & Hclear & Hret & Hreload).
  split; [exact Hr|]. split; [reflexivity|]. split; [reflexivity|].
  split.
  { destruct (Hstored _ Hr) as (t & e & _ & _ & Hst & _). exists t, e. exact Hst. }
  split.
  { destruct (Hreload _ Hr (date_2024_01_01 7 1 0))
      as (w0 & Hinit & Hs & _ & _ & _ & He).
    exists w0. split; [exact Hinit|]. split; [exact Hs|]. rewrite He. reflexivity. }
  destruct (Hret (js "{'time':'07:00','enabled':true,'snoozed':true,'snoozeUntil':99}")
              (JObj [("time", JStr "07:00"); ("enabled", JBool true);
                     ("snoozed", JBool true); ("snoozeUntil", JNum 99)])
              eq_refl) as [a Ha].
  exists a. split; [exact Ha|]. exact (Hclear _ a Ha).
Defined.

(** ** The time-remaining query *)

Lemma hhmm_parses_below :
  forallb (fun h =>
    forallb (fun m =>
      match map_Number (split ":" (hhmm (Z.of_nat h) (Z.of_nat m))) with
      | Normal [Some a; Some b] => (a =? Z.of_nat h) && (b =? Z.of_nat m)
      | _ => false
      end) (seq 0 60)) (seq 0 24) = true.
Proof. vm_compute. reflexivity. Qed.

(** A well-formed "HH:MM" splits and converts to its hour and minute. *)
Lemma hhmm_parses (h m : Z) :
  0 <= h < 24 -> 0 <= m < 60 ->
  map_Number (split ":" (hhmm h m)) = Normal [Some h; Some m].
Proof.
  intros Hh Hm. pose proof hhmm_parses_below as Hall.
  rewrite forallb_forall in Hall.
  specialize (Hall (Z.to_nat h)). rewrite in_seq in Hall.
  specialize (Hall ltac:(lia)). rewrite forallb_forall in Hall.
  specialize (Hall (Z.to_nat m)). rewrite in_seq in Hall.
  specialize (Hall ltac:(lia)).
  rewrite !Z2Nat.id in Hall by lia.
  destruct (map_Number (split ":" (hhmm h m))) as [[|[a|] [|[b|] [|? ?]]]| |];
    try discriminate Hall.
  apply andb_true_iff in Hall. destruct Hall as [Ha Hb].
  apply Z.eqb_eq in Ha, Hb. subst. reflexivity.
Qed.

Lemma ceil_div_spec (a : Z) :
  60000 * (ceil_div a 60000 - 1) < a <= 60000 * ceil_div a 60000.
Proof. unfold ceil_div. Z.to_euclidean_division_equations. lia. Qed.

Section Query.
Context `{Host}.

(** The day after a local time, at the same time within the day. *)
Lemma MakeDate_next_day (L : Z) :
  MakeDate (Day L + 1) (TimeWithinDay L) = L + msPerDay.
Proof.
  unfold MakeDate, Day, TimeWithinDay, msPerDay.
  Z.to_euclidean_division_equations. lia.
Qed.

(** The date that the query computes from [now] and a well-formed time. *)
Lemma alarmDate_target (now h m : Z) :
  Z.abs (today_at now h m) <= MAX_TIME ->
  Z.abs (calendar_target now h m) <= MAX_TIME ->
  match setHours now (Some h) (Some m) (Some 0) (Some 0) with
  | Some d => if d <=? now then setDate_getDate_plus_1 d else Some d
  | None => None
  end = Some (calendar_target now h m).
Proof.
  unfold calendar_target, setHours, setDate_getDate_plus_1.
  fold (today_at now h m). set (t := today_at now h m).
  intros Ht HT. unfold TimeClip at 1. fold MAX_TIME.
  destruct (Z.leb_spec (Z.abs t) MAX_TIME) as [_ | Hbad]; [|lia].
  rewrite MakeDate_next_day. fold (a_day_later t).
  destruct (Z.ltb_spec now t) as [Hlt | Hge];
    destruct (Z.leb_spec t now) as [Hle | Hgt]; try lia.
  - reflexivity.
  - unfold TimeClip. fold MAX_TIME.
    destruct (Z.leb_spec (Z.abs (a_day_later t)) MAX_TIME); [reflexivity | lia].
Qed.

Lemma steady_LocalTime (a b z t : Z) :
  (forall t, a <= t <= b -> LocalTZA t true = z /\ LocalTZA (t + z) false = z) ->
  a <= t <= b -> LocalTime t = t + z.
Proof. intros Hz Ht. unfold LocalTime. rewrite (proj1 (Hz t Ht)). reflexivity. Qed.

Lemma steady_UTC (a b z x : Z) :
  (forall t, a <= t <= b -> LocalTZA t true = z /\ LocalTZA (t + z) false = z) ->
  a <= x - z <= b -> UTC x = x - z.
Proof.
  intros Hz Hx. unfold UTC. pose proof (proj2 (Hz (x - z) Hx)) as E.
  replace (x - z + z) with x in E by lia. rewrite E. reflexivity.
Qed.

(** While the zone keeps its offset within a day of [now], the date that
    the query counts down to is the next future occurrence of the
    configured time, and it is a time value of a [Date]. *)
Lemma steady_target (now h m : Z) :
  0 <= h < 24 -> 0 <= m < 60 ->
  Z.abs now + msPerDay <= MAX_TIME ->
  steady_zone (now - msPerDay) (now + msPerDay) ->
  next_occurrence now h m (calendar_target now h m)
  /\ Z.abs (today_at now h m) <= MAX_TIME
  /\ Z.abs (calendar_target now h m) <= MAX_TIME.
Proof.
  intros Hh Hm Hrange [z Hz].
  assert (HL : LocalTime now = now + z)
    by (apply (steady_LocalTime _ _ z now Hz); unfold msPerDay; lia).
  set (tod := MakeTime h m 0 0).
  assert (Htod : 0 <= tod < msPerDay)
    by (unfold tod, MakeTime, msPerDay, msPerHour, msPerMinute, msPerSecond; lia).
  set (x0 := MakeDate (Day (now + z)) tod).
  assert (Hx0 : now + z - msPerDay < x0 <= now + z + tod
                /\ x0 - tod <= now + z
                /\ forall k, TimeWithinDay (x0 + k * msPerDay) = tod).
  { unfold x0, MakeDate, Day, TimeWithinDay, msPerDay in *.
    split; [Z.to_euclidean_division_equations; lia|].
    split; [Z.to_euclidean_division_equations; lia|].
    intros k. symmetry.
    apply (Z.mod_unique _ _ ((now + z) / 86400000 + k) tod); lia. }
  destruct Hx0 as (Hx0 & Hx0' & Hmod).
  assert (Htoday : today_at now h m = x0 - z).
  { unfold today_at. rewrite HL. fold tod. fold x0.
    apply (steady_UTC _ _ z x0 Hz). lia. }
  unfold calendar_target, next_occurrence. rewrite Htoday. fold tod.
  unfold MAX_TIME in *.
  destruct (Z.ltb_spec now (x0 - z)) as [Hlt | Hge].
  - rewrite (steady_LocalTime _ _ z (x0 - z) Hz) by lia.
    replace (x0 - z + z) with (x0 + 0 * msPerDay) by lia. rewrite Hmod.
    repeat split; lia.
  - unfold a_day_later.
    rewrite (steady_LocalTime _ _ z (x0 - z) Hz) by lia.
    replace (x0 - z + z + msPerDay) with (x0 + msPerDay) by lia.
    rewrite (steady_UTC _ _ z (x0 + msPerDay) Hz) by lia.
    rewrite (steady_LocalTime _ _ z (x0 + msPerDay - z) Hz) by lia.
    replace (x0 + msPerDay - z + z) with (x0 + 1 * msPerDay) by lia.
    rewrite Hmod. repeat split; lia.
Qed.

(** While the zone keeps its offset, the next occurrence is unique. *)
Lemma next_occurrence_unique (now h m T T' : Z) :
  steady_zone (now - msPerDay) (now + msPerDay) ->
  next_occurrence now h m T -> next_occurrence now h m T' -> T = T'.
Proof.
  unfold next_occurrence. intros [z Hz] [Hr Hm] [Hr' Hm'].
  rewrite (steady_LocalTime _ _ z T Hz) in Hm by (unfold msPerDay in *; lia).
  rewrite (steady_LocalTime _ _ z T' Hz) in Hm' by (unfold msPerDay in *; lia).
  rewrite <- Hm' in Hm. clear Hm'. unfold TimeWithinDay, msPerDay in *.
  Z.to_euclidean_division_equations. lia.
Qed.
End Query.

Section QueryAnswers.
Context `{Host}.

(** While the zone keeps its offset, the next occurrence falls on the
    local day of [now], or on the next day when the time of day has already
    passed (or is just reached). *)
Lemma next_occurrence_day (now h m T : Z) :
  0 <= h < 24 -> 0 <= m < 60 ->
  steady_zone (now - msPerDay) (now + msPerDay) ->
  next_occurrence now h m T ->
  local_day T
  = local_day now
    + (if MakeTime h m 0 0 <=? TimeWithinDay (LocalTime now) then 1 else 0).
Proof.
  unfold next_occurrence, local_day. intros Hh Hm [z Hz] [Hr Ht].
  rewrite (steady_LocalTime _ _ z T Hz) in * by (unfold msPerDay in *; lia).
  rewrite (steady_LocalTime _ _ z now Hz) in * by (unfold msPerDay in *; lia).
  unfold Day, TimeWithinDay, MakeTime, msPerDay, msPerHour, msPerMinute,
    msPerSecond in *.
  destruct (Z.leb_spec (h * 3600000 + m * 60000 + 0 * 1000 + 0)
              ((now + z) mod 86400000));
    Z.to_euclidean_division_equations; lia.
Qed.

(** The query never changes the world. *)
Lemma getTimeUntilAlarm_pure (dateNow : Z) (w : World) :
  snd (getTimeUntilAlarm dateNow w) = w.
Proof.
  unfold getTimeUntilAlarm, read, lift, throw. cbn [bind ret Monad_M].
  destruct (negb (truthy (enabled (alarm w)))); [reflexivity|].
  destruct (time (alarm w)); try reflexivity.
  destruct (map_Number (split ":" s)); try reflexivity.
  match goal with |- snd (match ?x with _ => _ end w) = w => destruct x end;
    [reflexivity|].
  match goal with |- snd ((if ?b then _ else _) w) = w => destruct b end;
    reflexivity.
Qed.

(** The query reads the four fields of the alarm and the stored date. *)
Lemma getTimeUntilAlarm_reads (dateNow : Z) (w w' : World) :
  enabled (alarm w') = enabled (alarm w) -> time (alarm w') = time (alarm w) ->
  snoozed (alarm w') = snoozed (alarm w) ->
  snoozeUntil (alarm w') = snoozeUntil (alarm w) ->
  currentTime w' = currentTime w ->
  fst (getTimeUntilAlarm dateNow w') = fst (getTimeUntilAlarm dateNow w).
Proof.
  intros He Ht Hs Hu Hc.
  unfold getTimeUntilAlarm, read, lift, throw. cbn [bind ret Monad_M].
  rewrite He.
  destruct (negb (truthy (enabled (alarm w)))); [reflexivity|].
  rewrite Ht, Hs, Hu, Hc.
  destruct (time (alarm w)); try reflexivity.
  destruct (map_Number (split ":" s)); try reflexivity.
  match goal with |- fst (match ?x with _ => _ end w') = _ => destruct x end;
    [reflexivity|].
  match goal with |- fst ((if ?b then _ else _) w') = _ => destruct b end;
    reflexivity.
Qed.

Lemma getTimeUntilAlarm_disabled (dateNow : Z) (w : World) :
  truthy (enabled (alarm w)) = false ->
  getTimeUntilAlarm dateNow w = (Normal None, w).
Proof.
  intros He. unfold getTimeUntilAlarm, read. cbn [bind ret Monad_M].
  rewrite He. reflexivity.
Qed.

Lemma getTimeUntilAlarm_snoozed (dateNow h m u : Z) (w : World) :
  truthy (enabled (alarm w)) = true ->
  time (alarm w) = JStr (hhmm h m) ->
  0 <= h < 24 -> 0 <= m < 60 ->
  snoozed (alarm w) = true -> snoozeUntil (alarm w) = Some u ->
  u <> 0 -> dateNow < u ->
  getTimeUntilAlarm dateNow w
  = (Normal (Some (snooze_text (ceil_div (u - dateNow) 60000))), w).
Proof.
  intros He Ht Hh Hm Hs Hu Hz Hlt.
  unfold getTimeUntilAlarm, read, lift. cbn [bind ret Monad_M].
  rewrite He, Ht. cbn [negb]. rewrite (hhmm_parses h m Hh Hm).
  rewrite Hs, Hu. cbn [truthy_num andb].
  destruct (Z.eqb_spec u 0); [contradiction|]. cbn [negb].
  destruct (Z.ltb_spec 0 (u - dateNow)); [reflexivity | lia].
Qed.

(** Without an active snooze the query makes no snooze text. *)
Lemma snoozeText_none (dateNow : Z) (a : AlarmState) :
  ~ actively_snoozed dateNow a ->
  (if snoozed a && truthy_num (snoozeUntil a)
   then match snoozeUntil a with
        | Some u =>
            if 0 <? u - dateNow
            then Some ("Snooze: " ++ String_of_Z (ceil_div (u - dateNow) 60000)
                       ++ "m")%string
            else None
        | None => None
        end
   else None) = None.
Proof.
  intros Hsn.
  destruct (snoozed a) eqn:Hs; [|reflexivity].
  destruct (snoozeUntil a) as [u|] eqn:Hu; [|reflexivity].
  destruct (truthy_num (Some u)); [|reflexivity]. cbn [andb].
  destruct (Z.ltb_spec 0 (u - dateNow)) as [Hpos|]; [|reflexivity].
  exfalso. apply Hsn. split; [exact Hs|]. exists u. split; [exact Hu | lia].
Qed.




(** The ordinary answer, in any zone: the hours and minutes to the
    calendar target, when that target is a time value ahead of [now]. *)
Lemma getTimeUntilAlarm_target (dateNow h m : Z) (w : World) :
  truthy (enabled (alarm w)) = true ->
  time (alarm w) = JStr (hhmm h m) ->
  0 <= h < 24 -> 0 <= m < 60 ->
  ~ actively_snoozed dateNow (alarm w) ->
  Z.abs (today_at (currentTime w) h m) <= MAX_TIME ->
  Z.abs (calendar_target (currentTime w) h m) <= MAX_TIME ->
  currentTime w < calendar_target (currentTime w) h m ->
  getTimeUntilAlarm dateNow w
  = (Normal (Some (remaining_text
                     ((calendar_target (currentTime w) h m - currentTime w)
                      / msPerHour)
                     (((calendar_target (currentTime w) h m - currentTime w)
                       mod msPerHour) / msPerMinute))),
     w).
Proof.
  intros He Ht Hh Hm Hsn Hr0 Hr1 Hahead.
  set (T := calendar_target (currentTime w) h m) in *.
  unfold getTimeUntilAlarm, read, lift.
  cbn [bind ret Monad_M]. rewrite He, Ht. cbn [negb].
  rewrite (hhmm_parses h m Hh Hm). cbn [nth].
  rewrite (alarmDate_target (currentTime w) h m Hr0 Hr1). fold T.
  rewrite (snoozeText_none dateNow _ Hsn). cbn [option_map gt0 String_of_num].
  unfold floor_div, remaining_text, msPerHour, msPerMinute.
  change (1000 * 60 * 60) with 3600000. change (1000 * 60) with 60000.
  rewrite Z.rem_mod_nonneg by lia.
  destruct (0 <? (T - currentTime w) / 3600000); reflexivity.
Qed.

(** The ordinary answer while the zone keeps its offset within a day of
    the stored date: the hours and minutes to the next occurrence. *)
Lemma getTimeUntilAlarm_ordinary (dateNow h m : Z) (w : World) :
  truthy (enabled (alarm w)) = true ->
  time (alarm w) = JStr (hhmm h m) ->
  0 <= h < 24 -> 0 <= m < 60 ->
  Z.abs (currentTime w) + msPerDay <= MAX_TIME ->
  steady_zone (currentTime w - msPerDay) (currentTime w + msPerDay) ->
  ~ actively_snoozed dateNow (alarm w) ->
  exists T,
    next_occurrence (currentTime w) h m T
    /\ getTimeUntilAlarm dateNow w
       = (Normal (Some (remaining_text ((T - currentTime w) / msPerHour)
                          (((T - currentTime w) mod msPerHour) / msPerMinute))),
          w).
Proof.
  intros He Ht Hh Hm Hrange Hsteady Hsn.
  destruct (steady_target (currentTime w) h m Hh Hm Hrange Hsteady)
    as (Hnext & Hr0 & Hr1).
  exists (calendar_target (currentTime w) h m). split; [exact Hnext|].
  apply getTimeUntilAlarm_target; auto. destruct Hnext as [[Hlt _] _]. exact Hlt.
Qed.

End QueryAnswers.

(** The UTC zone never changes its offset. *)
Lemma utc_steady (a b : Z) : steady_zone (H:=utcHost) a b.
Proof. exists 0. intros t _. split; reflexivity. Qed.

(** C8, as stated, fails. After the time input is cleared the configured
    time is the empty string: the alarm is enabled and not snoozed, and the
    query answers "in NaNm", hours and minutes to no occurrence. And in New
    York at 01:45 on 2024-11-03, before the clock goes back from 02:00 to
    01:00, the query for an alarm at 01:30 answers "in 24h 45m", while the
    next occurrence of 01:30 is 45 minutes away: the tick at that instant
    rings the alarm. *)
Lemma time_remaining_misses_next_occurrence :
  let d := date_2024_01_01 6 0 0 in
  let cleared := snd (step (mkInput (ChangeTime "") d audio_ok) (armed_0700 d)) in
  let now := fall_back_2024 - 15 * msPerMinute in
  let w := armed_eastern "01:30" now in
  truthy (enabled (alarm cleared)) = true
  /\ snoozed (alarm cleared) = false
  /\ time (alarm cleared) = JStr ""
  /\ fst (getTimeUntilAlarm d cleared) = Normal (Some "in NaNm")
  /\ getHours (H:=easternHost) now = 1 /\ getMinutes (H:=easternHost) now = 45
  /\ fst (getTimeUntilAlarm now w) = Normal (Some "in 24h 45m")
  /\ getHours (H:=easternHost) (now + 45 * msPerMinute) = 1
  /\ getMinutes (H:=easternHost) (now + 45 * msPerMinute) = 30
  /\ isRinging (snd (tick eastern_audio (now + 45 * msPerMinute)
                       (now + 45 * msPerMinute) w)) = true.
Proof. cbn zeta. repeat split; vm_compute; reflexivity. Qed.

(** C8, amended: the time-remaining query leaves the world as it is and
    reads only [enabled], the configured time, the snooze fields and the
    clock. It answers with no value when the alarm is disabled. For a
    well-formed configured time it answers, when the alarm is actively
    snoozed (on a clock not before the epoch), with the snooze text whose
    minute count is the ceiling of the remaining snooze time; and otherwise
    with the hours and minutes to the calendar target: the instant that the
    zone gives to the configured time on the local day of the stored date
    if that instant is still ahead, else the instant it gives to the same
    local time one calendar day later. While the zone keeps its offset
    within a day of the stored date, the target is the one next future
    occurrence of the configured time, on the next local day exactly when
    that time of day has been reached today. For the empty configured time
    the answer is "in NaNm". *)
Theorem time_remaining_query `{Host} (dateNow : Z) (w : World) :
  snd (getTimeUntilAlarm dateNow w) = w
  /\ (forall w' : World,
        enabled (alarm w') = enabled (alarm w) ->
        time (alarm w') = time (alarm w) ->
        snoozed (alarm w') = snoozed (alarm w) ->
        snoozeUntil (alarm w') = snoozeUntil (alarm w) ->
        currentTime w' = currentTime w ->
        fst (getTimeUntilAlarm dateNow w') = fst (getTimeUntilAlarm dateNow w))
  /\ (truthy (enabled (alarm w)) = false ->
        fst (getTimeUntilAlarm dateNow w) = Normal None)
  /\ (forall h m u,
        truthy (enabled (alarm w)) = true ->
        time (alarm w) = JStr (hhmm h m) -> 0 <= h < 24 -> 0 <= m < 60 ->
        0 <= dateNow ->
        snoozed (alarm w) = true -> snoozeUntil (alarm w) = Some u ->
        dateNow < u ->
        fst (getTimeUntilAlarm dateNow w)
        = Normal (Some (snooze_text (ceil_div (u - dateNow) 60000)))
        /\ 60000 * (ceil_div (u - dateNow) 60000 - 1) < u - dateNow
           <= 60000 * ceil_div (u - dateNow) 60000)
  /\ (forall h m,
        truthy (enabled (alarm w)) = true ->
        time (alarm w) = JStr (hhmm h m) -> 0 <= h < 24 -> 0 <= m < 60 ->
        ~ actively_snoozed dateNow (alarm w) ->
        Z.abs (today_at (currentTime w) h m) <= MAX_TIME ->
        Z.abs (calendar_target (currentTime w) h m) <= MAX_TIME ->
        currentTime w < calendar_target (currentTime w) h m ->
        fst (getTimeUntilAlarm dateNow w)
        = Normal (Some (remaining_text
                          ((calendar_target (currentTime w) h m - currentTime w)
                           / msPerHour)
                          (((calendar_target (currentTime w) h m - currentTime w)
                            mod msPerHour) / msPerMinute))))
  /\ (forall h m,
        truthy (enabled (alarm w)) = true ->
        time (alarm w) = JStr (hhmm h m) -> 0 <= h < 24 -> 0 <= m < 60 ->
        Z.abs (currentTime w) + msPerDay <= MAX_TIME ->
        steady_zone (currentTime w - msPerDay) (currentTime w + msPerDay) ->
        ~ actively_snoozed dateNow (alarm w) ->
        exists T,
          T = calendar_target (currentTime w) h m
          /\ next_occurrence (currentTime w) h m T
          /\ (forall T', next_occurrence (currentTime w) h m T' -> T' = T)
          /\ local_day T
             = local_day (currentTime w)
               + (if MakeTime h m 0 0 <=? TimeWithinDay (LocalTime (currentTime w))
                  then 1 else 0)
          /\ fst (getTimeUntilAlarm dateNow w)
             = Normal (Some (remaining_text
                               ((T - currentTime w) / msPerHour)
                               (((T - currentTime w) mod msPerHour) / msPerMinute))))
  /\ (truthy (enabled (alarm w)) = true ->
      time (alarm w) = JStr "" ->
      ~ actively_snoozed dateNow (alarm w) ->
      fst (getTimeUntilAlarm dateNow w) = Normal (Some "in NaNm")).
Proof.
  split; [apply getTimeUntilAlarm_pure|].
  split; [intros w'; apply getTimeUntilAlarm_reads|].
  split; [intros He; rewrite getTimeUntilAlarm_disabled by exact He; reflexivity|].
  split; [|split; [|split]].
  - intros h m u He Ht Hh Hm Hepoch Hs Hu Hlt.
    rewrite (getTimeUntilAlarm_snoozed dateNow h m u w) by (auto; lia).
    split; [reflexivity | apply ceil_div_spec].
  - intros h m He Ht Hh Hm Hsn Hr0 Hr1 Hahead.
    rewrite (getTimeUntilAlarm_target dateNow h m w) by assumption. reflexivity.
  - intros h m He Ht Hh Hm Hrange Hsteady Hsn.
    destruct (steady_target (currentTime w) h m Hh Hm Hrange Hsteady)
      as (Hnext & Hr0 & Hr1).
    exists (calendar_target (currentTime w) h m).
    split; [reflexivity|]. split; [exact Hnext|]. split.
    + intros T' HT'. apply (next_occurrence_unique (currentTime w) h m); assumption.
    + split; [apply next_occurrence_day; assumption|].
      rewrite (getTimeUntilAlarm_target dateNow h m w); auto.
      destruct Hnext as [[Hlt _] _]. exact Hlt.
  - intros He Ht Hsn.
    unfold getTimeUntilAlarm, read, lift. cbn [bind ret Monad_M].
    rewrite He, Ht. cbn [negb split map_Number]. unfold Number.
    cbn [String.eqb bind ret Monad_Completion nth setHours].
    rewrite (snoozeText_none dateNow _ Hsn). reflexivity.
Qed.

Lemma time_remaining_query_witness :
  let w := armed_0700 (date_2024_01_01 3 10 5) in
  let now := date_2024_01_01 3 10 5 in
  let off := mkWorld (H:=utcHost) now defaultAlarm false None None None None in
  let later := date_2024_01_01 7 1 0 in
  let snoozedWorld :=
    mkWorld (H:=utcHost) later
      (mkAlarm (JStr "07:00") (JBool true) true (Some (date_2024_01_01 7 5 5)) [])
      false None None None None in
  let eve := spring_forward_2024 - 19 * msPerHour + msPerMinute in
  let east := armed_eastern "07:00" eve in
  truthy (enabled (alarm w)) = true
  /\ time (alarm w) = JStr (hhmm 7 0)
  /\ Z.abs (currentTime w) + msPerDay <= MAX_TIME
  /\ steady_zone (H:=utcHost) (currentTime w - msPerDay) (currentTime w + msPerDay)
  /\ ~ actively_snoozed now (alarm w)
  /\ fst (getTimeUntilAlarm now w) = Normal (Some "in 3h 49m")
  /\ (exists T,
        next_occurrence (H:=utcHost) (currentTime w) 7 0 T
        /\ fst (getTimeUntilAlarm now w)
           = Normal (Some (remaining_text
                             ((T - currentTime w) / msPerHour)
                             (((T - currentTime w) mod msPerHour) / msPerMinute))))
  /\ fst (getTimeUntilAlarm now off) = Normal None
  /\ 0 <= later
  /\ fst (getTimeUntilAlarm later snoozedWorld) = Normal (Some "Snooze: 5m")
  /\ fst (getTimeUntilAlarm later snoozedWorld)
     = Normal (Some (snooze_text (ceil_div (date_2024_01_01 7 5 5 - later) 60000)))
  /\ getHours (H:=easternHost) eve = 7 /\ getMinutes (H:=easternHost) eve = 1
  /\ calendar_target (H:=easternHost) eve 7 0 - eve
     = 22 * msPerHour + 59 * msPerMinute
  /\ fst (getTimeUntilAlarm eve east) = Normal (Some "in 22h 59m")
  /\ fst (getTimeUntilAlarm eve east)
     = Normal (Some (remaining_text
                       ((calendar_target (H:=easternHost) eve 7 0 - eve) / msPerHour)
                       (((calendar_target (H:=easternHost) eve 7 0 - eve)
                         mod msPerHour) / msPerMinute))).
Proof.
  cbn zeta.
  assert (Hrange : Z.abs (currentTime (armed_0700 (date_2024_01_01 3 10 5)))
                   + msPerDay <= MAX_TIME) by (vm_compute; discriminate).
  assert (Hsn : ~ actively_snoozed (date_2024_01_01 3 10 5)
                    (alarm (armed_0700 (date_2024_01_01 3 10 5)))).
  { intros [Hs _]. discriminate Hs. }
  assert (Hepoch : 0 <= date_2024_01_01 7 1 0) by (vm_compute; discriminate).
  split; [reflexivity|]. split; [reflexivity|]. split; [exact Hrange|].
  split; [apply utc_steady|].
  split; [exact Hsn|]. split; [reflexivity|].
  destruct (time_remaining_query (H:=utcHost) (date_2024_01_01 3 10 5)
              (armed_0700 (date_2024_01_01 3 10 5)))
    as (_ & _ & _ & _ & _ & Hord & _).
  split.
  { destruct (Hord 7 0 eq_refl eq_refl ltac:(lia) ltac:(lia) Hrange
                (utc_steady _ _) Hsn)
      as (T & _ & Hnext & _ & _ & Heq).
    exists T. split; assumption. }
  split.
  { apply (time_remaining_query (H:=utcHost)). reflexivity. }
  split; [exact Hepoch|]. split; [reflexivity|].
  split.
  { match goal with |- fst (getTimeUntilAlarm ?n ?v) = _ =>
      destruct (time_remaining_query (H:=utcHost) n v) as (_ & _ & _ & Hsnz & _)
    end.
    apply (Hsnz 7 0 (date_2024_01_01 7 5 5));
      try reflexivity; try lia; try exact Hepoch. }
  split; [reflexivity|]. split; [reflexivity|]. split; [reflexivity|].
  split; [reflexivity|].
  set (eve := spring_forward_2024 - 19 * msPerHour + msPerMinute).
  destruct (time_remaining_query (H:=easternHost) eve (armed_eastern "07:00" eve))
    as (_ & _ & _ & _ & Hgen & _).
  apply (Hgen 7 0); try reflexivity; try lia.
  - intros [Hs _]. discriminate Hs.
  - vm_compute. discriminate.
  - vm_compute. discriminate.
Defined.




(** * Further properties *)

(** ** The formatted time of day *)

Lemma pad2_below :
  forallb (fun n =>
    (String.length (padStart (String_of_Z (Z.of_nat n)) 2 "0") =? 2)%nat
    && match Number (padStart (String_of_Z (Z.of_nat n)) 2 "0") with
       | Normal (Some v) => v =? Z.of_nat n
       | _ => false
       end) (seq 0 60) = true.
Proof. vm_compute. reflexivity. Qed.

(** A number below 60, padded to two digits, has length 2 and converts
    back to itself. *)
Lemma pad2_parses (z : Z) :
  0 <= z < 60 ->
  String.length (padStart (String_of_Z z) 2 "0") = 2%nat
  /\ Number (padStart (String_of_Z z) 2 "0") = Normal (Some z).
Proof.
  intros Hz. pose proof pad2_below as Hall.
  rewrite forallb_forall in Hall.
  specialize (Hall (Z.to_nat z)). rewrite in_seq in Hall.
  specialize (Hall ltac:(lia)). rewrite Z2Nat.id in Hall by lia.
  apply andb_true_iff in Hall. destruct Hall as [Hlen Hnum].
  split; [apply Nat.eqb_eq; exact Hlen|].
  destruct (Number (padStart (String_of_Z z) 2 "0")) as [[v|]| |];
    try discriminate Hnum.
  apply Z.eqb_eq in Hnum. subst v. reflexivity.
Qed.

Lemma string_length_append (a b : string) :
  String.length (a ++ b) = (String.length a + String.length b)%nat.
Proof. induction a as [|c a IH]; cbn; [reflexivity | rewrite IH; reflexivity]. Qed.

Lemma hhmm_length (h m : Z) :
  0 <= h < 24 -> 0 <= m < 60 -> String.length (hhmm h m) = 5%nat.
Proof.
  intros Hh Hm. unfold hhmm.
  destruct (pad2_parses h ltac:(lia)) as [Lh _].
  destruct (pad2_parses m Hm) as [Lm _].
  rewrite !string_length_append. rewrite Lh, Lm. reflexivity.
Qed.

(** A well-formed "HH:MM" determines its hour and minute. *)
Lemma hhmm_injective (h m h' m' : Z) :
  0 <= h < 24 -> 0 <= m < 60 -> 0 <= h' < 24 -> 0 <= m' < 60 ->
  hhmm h m = hhmm h' m' -> h = h' /\ m = m'.
Proof.
  intros Hh Hm Hh' Hm' E.
  pose proof (hhmm_parses h m Hh Hm) as P.
  rewrite E, (hhmm_parses h' m' Hh' Hm') in P.
  injection P as -> ->. split; reflexivity.
Qed.

Section ClockFacts.
Context `{Host}.

Lemma currentTimeStr_hhmm (d : Z) :
  currentTimeStr d = hhmm (getHours d) (getMinutes d).
Proof. reflexivity. Qed.

(** The hour, minute and second of a date against its time of day. *)
Lemma clock_window (h m d : Z) :
  0 <= h < 24 -> 0 <= m < 60 ->
  (getHours d = h /\ getMinutes d = m /\ getSeconds d = 0)
  <-> in_window h m d = true.
Proof.
  intros Hh Hm.
  unfold in_window, getHours, getMinutes, getSeconds, HourFromTime, MinFromTime,
    SecFromTime, TimeWithinDay, MakeTime, LocalTime, msPerDay, msPerHour,
    msPerMinute, msPerSecond.
  rewrite andb_true_iff, Z.leb_le, Z.ltb_lt.
  Z.to_euclidean_division_equations. lia.
Qed.
End ClockFacts.

(** X1: the string that the alarm check formats from a date is always a
    well-formed "HH:MM" of five characters; splitting it at the colon and
    converting the parts, as the time-remaining query does, gives back the
    hour and the minute; two dates format alike exactly when they agree on
    hour and minute. *)
Theorem currentTimeStr_round_trip `{Host} (d : Z) :
  0 <= getHours d < 24 /\ 0 <= getMinutes d < 60
  /\ currentTimeStr d = hhmm (getHours d) (getMinutes d)
  /\ String.length (currentTimeStr d) = 5%nat
  /\ map_Number (split ":" (currentTimeStr d))
     = Normal [Some (getHours d); Some (getMinutes d)]
  /\ forall d',
       currentTimeStr d = currentTimeStr d'
       <-> getHours d = getHours d' /\ getMinutes d = getMinutes d'.
Proof.
  pose proof (getHours_range d) as Hh. pose proof (getMinutes_range d) as Hm.
  split; [exact Hh|]. split; [exact Hm|]. split; [reflexivity|].
  rewrite currentTimeStr_hhmm.
  split; [apply hhmm_length; assumption|].
  split; [apply hhmm_parses; assumption|].
  intros d'. rewrite currentTimeStr_hhmm. split.
  - apply hhmm_injective; auto using getHours_range, getMinutes_range.
  - intros [-> ->]. reflexivity.
Qed.

(** ** When the alarm rings *)

Section Ringing.
Context `{Host}.

(** The condition of the time-match branch, for a well-formed configured
    time, in terms of the time of day. *)
Lemma time_match_condition_window (h m : Z) (w : World) :
  0 <= h < 24 -> 0 <= m < 60 ->
  time (alarm w) = JStr (hhmm h m) ->
  time_match_condition w = true
  <-> truthy (enabled (alarm w)) = true /\ isRinging w = false
      /\ snoozed (alarm w) = false /\ in_window h m (currentTime w) = true.
Proof.
  intros Hh Hm Ht. unfold time_match_condition. rewrite Ht.
  cbn [strict_eq_string].
  rewrite !andb_true_iff, !negb_true_iff, Z.eqb_eq, String.eqb_eq.
  rewrite <- (clock_window h m (currentTime w) Hh Hm).
  rewrite currentTimeStr_hhmm. split.
  - intros [[[[He Hr] Hs] E] Hsec].
    apply hhmm_injective in E; auto using getHours_range, getMinutes_range.
    destruct E as [E1 E2]. repeat split; assumption.
  - intros (He & Hr & Hs & Eh & Em & Hsec). rewrite Eh, Em.
    repeat split; assumption || reflexivity.
Qed.

(** A configured time that is not a well-formed "HH:MM" matches no date. *)
Lemma time_match_condition_malformed (w : World) :
  ~ well_formed_time (time (alarm w)) -> time_match_condition w = false.
Proof.
  intros Hwf. destruct (time_match_condition w) eqn:Hc; [|reflexivity].
  exfalso. apply Hwf. unfold time_match_condition in Hc.
  apply andb_true_iff in Hc. destruct Hc as [Hc _].
  apply andb_true_iff in Hc. destruct Hc as [_ Hs].
  unfold strict_eq_string in Hs.
  destruct (time (alarm w)) as [ | | b | n | s | l | l]; try discriminate Hs.
  apply String.eqb_eq in Hs. subst s.
  exists (getHours (currentTime w)), (getMinutes (currentTime w)).
  auto using getHours_range, getMinutes_range.
Qed.

Lemma tick_ringing_stays ctx (date now : Z) (w : World) :
  isRinging w = true ->
  tick ctx date now w = (Normal tt, snd (setCurrentTime date w)).
Proof.
  intros Hr. rewrite tick_eq. apply checkAlarm_idle. right. exact Hr.
Qed.

Lemma run_ticks_ringing (ticks : list (option AudioContext * Z * Z)) :
  forall w : World, isRinging w = true -> isRinging (run_ticks ticks w) = true.
Proof.
  induction ticks as [|[[ctx date] now] rest IH]; intros w Hr; [exact Hr|].
  cbn [run_ticks]. rewrite tick_ringing_stays by exact Hr. apply IH. exact Hr.
Qed.

Lemma tick_unsnoozed (ctx : option AudioContext) (date now : Z) (w : World) :
  snoozed (alarm w) = false ->
  let w' := snd (tick ctx date now w) in
  alarm w' = alarm w
  /\ isRinging w'
     = (isRinging w || time_match_condition (snd (setCurrentTime date w))).
Proof.
  intros Hs. cbn zeta. rewrite tick_eq.
  destruct (time_match_condition (snd (setCurrentTime date w))) eqn:Hc.
  - rewrite (checkAlarm_time_match _ _ _ Hc).
    match goal with |- context [startAlarmSound ctx ?w0] =>
      destruct (startAlarmSound_state ctx w0) as (_ & Ha & Hr & _)
    end.
    rewrite Ha, Hr. cbn. rewrite orb_true_r. split; reflexivity.
  - rewrite checkAlarm_no_match by assumption. cbn. rewrite orb_false_r.
    split; reflexivity.
Qed.
End Ringing.

(** X2: for a well-formed configured time [h]:[m], a tick rings by time
    match exactly when the alarm is enabled, not ringing and not snoozed and
    the local time of day of the new date lies in the first second of that
    minute. *)
Theorem time_match_window `{Host}
  (ctx : option AudioContext) (date dateNow h m : Z) (w : World) :
  0 <= h < 24 -> 0 <= m < 60 ->
  time (alarm w) = JStr (hhmm h m) ->
  rang_by_time_match (snd (setCurrentTime date w)) (snd (tick ctx date dateNow w))
  = true
  <-> truthy (enabled (alarm w)) = true /\ isRinging w = false
      /\ snoozed (alarm w) = false
      /\ MakeTime h m 0 0 <= TimeWithinDay (LocalTime date)
         < MakeTime h m 0 0 + msPerSecond.
Proof.
  intros Hh Hm Ht. rewrite tick_eq, checkAlarm_rang_iff.
  rewrite (time_match_condition_window h m) by assumption.
  cbn [snd setCurrentTime alarm isRinging currentTime].
  unfold in_window. rewrite andb_true_iff, Z.leb_le, Z.ltb_lt. tauto.
Qed.

Lemma time_match_window_witness :
  let w := armed_0700 (date_2024_01_01 6 59 59) in
  let date := date_2024_01_01 7 0 0 + 250 in
  time (alarm w) = JStr (hhmm 7 0)
  /\ MakeTime 7 0 0 0 <= TimeWithinDay (LocalTime (H:=utcHost) date)
     < MakeTime 7 0 0 0 + msPerSecond
  /\ rang_by_time_match (snd (setCurrentTime date w))
       (snd (tick audio_ok date date w)) = true.
Proof.
  cbn zeta.
  assert (Hwin : MakeTime 7 0 0 0
                 <= TimeWithinDay (LocalTime (H:=utcHost) (date_2024_01_01 7 0 0 + 250))
                 < MakeTime 7 0 0 0 + msPerSecond)
    by (vm_compute; split; [discriminate | reflexivity]).
  split; [reflexivity|]. split; [exact Hwin|].
  apply (time_match_window audio_ok _ _ 7 0); try lia; try reflexivity.
  repeat split; exact (proj1 Hwin) || exact (proj2 Hwin) || reflexivity.
Defined.

(** X3: over any sequence of ticks, an armed alarm with a well-formed
    configured time ends up ringing exactly when some tick carried a date in
    the first second of the configured minute; a clock that skips that
    second leaves the alarm silent. *)
Theorem ticks_ring_iff_tick_in_window `{Host}
  (ticks : list (option AudioContext * Z * Z)) (h m : Z) :
  0 <= h < 24 -> 0 <= m < 60 ->
  forall w : World,
    time (alarm w) = JStr (hhmm h m) ->
    truthy (enabled (alarm w)) = true ->
    isRinging w = false -> snoozed (alarm w) = false ->
    isRinging (run_ticks ticks w)
    = existsb (fun t => in_window h m (snd (fst t))) ticks.
Proof.
  intros Hh Hm.
  induction ticks as [|[[ctx date] now] rest IH]; intros w Ht He Hr Hs;
    [exact Hr|].
  cbn [run_ticks existsb fst snd].
  destruct (tick_unsnoozed ctx date now w Hs) as [Ha Hring].
  rewrite Hr in Hring. cbn [orb] in Hring.
  destruct (in_window h m date) eqn:Hwin; cbn [orb].
  - apply run_ticks_ringing. rewrite Hring.
    apply (time_match_condition_window h m); auto.
  - apply IH; rewrite ?Ha; auto. rewrite Hring.
    destruct (time_match_condition (snd (setCurrentTime date w))) eqn:Hc;
      [|reflexivity].
    apply (time_match_condition_window h m) in Hc; auto.
    destruct Hc as (_ & _ & _ & Hc). cbn in Hc. congruence.
Qed.

Lemma ticks_ring_iff_tick_in_window_witness :
  let w := armed_0700 (date_2024_01_01 6 59 58) in
  let d := date_2024_01_01 in
  isRinging (run_ticks [(audio_ok, d 6 59 59 + 990, d 6 59 59 + 990);
                        (audio_ok, d 7 0 1 + 10, d 7 0 1 + 10)] w) = false
  /\ isRinging (run_ticks [(audio_ok, d 6 59 59 + 990, d 6 59 59 + 990);
                           (audio_ok, d 7 0 0 + 995, d 7 0 0 + 995)] w) = true.
Proof.
  cbn zeta. split.
  - rewrite (ticks_ring_iff_tick_in_window _ 7 0); try lia; reflexivity.
  - rewrite (ticks_ring_iff_tick_in_window _ 7 0); try lia; reflexivity.
Defined.

(** X4: a disabled alarm, and an unsnoozed alarm whose configured time is
    not a well-formed "HH:MM" (a string such as "7:00" or "25:99", or no
    string at all), is never rung by the clock: any sequence of ticks
    changes nothing but the stored date. *)
Theorem no_ring_without_match `{Host}
  (ticks : list (option AudioContext * Z * Z)) (w : World) :
  truthy (enabled (alarm w)) = false
  \/ (snoozed (alarm w) = false /\ ~ well_formed_time (time (alarm w))) ->
  exists d, run_ticks ticks w = snd (setCurrentTime d w).
Proof.
  revert w. induction ticks as [|[[ctx date] now] rest IH]; intros w Hcase.
  - exists (currentTime w). destruct w; reflexivity.
  - cbn [run_ticks].
    assert (Hq : tick ctx date now w = (Normal tt, snd (setCurrentTime date w))).
    { rewrite tick_eq. destruct Hcase as [He | [Hs Hwf]].
      - apply checkAlarm_idle. left. exact He.
      - apply checkAlarm_no_match; [exact Hs|].
        apply time_match_condition_malformed. exact Hwf. }
    rewrite Hq. cbn [snd].
    destruct (IH (snd (setCurrentTime date w)) Hcase) as [d Hd].
    exists d. rewrite Hd. reflexivity.
Qed.

Lemma no_ring_without_match_witness :
  let d := date_2024_01_01 in
  let w := mkWorld (H:=utcHost) (d 6 59 59)
             (mkAlarm (JStr "7:00") (JBool true) false None [])
             false None None None None in
  snoozed (alarm w) = false
  /\ ~ well_formed_time (time (alarm w))
  /\ exists t, run_ticks [(audio_ok, d 7 0 0, d 7 0 0)] w = snd (setCurrentTime t w).
Proof.
  cbn zeta.
  assert (Hwf : ~ well_formed_time (JStr "7:00")).
  { intros (h & m & Hh & Hm & E). injection E as E.
    apply (f_equal String.length) in E.
    rewrite hhmm_length in E by assumption. discriminate E. }
  split; [reflexivity|]. split; [exact Hwf|].
  apply no_ring_without_match. right. split; [reflexivity | exact Hwf].
Defined.

(** ** Leaving the ringing state *)

(** X5: the toggle and a time edit never silence the alarm: from any world
    their handlers complete, clear both snooze fields and leave the ringing
    flag and the three audio refs as they are. While the alarm rings, a
    tick, a toggle or a time edit leaves it ringing with its sound session;
    only the snooze and dismiss handlers clear the flag. *)
Theorem only_snooze_and_dismiss_silence `{Host} (i : Input) (w : World) :
  (forall ev, ev = ClickToggle \/ (exists t, ev = ChangeTime t) ->
     let w1 := snd (handler ev w) in
     fst (handler ev w) = Normal tt
     /\ snoozed (alarm w1) = false /\ snoozeUntil (alarm w1) = None
     /\ isRinging w1 = isRinging w
     /\ audioContextRef w1 = audioContextRef w
     /\ oscillatorRef w1 = oscillatorRef w /\ gainRef w1 = gainRef w)
  /\ (isRinging w = true ->
      clock_or_answer i = false \/ (exists d, event i = Tick d) ->
      let w' := snd (step i w) in
      fst (step i w) = Normal tt
      /\ isRinging w' = true
      /\ audioContextRef w' = audioContextRef w
      /\ oscillatorRef w' = oscillatorRef w /\ gainRef w' = gainRef w)
  /\ (isRinging w = true ->
      isRinging (snd (step i w)) = false ->
      event i = ClickDismiss \/ exists n, event i = ClickSnooze n).
Proof.
  assert (Hkeep : isRinging w = true ->
            clock_or_answer i = false \/ (exists d, event i = Tick d) ->
            step i w = (Normal tt,
                        snd (setItem (storage (snd (step i w)))
                               (snd (handler (event i) w))))
            /\ isRinging (snd (handler (event i) w)) = true
            /\ audioContextRef (snd (handler (event i) w)) = audioContextRef w
            /\ oscillatorRef (snd (handler (event i) w)) = oscillatorRef w
            /\ gainRef (snd (handler (event i) w)) = gainRef w).
  { intros Hr Hev.
    assert (Hon : rendered (event i) w = true).
    { unfold clock_or_answer in Hev.
      destruct (event i); try reflexivity;
        destruct Hev as [Hev | [d Hev]]; discriminate Hev. }
    assert (Hh : isRinging (snd (handler (event i) w)) = true
                 /\ audioContextRef (snd (handler (event i) w)) = audioContextRef w
                 /\ oscillatorRef (snd (handler (event i) w)) = oscillatorRef w
                 /\ gainRef (snd (handler (event i) w)) = gainRef w).
    { unfold clock_or_answer in Hev.
      destruct (event i); cbn; auto;
        destruct Hev as [Hev | [d Hev]]; discriminate Hev. }
    split; [|exact Hh].
    rewrite (step_eq_explicit i w Hon). rewrite checkAlarm_storage.
    rewrite checkAlarm_idle by (right; apply Hh). reflexivity. }
  split; [|split].
  - intros ev [-> | [t ->]]; cbn; repeat split.
  - intros Hr Hev. destruct (Hkeep Hr Hev) as (Hstep & Hr1 & Hc & Ho & Hg).
    cbn zeta. rewrite Hstep. cbn [fst snd setItem isRinging audioContextRef
                                    oscillatorRef gainRef].
    auto.
  - intros Hr Hoff.
    assert (Hcases : (event i = ClickDismiss \/ exists n, event i = ClickSnooze n)
                     \/ (clock_or_answer i = false \/ exists d, event i = Tick d)).
    { unfold clock_or_answer. destruct (event i); eauto. }
    destruct Hcases as [Hc | Hc]; [exact Hc|]. exfalso.
    destruct (Hkeep Hr Hc) as (Hstep & Hr1 & _).
    rewrite Hstep in Hoff. cbn [snd setItem isRinging] in Hoff. congruence.
Qed.

Lemma only_snooze_and_dismiss_silence_witness :
  let d := date_2024_01_01 in
  let ringing := snd (tick audio_ok (d 7 0 0) (d 7 0 0) (armed_0700 (d 6 59 59))) in
  let off := snd (step (mkInput ClickToggle (d 7 0 2) audio_ok) ringing) in
  isRinging ringing = true
  /\ truthy (enabled (alarm off)) = false
  /\ isRinging off = true
  /\ oscillatorRef off = oscillatorRef ringing.
Proof.
  cbn zeta.
  destruct (only_snooze_and_dismiss_silence
              (mkInput ClickToggle (date_2024_01_01 7 0 2) audio_ok)
              (snd (tick audio_ok (date_2024_01_01 7 0 0) (date_2024_01_01 7 0 0)
                      (armed_0700 (date_2024_01_01 6 59 59)))))
    as (_ & Hkeep & _).
  destruct Hkeep as (_ & Hr & _ & Ho & _); [reflexivity | left; reflexivity |].
  split; [reflexivity|]. split; [reflexivity|]. split; [exact Hr | exact Ho].
Defined.

(** ** Invariants of the reachable worlds *)

Section WorldInvariants.
Context `{Host}.

(** What the alarm check does: nothing; or, for a silent alarm, the
    time-match branch; or the snooze branch. *)
Lemma checkAlarm_outcome ctx n (w : World) :
  checkAlarm ctx n w = (Normal tt, w)
  \/ (isRinging w = false /\ snoozed (alarm w) = false
      /\ checkAlarm ctx n w = startAlarmSound ctx (snd (setIsRinging true w)))
  \/ (isRinging w = false /\ snoozed (alarm w) = true
      /\ checkAlarm ctx n w
         = startAlarmSound ctx
             (mkWorld (currentTime w)
                (mkAlarm (time (alarm w)) (enabled (alarm w)) false None
                   (others (alarm w)))
                true (audioContextRef w) (oscillatorRef w) (gainRef w)
                (storage w))).
Proof.
  destruct (isRinging w) eqn:Hr; [left; apply checkAlarm_idle; auto|].
  destruct (truthy (enabled (alarm w))) eqn:He;
    [|left; apply checkAlarm_idle; auto].
  destruct (snoozed (alarm w)) eqn:Hs.
  - destruct (snoozeUntil (alarm w)) as [u|] eqn:Hu.
    + destruct (Z.eq_dec u 0) as [-> | Hz].
      * left. unfold checkAlarm. cbn -[currentTimeStr getSeconds].
        rewrite He, Hr, Hs, Hu. cbn -[currentTimeStr getSeconds].
        rewrite andb_false_r. reflexivity.
      * destruct (Z.le_gt_cases u n) as [Hle | Hgt].
        -- right. right. split; [reflexivity|]. split; [reflexivity|].
           apply (checkAlarm_snooze_expired ctx n u); assumption.
        -- left. apply checkAlarm_snoozed_waits; [exact Hs|].
           intros u' Hu'. rewrite Hu in Hu'. injection Hu' as <-. lia.
    + left. apply checkAlarm_snoozed_waits; [exact Hs|].
      intros u' Hu'. rewrite Hu in Hu'. discriminate Hu'.
  - destruct (time_match_condition w) eqn:Hc.
    + right. left. split; [reflexivity|]. split; [reflexivity|].
      apply checkAlarm_time_match. exact Hc.
    + left. apply checkAlarm_no_match; assumption.
Qed.

(** What starting the sound does. *)
Lemma startAlarmSound_outcome ctx (w : World) :
  (audioContextRef w <> None /\ startAlarmSound ctx w = (Normal tt, w))
  \/ (audioContextRef w = None /\ ctx = None
      /\ startAlarmSound ctx w = (Throw AudioUnavailable, w))
  \/ (audioContextRef w = None
      /\ exists c, ctx = Some c
         /\ startAlarmSound ctx w
            = (Normal tt, mkWorld (currentTime w) (alarm w) (isRinging w) (Some c)
                            (Some (createOscillator c)) (Some (createGain c))
                            (storage w))).
Proof.
  destruct (audioContextRef w) as [c0|] eqn:Hc.
  - left. split; [discriminate|]. apply startAlarmSound_active.
    rewrite Hc. discriminate.
  - right. destruct ctx as [c|].
    + right. split; [reflexivity|]. exists c. split; [reflexivity|].
      apply startAlarmSound_new. exact Hc.
    + left. split; [reflexivity|]. split; [reflexivity|].
      apply startAlarmSound_unavailable. exact Hc.
Qed.

Lemma snooze_consistent_checkAlarm ctx n (w : World) :
  snooze_consistent w -> snooze_consistent (snd (checkAlarm ctx n w)).
Proof.
  intros [Hsu Hrs].
  destruct (checkAlarm_outcome ctx n w) as [-> | [(Hr & Hs & ->) | (Hr & Hs & ->)]];
    [split; assumption | |];
    match goal with |- snooze_consistent (snd (startAlarmSound ctx ?w0)) =>
      destruct (startAlarmSound_state ctx w0) as (_ & Ha & _ & _)
    end;
    unfold snooze_consistent; rewrite Ha; cbn.
  - split; [exact Hsu | intros _; exact Hs].
  - split; [split; [discriminate | intros E; contradiction E; reflexivity]
           | reflexivity].
Qed.

Lemma snooze_consistent_handler (ev : Event) (w : World) :
  snooze_consistent w -> snooze_consistent (snd (handler ev w)).
Proof.
  intros [Hsu Hrs]. unfold snooze_consistent.
  destruct ev; cbn -[handleSnooze handleDismiss];
    rewrite ?handleSnooze_eq, ?handleDismiss_eq; cbn.
  - split; assumption.
  - split; [split; [discriminate | reflexivity] | discriminate].
  - split; [split; [discriminate | intros E; contradiction E; reflexivity]
           | reflexivity].
  - split; [split; [discriminate | intros E; contradiction E; reflexivity]
           | reflexivity].
  - split; [split; [discriminate | intros E; contradiction E; reflexivity]
           | reflexivity].
Qed.

Lemma sound_consistent_checkAlarm ctx n (w : World) :
  sound_consistent w -> sound_consistent (snd (checkAlarm ctx n w)).
Proof.
  intros (Ho & Hg & Hr).
  assert (Hstart : forall w0 : World,
            audioContextRef w0 = audioContextRef w ->
            oscillatorRef w0 = oscillatorRef w -> gainRef w0 = gainRef w ->
            isRinging w0 = true ->
            sound_consistent (snd (startAlarmSound ctx w0))).
  { intros w0 Ec Eo Eg Er. unfold sound_consistent.
    destruct (startAlarmSound_outcome ctx w0)
      as [(_ & ->) | [(_ & _ & ->) | (_ & c & _ & ->)]]; cbn [snd].
    - rewrite Ec, Eo, Eg, Er. tauto.
    - rewrite Ec, Eo, Eg, Er. tauto.
    - cbn. intuition discriminate. }
  destruct (checkAlarm_outcome ctx n w) as [-> | [(_ & _ & ->) | (_ & _ & ->)]].
  - unfold sound_consistent. tauto.
  - apply Hstart; reflexivity.
  - apply Hstart; reflexivity.
Qed.

Lemma sound_consistent_handler (ev : Event) (w : World) :
  sound_consistent w -> sound_consistent (snd (handler ev w)).
Proof.
  intros (Ho & Hg & Hr). unfold sound_consistent.
  destruct ev; cbn -[handleSnooze handleDismiss];
    rewrite ?handleSnooze_eq, ?handleDismiss_eq; cbn;
    intuition congruence.
Qed.

(** Both invariants ignore the stored item. *)
Lemma consistent_step (P : World -> Prop) (i : Input) (w : World) :
  (forall s v, P v -> P (snd (setItem s v))) ->
  (forall ev v, P v -> P (snd (handler ev v))) ->
  (forall ctx n v, P v -> P (snd (checkAlarm ctx n v))) ->
  P w -> P (snd (step i w)).
Proof.
  intros Hitem Hhandler Hcheck Hw.
  destruct (rendered (event i) w) eqn:Hon;
    [|rewrite step_not_rendered by exact Hon; exact Hw].
  rewrite (step_eq_explicit i w Hon). apply Hcheck, Hitem, Hhandler, Hw.
Qed.

Lemma consistent_mount (P : World -> Prop) ctx n (w0 : World) :
  (forall s v, P v -> P (snd (setItem s v))) ->
  (forall ctx n v, P v -> P (snd (checkAlarm ctx n v))) ->
  P w0 -> P (snd (mountEffects ctx n w0)).
Proof.
  intros Hitem Hcheck Hw.
  change (mountEffects ctx n w0)
    with (checkAlarm ctx n (snd (setItem (savedItem (alarm w0)) w0))).
  apply Hcheck, Hitem, Hw.
Qed.

(** A freshly initialised world: silent, unsnoozed, no audio refs. *)
Lemma initialWorld_fresh (saved : option string) (date : Z) (w0 : World) :
  initialWorld saved date = Normal w0 ->
  snoozed (alarm w0) = false /\ snoozeUntil (alarm w0) = None
  /\ isRinging w0 = false
  /\ audioContextRef w0 = None /\ oscillatorRef w0 = None /\ gainRef w0 = None.
Proof.
  unfold initialWorld, initialAlarm.
  destruct saved as [s|]; [destruct (truthy (JStr s)); [destruct (JSON_parse s)|]|];
    cbn; try discriminate; intros [= <-]; cbn; repeat split.
Qed.

Lemma reachable_snooze_consistent (w : World) :
  reachable w -> snooze_consistent w.
Proof.
  assert (Hitem : forall s (v : World),
            snooze_consistent v -> snooze_consistent (snd (setItem s v)))
    by (intros s v Hv; exact Hv).
  assert (Hfresh : forall saved date (w0 : World),
            initialWorld saved date = Normal w0 -> snooze_consistent w0).
  { intros saved date w0 Hinit.
    destruct (initialWorld_fresh saved date w0 Hinit) as (Hs & Hu & _).
    unfold snooze_consistent. rewrite Hs, Hu.
    split; [split; [discriminate | intros E; contradiction E; reflexivity]
           | reflexivity]. }
  induction 1 as [date n ctx w0 Hinit | i w Hw IH | date n ctx w w0 Hw IH Hinit].
  - apply consistent_mount;
      eauto using snooze_consistent_checkAlarm.
  - apply consistent_step;
      eauto using snooze_consistent_checkAlarm, snooze_consistent_handler.
  - apply consistent_mount; eauto using snooze_consistent_checkAlarm.
Qed.

Lemma reachable_sound_consistent (w : World) :
  reachable w -> sound_consistent w.
Proof.
  assert (Hitem : forall s (v : World),
            sound_consistent v -> sound_consistent (snd (setItem s v)))
    by (intros s v Hv; exact Hv).
  assert (Hfresh : forall saved date (w0 : World),
            initialWorld saved date = Normal w0 -> sound_consistent w0).
  { intros saved date w0 Hinit.
    destruct (initialWorld_fresh saved date w0 Hinit)
      as (_ & _ & _ & Hc & Ho & Hg).
    unfold sound_consistent. rewrite Hc, Ho, Hg. intuition congruence. }
  induction 1 as [date n ctx w0 Hinit | i w Hw IH | date n ctx w w0 Hw IH Hinit].
  - apply consistent_mount; eauto using sound_consistent_checkAlarm.
  - apply consistent_step;
      eauto using sound_consistent_checkAlarm, sound_consistent_handler.
  - apply consistent_mount; eauto using sound_consistent_checkAlarm.
Qed.

Lemma running_reachable (w : World) : running w -> reachable w.
Proof.
  induction 1 as [date n ctx w0 Hinit _ | i w _ IH _
                 | date n ctx w w0 _ IH Hinit _].
  - eapply reach_first; eassumption.
  - apply reach_step. exact IH.
  - eapply reach_reload; eassumption.
Qed.

(** When the check completes normally, a ringing alarm has its session. *)
Lemma ring_has_sound_checkAlarm ctx n (w : World) :
  (isRinging w = true -> audioContextRef w <> None) ->
  fst (checkAlarm ctx n w) = Normal tt ->
  isRinging (snd (checkAlarm ctx n w)) = true ->
  audioContextRef (snd (checkAlarm ctx n w)) <> None.
Proof.
  intros Hinv.
  assert (Hstart : forall w0 : World,
            fst (startAlarmSound ctx w0) = Normal tt ->
            audioContextRef (snd (startAlarmSound ctx w0)) <> None).
  { intros w0.
    destruct (startAlarmSound_outcome ctx w0)
      as [(Hc & ->) | [(_ & _ & ->) | (_ & c & _ & ->)]]; cbn [fst snd].
    - intros _. exact Hc.
    - discriminate.
    - intros _. cbn. discriminate. }
  destruct (checkAlarm_outcome ctx n w) as [-> | [(_ & _ & ->) | (_ & _ & ->)]].
  - intros _. exact Hinv.
  - intros Hn _. apply Hstart. exact Hn.
  - intros Hn _. apply Hstart. exact Hn.
Qed.

Lemma ring_has_sound_handler (ev : Event) (w : World) :
  (isRinging w = true -> audioContextRef w <> None) ->
  isRinging (snd (handler ev w)) = true ->
  audioContextRef (snd (handler ev w)) <> None.
Proof.
  intros Hinv.
  destruct ev; cbn -[handleSnooze handleDismiss];
    rewrite ?handleSnooze_eq, ?handleDismiss_eq; cbn; auto; discriminate.
Qed.

Lemma running_ring_has_sound (w : World) :
  running w -> isRinging w = true -> audioContextRef w <> None.
Proof.
  induction 1 as [date n ctx w0 Hinit Hn | i w Hw IH Hn
                 | date n ctx w w0 Hw IH Hinit Hn].
  - revert Hn.
    change (mountEffects ctx n w0)
      with (checkAlarm ctx n (snd (setItem (savedItem (alarm w0)) w0))).
    apply ring_has_sound_checkAlarm. cbn.
    destruct (initialWorld_fresh _ _ _ Hinit) as (_ & _ & Hr & _).
    rewrite Hr. discriminate.
  - destruct (rendered (event i) w) eqn:Hon;
      [|rewrite step_not_rendered by exact Hon; exact IH].
    revert Hn. rewrite (step_eq_explicit i w Hon).
    apply ring_has_sound_checkAlarm. cbn [snd setItem isRinging audioContextRef].
    apply ring_has_sound_handler. exact IH.
  - revert Hn.
    change (mountEffects ctx n w0)
      with (checkAlarm ctx n (snd (setItem (savedItem (alarm w0)) w0))).
    apply ring_has_sound_checkAlarm. cbn.
    destruct (initialWorld_fresh _ _ _ Hinit) as (_ & _ & Hr & _).
    rewrite Hr. discriminate.
Qed.
End WorldInvariants.

(** X6: in every reachable world the two snooze fields go together
    ([snoozed] is true exactly when [snoozeUntil] is not [null]) and a
    ringing alarm is not snoozed. *)
Theorem reachable_snooze_fields `{Host} (w : World) :
  reachable w ->
  (snoozed (alarm w) = true <-> snoozeUntil (alarm w) <> None)
  /\ (isRinging w = true -> snoozed (alarm w) = false).
Proof. apply reachable_snooze_consistent. Qed.

(** X7: in every reachable world the three audio refs are set together and
    only while the alarm rings, so no sound outlives the ringing state; and
    as long as no effect has raised, the alarm rings exactly when a sound
    session is held. *)
Theorem sound_session_tracks_ringing `{Host} (w : World) :
  (reachable w ->
     (audioContextRef w = None <-> oscillatorRef w = None)
     /\ (audioContextRef w = None <-> gainRef w = None)
     /\ (audioContextRef w <> None -> isRinging w = true))
  /\ (running w -> (isRinging w = true <-> audioContextRef w <> None)).
Proof.
  split; [apply reachable_sound_consistent|].
  intros Hrun. split; [apply running_ring_has_sound; exact Hrun|].
  apply (reachable_sound_consistent w (running_reachable w Hrun)).
Qed.

Lemma reachable_snooze_fields_witness :
  let d := date_2024_01_01 in
  let w := snd (step (mkInput (ClickSnooze (d 7 0 5)) (d 7 0 5) audio_ok)
             (snd (step (mkInput (Tick (d 7 0 0)) (d 7 0 0) audio_ok)
                (snd (step (mkInput ClickToggle (d 6 0 1) audio_ok)
                   (snd (mountEffects audio_ok (d 6 0 0)
                           (mkWorld (d 6 0 0) defaultAlarm false None None None
                              None)))))))) in
  reachable (H:=utcHost) w
  /\ snoozed (alarm w) = true
  /\ snoozeUntil (alarm w) <> None
  /\ isRinging w = false.
Proof.
  cbn zeta.
  match goal with |- reachable ?w /\ _ => assert (Hr : reachable w) end.
  { do 3 apply reach_step.
    apply reach_first with (date := date_2024_01_01 6 0 0). reflexivity. }
  destruct (reachable_snooze_fields _ Hr) as [Hiff _].
  split; [exact Hr|]. split; [reflexivity|]. split; [|reflexivity].
  apply Hiff. reflexivity.
Defined.

Lemma sound_session_tracks_ringing_witness :
  let d := date_2024_01_01 in
  let w := snd (step (mkInput (Tick (d 7 0 0)) (d 7 0 0) audio_ok)
             (snd (step (mkInput ClickToggle (d 6 0 1) audio_ok)
                (snd (mountEffects audio_ok (d 6 0 0)
                        (mkWorld (d 6 0 0) defaultAlarm false None None None
                           None)))))) in
  running (H:=utcHost) w
  /\ isRinging w = true
  /\ audioContextRef w <> None
  /\ (audioContextRef w = None <-> oscillatorRef w = None).
Proof.
  cbn zeta.
  match goal with |- running ?w /\ _ => assert (Hr : running w) end.
  { apply run_step; [apply run_step; [|reflexivity] | reflexivity].
    apply run_first with (date := date_2024_01_01 6 0 0); reflexivity. }
  destruct (sound_session_tracks_ringing
              (snd (step (mkInput (Tick (date_2024_01_01 7 0 0))
                            (date_2024_01_01 7 0 0) audio_ok)
                 (snd (step (mkInput ClickToggle (date_2024_01_01 6 0 1) audio_ok)
                    (snd (mountEffects audio_ok (date_2024_01_01 6 0 0)
                            (mkWorld (date_2024_01_01 6 0 0) defaultAlarm false
                               None None None None))))))))
    as [Hreach Hrun].
  destruct (Hreach (running_reachable _ Hr)) as (Ho & _ & _).
  split; [exact Hr|]. split; [reflexivity|].
  split; [apply (Hrun Hr); reflexivity | exact Ho].
Defined.

(** ** The sound controller *)

(** X8: [stopAlarmSound] never raises and leaves no audio ref, so it is
    idempotent and safe when nothing was started; once [startAlarmSound]
    has made a session, a second start changes nothing, whatever context is
    on offer (no second session); stopping after a start is the same as
    stopping; and a start after a stop makes a new session from the context
    on offer. *)
Theorem sound_controller_laws `{Host}
  (w : World) (c : AudioContext) (ctx ctx' : option AudioContext) :
  let stopped := snd (stopAlarmSound w) in
  let started := snd (startAlarmSound (Some c) stopped) in
  fst (stopAlarmSound w) = Normal tt
  /\ audioContextRef stopped = None /\ oscillatorRef stopped = None
  /\ gainRef stopped = None
  /\ isRinging stopped = isRinging w /\ alarm stopped = alarm w
  /\ stopAlarmSound stopped = (Normal tt, stopped)
  /\ snd (stopAlarmSound (snd (startAlarmSound ctx w))) = stopped
  /\ audioContextRef started = Some c
  /\ oscillatorRef started = Some (createOscillator c)
  /\ gainRef started = Some (createGain c)
  /\ startAlarmSound ctx' started = (Normal tt, started).
Proof.
  cbn zeta. rewrite !stopAlarmSound_eq. cbn [fst snd].
  rewrite startAlarmSound_new by reflexivity. cbn [snd].
  repeat split.
  destruct (startAlarmSound_state ctx w) as (Hc & Ha & Hr & Hs).
  rewrite Hc, Ha, Hr, Hs. reflexivity.
Qed.

(** ** Writes of the stored item *)

(** X9: ticks and snoozes never write the stored item; after any event the
    stored item is either what it was or the serialisation of the new
    [time] and [enabled]. *)
Theorem storage_written_only_on_change `{Host} (i : Input) (w : World) :
  ((exists d, event i = Tick d) \/ (exists n, event i = ClickSnooze n) ->
     storage (snd (step i w)) = storage w)
  /\ (storage (snd (step i w)) = storage w
      \/ storage (snd (step i w)) = savedItem (alarm (snd (step i w)))).
Proof.
  destruct (rendered (event i) w) eqn:Hon.
  2:{ rewrite step_not_rendered by exact Hon. cbn. auto. }
  rewrite (step_eq_explicit i w Hon).
  set (w1 := snd (handler (event i) w)).
  assert (Hgen : forall s,
            storage (snd (checkAlarm (newAudioContext i) (effectNow i)
                            (snd (setItem s w1)))) = s
            /\ savedItem (alarm (snd (checkAlarm (newAudioContext i) (effectNow i)
                                        (snd (setItem s w1)))))
               = savedItem (alarm w1)).
  { intros s.
    destruct (checkAlarm_config (newAudioContext i) (effectNow i)
                (snd (setItem s w1))) as (Ht & He & Hs).
    split; [exact Hs|]. unfold savedItem. rewrite Ht, He. reflexivity. }
  assert (Hst : storage w1 = storage w).
  { unfold w1. destruct (event i); cbn -[handleSnooze handleDismiss];
      rewrite ?handleSnooze_eq, ?handleDismiss_eq; reflexivity. }
  split.
  - intros Hev.
    assert (Hsame : time (alarm w1) = time (alarm w)
                    /\ enabled (alarm w1) = enabled (alarm w)).
    { unfold w1. destruct Hev as [[d ->] | [n ->]]; cbn -[handleSnooze];
        rewrite ?handleSnooze_eq; split; reflexivity. }
    destruct Hsame as [-> ->]. rewrite !same_value_refl. cbn [andb].
    rewrite (proj1 (Hgen _)). exact Hst.
  - destruct (Hgen (if same_value (time (alarm w)) (time (alarm w1))
                       && same_value (enabled (alarm w)) (enabled (alarm w1))
                    then storage w1 else savedItem (alarm w1))) as [-> ->].
    case_if; [left; exact Hst | right; reflexivity].
Qed.

Lemma storage_written_only_on_change_witness :
  let d := date_2024_01_01 in
  let w := armed_0700 (d 6 59 59) in
  storage (snd (step (mkInput (Tick (d 7 0 0)) (d 7 0 0) audio_ok) w)) = storage w
  /\ storage (snd (step (mkInput ClickToggle (d 7 0 0) audio_ok) w))
     = Some (js "{'time':'07:00','enabled':false}").
Proof.
  cbn zeta. split; [|reflexivity].
  apply storage_written_only_on_change. left. eexists. reflexivity.
Defined.

(** ** Re-running the alarm check *)

(** X10: when the alarm check has changed the state, the alarm rings, and
    a further run of the check (React runs the effect again because its
    dependencies changed) changes nothing, whatever the clock reads and
    whatever audio context is on offer. *)
Theorem checkAlarm_settles `{Host}
  (ctx ctx' : option AudioContext) (n n' : Z) (w : World) :
  snd (checkAlarm ctx n w) <> w ->
  isRinging (snd (checkAlarm ctx n w)) = true
  /\ checkAlarm ctx' n' (snd (checkAlarm ctx n w))
     = (Normal tt, snd (checkAlarm ctx n w)).
Proof.
  intros Hchanged.
  assert (Hr : isRinging (snd (checkAlarm ctx n w)) = true).
  { destruct (checkAlarm_outcome ctx n w)
      as [E | [(_ & _ & E) | (_ & _ & E)]]; rewrite E in *.
    - contradiction Hchanged. reflexivity.
    - match goal with |- context [startAlarmSound ctx ?w0] =>
        destruct (startAlarmSound_state ctx w0) as (_ & _ & -> & _)
      end. reflexivity.
    - match goal with |- context [startAlarmSound ctx ?w0] =>
        destruct (startAlarmSound_state ctx w0) as (_ & _ & -> & _)
      end. reflexivity. }
  split; [exact Hr|]. apply checkAlarm_idle. right. exact Hr.
Qed.

Lemma checkAlarm_settles_witness :
  let d := date_2024_01_01 in
  let w := armed_0700 (d 7 0 0) in
  snd (checkAlarm audio_ok (d 7 0 0) w) <> w
  /\ checkAlarm audio_unavailable (d 7 0 1) (snd (checkAlarm audio_ok (d 7 0 0) w))
     = (Normal tt, snd (checkAlarm audio_ok (d 7 0 0) w)).
Proof.
  cbn zeta.
  assert (Hne : snd (checkAlarm audio_ok (date_2024_01_01 7 0 0)
                       (armed_0700 (date_2024_01_01 7 0 0)))
                <> armed_0700 (date_2024_01_01 7 0 0)).
  { intros E. apply (f_equal isRinging) in E. discriminate E. }
  split; [exact Hne|].
  apply (checkAlarm_settles audio_ok audio_unavailable _ _ _ Hne).
Defined.

(** ** The clock face *)

(** X11: [formatTime] shows a two-digit hour between 1 and 12, the two-digit
    minute and "AM" or "PM", with "PM" exactly from 12:00 on; the hour of
    the day is recovered from the shown hour and the half of the day, so
    the clock face determines the hour and the minute. *)
Theorem formatTime_round_trip `{Host} (d : Z) :
  let f := formatTime d in
  String.length (hours f) = 2%nat /\ String.length (minutes f) = 2%nat
  /\ (ampm f = "AM" \/ ampm f = "PM")
  /\ (ampm f = "PM" <-> 12 <= getHours d)
  /\ Number (minutes f) = Normal (Some (getMinutes d))
  /\ exists shown,
       Number (hours f) = Normal (Some shown) /\ 1 <= shown <= 12
       /\ getHours d
          = shown mod 12 + (if String.eqb (ampm f) "PM" then 12 else 0).
Proof.
  cbn zeta. unfold formatTime. cbn [hours minutes ampm].
  pose proof (getHours_range d) as Hh. pose proof (getMinutes_range d) as Hm.
  set (h := getHours d) in *. set (m := getMinutes d) in *.
  set (shown := if Z.rem h 12 =? 0 then 12 else Z.rem h 12).
  assert (Hshown : 1 <= shown <= 12
                   /\ h = shown mod 12 + (if h >=? 12 then 12 else 0)).
  { unfold shown. rewrite Z.rem_mod_nonneg by lia.
    destruct (Z.eqb_spec (h mod 12) 0); destruct (Z.geb_spec h 12);
      Z.to_euclidean_division_equations; lia. }
  destruct Hshown as [Hrange Hrec].
  destruct (pad2_parses shown ltac:(lia)) as [Lh Nh].
  destruct (pad2_parses m Hm) as [Lm Nm].
  split; [exact Lh|]. split; [exact Lm|].
  split; [destruct (h >=? 12); auto|].
  split.
  - destruct (Z.geb_spec h 12); split; intros E;
      try reflexivity; try discriminate E; lia.
  - split; [exact Nm|]. exists shown.
    split; [exact Nh|]. split; [exact Hrange|].
    rewrite Hrec at 1. destruct (h >=? 12); reflexivity.
Qed.

(** ** The time-remaining query and the alarm check together *)

Section Countdown.
Context `{Host}.

Lemma next_occurrence_in_window (now h m T : Z) :
  next_occurrence now h m T -> in_window h m T = true.
Proof.
  intros [_ Ht]. unfold in_window. rewrite Ht.
  apply andb_true_iff. rewrite Z.leb_le, Z.ltb_lt.
  unfold msPerSecond. lia.
Qed.

Lemma not_actively_snoozed (dateNow : Z) (a : AlarmState) :
  snoozed a = false -> ~ actively_snoozed dateNow a.
Proof. intros Hs [E _]. rewrite Hs in E. discriminate E. Qed.

(** The hours and minutes until the next occurrence, while the zone keeps
    its offset. *)
Lemma remaining_bounds (now h m T : Z) :
  0 <= h < 24 -> 0 <= m < 60 ->
  steady_zone (now - msPerDay) (now + msPerDay) ->
  next_occurrence now h m T ->
  let hrs := (T - now) / msPerHour in
  let mins := ((T - now) mod msPerHour) / msPerMinute in
  0 <= hrs <= 24 /\ 0 <= mins < 60
  /\ hrs * 60 + mins = (T - now) / msPerMinute
  /\ (hrs = 24 <-> TimeWithinDay (LocalTime now) = MakeTime h m 0 0)
  /\ (hrs = 24 -> mins = 0).
Proof.
  unfold next_occurrence. intros Hh Hm [z Hz] [Hr Ht].
  rewrite (steady_LocalTime _ _ z T Hz) in Ht by (unfold msPerDay in *; lia).
  rewrite (steady_LocalTime _ _ z now Hz) by (unfold msPerDay in *; lia).
  unfold TimeWithinDay, MakeTime, msPerDay, msPerHour, msPerMinute,
    msPerSecond in *.
  cbn zeta.
  repeat split; Z.to_euclidean_division_equations; lia.
Qed.

Lemma split_digits (t : string) : all_digits t = true -> split ":" t = [t].
Proof.
  induction t as [|c t IH]; [reflexivity|].
  cbn [all_digits split]. intros Hd.
  apply andb_true_iff in Hd. destruct Hd as [Hc Ht].
  destruct (Ascii.eqb_spec c ":") as [-> | _]; [discriminate Hc|].
  rewrite (IH Ht). reflexivity.
Qed.
End Countdown.

(** X12: for an armed, silent, unsnoozed alarm with a well-formed
    configured time, while the zone keeps its offset within a day of the
    stored date, the instant that the time-remaining text counts down to is
    an instant at which a tick rings the alarm. *)
Theorem countdown_target_rings `{Host}
  (ctx : option AudioContext) (dateNow n h m : Z) (w : World) :
  truthy (enabled (alarm w)) = true ->
  time (alarm w) = JStr (hhmm h m) -> 0 <= h < 24 -> 0 <= m < 60 ->
  Z.abs (currentTime w) + msPerDay <= MAX_TIME ->
  steady_zone (currentTime w - msPerDay) (currentTime w + msPerDay) ->
  isRinging w = false -> snoozed (alarm w) = false ->
  exists T,
    currentTime w < T <= currentTime w + msPerDay
    /\ fst (getTimeUntilAlarm dateNow w)
       = Normal (Some (remaining_text
                         ((T - currentTime w) / msPerHour)
                         (((T - currentTime w) mod msPerHour) / msPerMinute)))
    /\ isRinging (snd (tick ctx T n w)) = true.
Proof.
  intros He Ht Hh Hm Hrange Hsteady Hr Hs.
  destruct (getTimeUntilAlarm_ordinary dateNow h m w He Ht Hh Hm Hrange Hsteady
              (not_actively_snoozed dateNow _ Hs)) as (T & Hnext & Heq).
  exists T. split; [exact (proj1 Hnext)|]. split; [rewrite Heq; reflexivity|].
  destruct (tick_unsnoozed ctx T n w Hs) as [_ ->]. rewrite Hr. cbn [orb].
  apply (time_match_condition_window h m); auto.
  cbn [snd setCurrentTime alarm isRinging currentTime].
  repeat split; auto. apply (next_occurrence_in_window (currentTime w)).
  exact Hnext.
Qed.

Lemma countdown_target_rings_witness :
  let w := armed_0700 (date_2024_01_01 3 10 5) in
  Z.abs (currentTime w) + msPerDay <= MAX_TIME
  /\ steady_zone (H:=utcHost) (currentTime w - msPerDay) (currentTime w + msPerDay)
  /\ exists T,
       currentTime w < T <= currentTime w + msPerDay
       /\ fst (getTimeUntilAlarm (date_2024_01_01 3 10 5) w)
          = Normal (Some (remaining_text
                            ((T - currentTime w) / msPerHour)
                            (((T - currentTime w) mod msPerHour) / msPerMinute)))
       /\ isRinging (snd (tick audio_ok T T w)) = true.
Proof.
  cbn zeta.
  assert (Hrange : Z.abs (currentTime (armed_0700 (date_2024_01_01 3 10 5)))
                   + msPerDay <= MAX_TIME) by (vm_compute; discriminate).
  split; [exact Hrange|]. split; [apply utc_steady|].
  destruct (countdown_target_rings audio_ok (date_2024_01_01 3 10 5) 0 7 0
              (armed_0700 (date_2024_01_01 3 10 5)))
    as (T & HT & Htext & _); try reflexivity; try lia; try apply utc_steady.
  destruct (countdown_target_rings audio_ok (date_2024_01_01 3 10 5) T 7 0
              (armed_0700 (date_2024_01_01 3 10 5)))
    as (T' & HT' & Htext' & Hring'); try reflexivity; try lia;
    try apply utc_steady.
  exists T'. auto.
Defined.

(** X13: for an enabled alarm with a well-formed configured time that is
    not actively snoozed, while the zone keeps its offset within a day of
    the stored date, the text shows between 0 and 24 hours and between 0
    and 59 minutes, the remaining time rounded down to the minute; it shows
    24 hours, with 0 minutes, exactly when the clock stands at the very
    millisecond of the configured time. *)
Theorem remaining_time_bounds `{Host} (dateNow h m : Z) (w : World) :
  truthy (enabled (alarm w)) = true ->
  time (alarm w) = JStr (hhmm h m) -> 0 <= h < 24 -> 0 <= m < 60 ->
  Z.abs (currentTime w) + msPerDay <= MAX_TIME ->
  steady_zone (currentTime w - msPerDay) (currentTime w + msPerDay) ->
  ~ actively_snoozed dateNow (alarm w) ->
  exists T hrs mins,
    next_occurrence (currentTime w) h m T
    /\ fst (getTimeUntilAlarm dateNow w) = Normal (Some (remaining_text hrs mins))
    /\ 0 <= hrs <= 24 /\ 0 <= mins < 60
    /\ hrs * 60 + mins = (T - currentTime w) / msPerMinute
    /\ (hrs = 24
        <-> TimeWithinDay (LocalTime (currentTime w)) = MakeTime h m 0 0)
    /\ (hrs = 24 -> mins = 0).
Proof.
  intros He Ht Hh Hm Hrange Hsteady Hsn.
  destruct (getTimeUntilAlarm_ordinary dateNow h m w He Ht Hh Hm Hrange Hsteady
              Hsn) as (T & Hnext & Heq).
  exists T, ((T - currentTime w) / msPerHour),
    (((T - currentTime w) mod msPerHour) / msPerMinute).
  split; [exact Hnext|]. split; [rewrite Heq; reflexivity|].
  apply (remaining_bounds (currentTime w) h m T Hh Hm Hsteady Hnext).
Qed.

Lemma remaining_time_bounds_witness :
  let w := armed_0700 (date_2024_01_01 7 0 0) in
  Z.abs (currentTime w) + msPerDay <= MAX_TIME
  /\ steady_zone (H:=utcHost) (currentTime w - msPerDay) (currentTime w + msPerDay)
  /\ ~ actively_snoozed (date_2024_01_01 7 0 0) (alarm w)
  /\ fst (getTimeUntilAlarm (date_2024_01_01 7 0 0) w) = Normal (Some "in 24h 0m")
  /\ exists T hrs mins,
       next_occurrence (H:=utcHost) (currentTime w) 7 0 T
       /\ fst (getTimeUntilAlarm (date_2024_01_01 7 0 0) w)
          = Normal (Some (remaining_text hrs mins))
       /\ 0 <= hrs <= 24 /\ 0 <= mins < 60.
Proof.
  cbn zeta.
  assert (Hrange : Z.abs (currentTime (armed_0700 (date_2024_01_01 7 0 0)))
                   + msPerDay <= MAX_TIME) by (vm_compute; discriminate).
  assert (Hsn : ~ actively_snoozed (date_2024_01_01 7 0 0)
                    (alarm (armed_0700 (date_2024_01_01 7 0 0))))
    by (apply not_actively_snoozed; reflexivity).
  split; [exact Hrange|]. split; [apply utc_steady|].
  split; [exact Hsn|]. split; [reflexivity|].
  destruct (remaining_time_bounds (date_2024_01_01 7 0 0) 7 0
              (armed_0700 (date_2024_01_01 7 0 0)))
    as (T & hrs & mins & Hnext & Htext & Hh & Hm & _);
    try reflexivity; try lia; try assumption; try apply utc_steady.
  exists T, hrs, mins. auto.
Defined.

(** X14: a configured time without a colon (the cleared time input, or
    digits only) leaves the minutes undefined: for an enabled alarm that is
    not actively snoozed the text is "in NaNm". *)
Theorem time_without_colon_shows_NaN `{Host} (dateNow : Z) (t : string) (w : World) :
  truthy (enabled (alarm w)) = true ->
  time (alarm w) = JStr t ->
  t = "" \/ (all_digits t = true /\ digits_val 0 t <= MAX_SAFE) ->
  ~ actively_snoozed dateNow (alarm w) ->
  getTimeUntilAlarm dateNow w = (Normal (Some "in NaNm"), w).
Proof.
  intros He Ht Hd Hsn.
  assert (Hparts : exists v, map_Number (split ":" t) = Normal [Some v]).
  { destruct Hd as [-> | [Hall Hmax]]; [exists 0; reflexivity|].
    rewrite (split_digits t Hall). cbn [map_Number]. unfold Number.
    destruct (String.eqb t ""); [exists 0; reflexivity|].
    rewrite Hall. apply Z.leb_le in Hmax. rewrite Hmax.
    eexists. reflexivity. }
  destruct Hparts as [v Hparts].
  unfold getTimeUntilAlarm, read, lift. cbn [bind ret Monad_M].
  rewrite He, Ht. cbn [negb]. rewrite Hparts. cbn [nth setHours].
  assert (Hnone :
    (if snoozed (alarm w) && truthy_num (snoozeUntil (alarm w))
     then match snoozeUntil (alarm w) with
          | Some u =>
              if 0 <? u - dateNow
              then Some ("Snooze: " ++ String_of_Z (ceil_div (u - dateNow) 60000)
                         ++ "m")%string
              else None
          | None => None
          end
     else None) = None).
  { destruct (snoozed (alarm w)) eqn:Hs; [|reflexivity].
    destruct (snoozeUntil (alarm w)) as [u|] eqn:Hu; [|reflexivity].
    destruct (truthy_num (Some u)); [|reflexivity]. cbn [andb].
    destruct (Z.ltb_spec 0 (u - dateNow)) as [Hpos|]; [|reflexivity].
    exfalso. apply Hsn. split; [exact Hs|]. exists u. split; [exact Hu | lia]. }
  rewrite Hnone. reflexivity.
Qed.

Lemma time_without_colon_shows_NaN_witness :
  let w := mkWorld (H:=utcHost) (date_2024_01_01 6 0 0)
             (mkAlarm (JStr "0700") (JBool true) false None [])
             false None None None None in
  all_digits "0700" = true /\ digits_val 0 "0700" <= MAX_SAFE
  /\ fst (getTimeUntilAlarm (date_2024_01_01 6 0 0) w) = Normal (Some "in NaNm").
Proof.
  cbn zeta.
  assert (Hmax : digits_val 0 "0700" <= MAX_SAFE) by (vm_compute; discriminate).
  split; [reflexivity|]. split; [exact Hmax|].
  rewrite (time_without_colon_shows_NaN _ "0700"); try reflexivity.
  - right. split; [reflexivity | exact Hmax].
  - apply not_actively_snoozed. reflexivity.
Defined.

(** ** Foreign payloads *)

(** X15: a stored payload that parses to a truthy [enabled] without a
    string [time] is accepted by the initialiser, and the first call of the
    time-remaining query, which the render makes for an enabled alarm,
    raises a [TypeError]. *)
Theorem load_then_query_raises `{Host}
  (s : string) (v : JSValue) (date dateNow : Z) :
  s <> "" -> JSON_parse s = Normal v ->
  truthy (obj_get "enabled" (spread v)) = true ->
  (forall t, obj_get "time" (spread v) <> JStr t) ->
  exists w0 : World,
    initialWorld (Some s) date = Normal w0
    /\ isRinging w0 = false
    /\ getTimeUntilAlarm dateNow w0 = (Throw TypeError, w0).
Proof.
  intros Hs Hv He Ht.
  unfold initialWorld, initialAlarm.
  assert (Hne : truthy (JStr s) = true)
    by (cbn; apply negb_true_iff, String.eqb_neq; exact Hs).
  rewrite Hne, Hv. cbn [bind ret Monad_Completion].
  eexists. split; [reflexivity|]. split; [reflexivity|].
  unfold getTimeUntilAlarm, read, throw. cbn [bind ret Monad_M alarm enabled time].
  rewrite He. cbn [negb].
  destruct (obj_get "time" (spread v)) as [ | | b | z | t | l | l];
    try reflexivity.
  contradiction (Ht t). reflexivity.
Qed.

Lemma load_then_query_raises_witness :
  let s := js "{'enabled':true}" in
  s <> ""
  /\ JSON_parse s = Normal (JObj [("enabled", JBool true)])
  /\ exists w0 : @World utcHost,
       initialWorld (Some s) (date_2024_01_01 6 0 0) = Normal w0
       /\ fst (getTimeUntilAlarm (date_2024_01_01 6 0 0) w0) = Throw TypeError.
Proof.
  cbn zeta.
  assert (Hne : js "{'enabled':true}" <> "") by discriminate.
  split; [exact Hne|]. split; [reflexivity|].
  destruct (load_then_query_raises (H:=utcHost) (js "{'enabled':true}")
              (JObj [("enabled", JBool true)])
              (date_2024_01_01 6 0 0) (date_2024_01_01 6 0 0) Hne eq_refl eq_refl)
    as (w0 & Hinit & _ & Hq).
  - intros t. discriminate.
  - exists w0. split; [exact Hinit|]. rewrite Hq. reflexivity.
Defined.

Section Disabled.
Context `{Host}.

Lemma run_ticks_disabled (ticks : list (option AudioContext * Z * Z)) :
  forall w : World,
    truthy (enabled (alarm w)) = false ->
    exists d, run_ticks ticks w = snd (setCurrentTime d w).
Proof.
  induction ticks as [|[[ctx date] now] rest IH]; intros w He.
  - exists (currentTime w). destruct w; reflexivity.
  - cbn [run_ticks]. rewrite tick_eq.
    rewrite checkAlarm_idle by (left; exact He). cbn [snd].
    destruct (IH (snd (setCurrentTime date w)) He) as [d Hd].
    exists d. rewrite Hd. reflexivity.
Qed.
End Disabled.

(** X16: a stored payload that parses to a number, a boolean or [null]
    spreads to nothing: the alarm starts with [time] and [enabled]
    undefined, hence disabled; the save effect on mount overwrites the
    payload with the empty record, from which the next reload starts the
    same way; and no tick ever rings this alarm. *)
Theorem primitive_payload_resets `{Host}
  (s : string) (v : JSValue) (date dateNow : Z) (ctx : option AudioContext) :
  s <> "" -> JSON_parse s = Normal v -> primitive_payload v = true ->
  exists w0 : World,
    initialWorld (Some s) date = Normal w0
    /\ alarm w0 = mkAlarm JUndefined JUndefined false None []
    /\ mountEffects ctx dateNow w0 = (Normal tt, snd (setItem (Some "{}") w0))
    /\ initialAlarm (Some "{}") = Normal (alarm w0)
    /\ forall ticks, isRinging (run_ticks ticks w0) = false.
Proof.
  intros Hs Hv Hp.
  unfold initialWorld, initialAlarm.
  assert (Hne : truthy (JStr s) = true)
    by (cbn; apply negb_true_iff, String.eqb_neq; exact Hs).
  rewrite Hne, Hv. cbn [bind ret Monad_Completion].
  assert (Hspread : spread v = [])
    by (destruct v; try discriminate Hp; reflexivity).
  rewrite Hspread. cbn [obj_get obj_remove].
  eexists. split; [reflexivity|]. split; [reflexivity|].
  split; [reflexivity|]. split; [reflexivity|].
  intros ticks.
  match goal with |- isRinging (run_ticks ticks ?w0) = false =>
    destruct (run_ticks_disabled ticks w0) as [d ->]
  end; reflexivity.
Qed.

Lemma primitive_payload_resets_witness :
  exists w0 : @World utcHost,
    initialWorld (Some "42") (date_2024_01_01 6 0 0) = Normal w0
    /\ alarm w0 = mkAlarm JUndefined JUndefined false None []
    /\ storage (snd (mountEffects audio_ok (date_2024_01_01 6 0 0) w0)) = Some "{}".
Proof.
  assert (Hne : "42" <> "") by discriminate.
  destruct (primitive_payload_resets (H:=utcHost) "42" (JNum 42)
              (date_2024_01_01 6 0 0) (date_2024_01_01 6 0 0) audio_ok
              Hne eq_refl eq_refl)
    as (w0 & Hinit & Ha & Hm & _).
  exists w0. split; [exact Hinit|]. split; [exact Ha|].
  rewrite Hm. reflexivity.
Defined.

(** ** The one-second interval *)

Section Interval.
Context `{Host}.

(** From an instant [T] that shows the configured time of day on, for less
    than a day and at the offset that the zone has at [T], the dates of the
    first second of the configured minute are those of the second that
    starts at [T]. *)
Lemma in_window_after (h m T date : Z) :
  0 <= h < 24 -> 0 <= m < 60 ->
  TimeWithinDay (LocalTime T) = MakeTime h m 0 0 ->
  LocalTZA date true = LocalTZA T true ->
  T <= date < T + msPerDay ->
  in_window h m date = true <-> date < T + msPerSecond.
Proof.
  unfold in_window, LocalTime. intros Hh Hm Ht Hz Hd. rewrite Hz.
  unfold TimeWithinDay, MakeTime, msPerDay, msPerHour, msPerMinute,
    msPerSecond in *.
  rewrite andb_true_iff, Z.leb_le, Z.ltb_lt.
  Z.to_euclidean_division_equations. lia.
Qed.
End Interval.

(** X17: let [T] be an occurrence of the configured time after the date
    of the last render of an armed, silent, unsnoozed alarm, and let a tick
    carry a date from [T] on, less than a day after it, at which the zone
    has the offset it has at [T]. The tick rings exactly when its date is
    less than a second after [T]; so a tick that follows the last date by
    at most the interval's 1000 ms and reaches [T] rings, and a tick
    delayed past that second does not. *)
Theorem second_ticks_cannot_miss `{Host}
  (ctx : option AudioContext) (date dateNow h m T : Z) (w : World) :
  0 <= h < 24 -> 0 <= m < 60 ->
  time (alarm w) = JStr (hhmm h m) ->
  truthy (enabled (alarm w)) = true ->
  isRinging w = false -> snoozed (alarm w) = false ->
  next_occurrence (currentTime w) h m T ->
  T <= date < T + msPerDay ->
  LocalTZA date true = LocalTZA T true ->
  (isRinging (snd (tick ctx date dateNow w)) = true <-> date < T + msPerSecond)
  /\ (date <= currentTime w + 1000 ->
      isRinging (snd (tick ctx date dateNow w)) = true).
Proof.
  intros Hh Hm Ht He Hr Hs Hnext Hd Hz.
  assert (Hiff : isRinging (snd (tick ctx date dateNow w)) = true
                 <-> date < T + msPerSecond).
  { destruct (tick_unsnoozed ctx date dateNow w Hs) as [_ ->].
    rewrite Hr. cbn [orb].
    rewrite (time_match_condition_window h m) by assumption.
    cbn [snd setCurrentTime alarm isRinging currentTime].
    rewrite (in_window_after h m T date Hh Hm (proj2 Hnext) Hz Hd).
    tauto. }
  split; [exact Hiff|].
  intros Hgap. apply Hiff. destruct Hnext as [[Hlt _] _].
  unfold msPerSecond. lia.
Qed.

Lemma second_ticks_cannot_miss_witness :
  let d := date_2024_01_01 in
  let w := armed_0700 (d 6 59 59 + 400) in
  next_occurrence (H:=utcHost) (currentTime w) 7 0 (d 7 0 0)
  /\ LocalTZA (Host:=utcHost) (d 7 0 0 + 400) true
     = LocalTZA (Host:=utcHost) (d 7 0 0) true
  /\ isRinging (snd (tick audio_ok (d 7 0 0 + 400) (d 7 0 0 + 400) w)) = true
  /\ (isRinging (snd (tick audio_ok (d 7 0 1) (d 7 0 1) w)) = true
      <-> d 7 0 1 < d 7 0 0 + msPerSecond).
Proof.
  cbn zeta.
  assert (Hnext : next_occurrence (H:=utcHost)
                    (currentTime (armed_0700 (date_2024_01_01 6 59 59 + 400)))
                    7 0 (date_2024_01_01 7 0 0)).
  { split; [split; vm_compute; congruence | reflexivity]. }
  split; [exact Hnext|]. split; [reflexivity|]. split.
  - apply (second_ticks_cannot_miss audio_ok (date_2024_01_01 7 0 0 + 400)
             (date_2024_01_01 7 0 0 + 400) 7 0 (date_2024_01_01 7 0 0)
             (armed_0700 (date_2024_01_01 6 59 59 + 400)));
      try reflexivity; try lia; try exact Hnext;
      try (split; vm_compute; congruence); vm_compute; congruence.
  - apply (second_ticks_cannot_miss audio_ok (date_2024_01_01 7 0 1)
             (date_2024_01_01 7 0 1) 7 0 (date_2024_01_01 7 0 0)
             (armed_0700 (date_2024_01_01 6 59 59 + 400)));
      try reflexivity; try lia; try exact Hnext;
      split; vm_compute; congruence.
Defined.
